(** * DU processing-speed analysis: extraction, aggregation and reporting

    A shallow embedding of the analytics scripts
    [extract_du_from_html.py], [du_speed_analysis.py] and
    [generate_extended_word_report.py], with the properties of the
    pipeline stated and proved over it.

    Modelling conventions.
    - A float64 is a value of [float]: an exact rational, one of the two
      infinities, or NaN.  Rounding and overflow of finite results are not
      modelled; the special values follow IEEE 754 as numpy applies them
      (division by zero gives an infinity or NaN and raises nothing).
      Finite results are kept in lowest terms ([Qred]).
    - pandas' missing markers (NaN in a float column, [pd.NA], [NaT], an
      empty cell) are one undefined value: [NaN] in a [float], [None] in an
      option.
    - A Python exception is a value of an error type returned on the left of
      a sum.
    - An int64 column is a list of integers whose sums wrap around at 64
      bits.
    - [DataFrame.sort_values] is any function that returns the rows of its
      input in an order that respects the keys: numpy's quicksort promises
      nothing about rows with equal keys. *)

From Stdlib Require Import ZArith QArith Qreduction List Ascii String Bool Lia.
From Stdlib Require Import DecimalString Qabs OrderedTypeEx Lqa Qminmax.
From Stdlib Require Import Sorting.Sorted Permutation.
Import ListNotations.

Local Open Scope string_scope.
Local Open Scope list_scope.
Local Open Scope Z_scope.

(** ** Outcomes of fallible code *)

Inductive result (E A : Type) : Type :=
| Ok (a : A)
| Raise (e : E).
Arguments Ok {E A} a.
Arguments Raise {E A} e.

(** ** float64 values *)

Inductive float : Type :=
| Fin (q : Q)
| PInf
| NInf
| NaN.

Definition fin (q : Q) : float := Fin (Qred q).

Definition isna (x : float) : bool :=
  match x with NaN => true | _ => false end.

Definition notna (x : float) : bool := negb (isna x).

Definition isinf (x : float) : bool :=
  match x with PInf | NInf => true | _ => false end.

Definition Qsign (q : Q) : comparison := (0 ?= Qnum q)%Z.

Definition fneg (x : float) : float :=
  match x with
  | Fin q => fin (- q)
  | PInf => NInf
  | NInf => PInf
  | NaN => NaN
  end.

Definition fadd (x y : float) : float :=
  match x, y with
  | NaN, _ | _, NaN => NaN
  | PInf, NInf | NInf, PInf => NaN
  | PInf, _ | _, PInf => PInf
  | NInf, _ | _, NInf => NInf
  | Fin a, Fin b => fin (a + b)
  end.

Definition fsub (x y : float) : float := fadd x (fneg y).

(** The infinity with the sign of [q], or NaN for zero: the value of
    [q * inf] and of [q / 0]. *)
Definition signed_inf (q : Q) : float :=
  match Qsign q with
  | Lt => PInf
  | Gt => NInf
  | Eq => NaN
  end.

Definition fmul (x y : float) : float :=
  match x, y with
  | NaN, _ | _, NaN => NaN
  | Fin a, Fin b => fin (a * b)
  | Fin a, PInf | PInf, Fin a => signed_inf a
  | Fin a, NInf | NInf, Fin a => signed_inf (- a)
  | PInf, PInf | NInf, NInf => PInf
  | PInf, NInf | NInf, PInf => NaN
  end.

(** Float division.  A zero divisor gives an infinity with the sign of the
    dividend (NaN for 0/0); the sign a negative zero would flip is not
    tracked. *)
Definition fdiv (x y : float) : float :=
  match x, y with
  | NaN, _ | _, NaN => NaN
  | Fin a, Fin b => if Qeq_bool b 0 then signed_inf a else fin (a / b)
  | Fin _, (PInf | NInf) => fin 0
  | (PInf | NInf), (PInf | NInf) => NaN
  | PInf, Fin b => match Qsign b with Gt => NInf | _ => PInf end
  | NInf, Fin b => match Qsign b with Gt => PInf | _ => NInf end
  end.

Definition Qsum (l : list Q) : Q := fold_right Qplus 0%Q l.

(** Mean of a list of finite values; the mean of nothing is NaN. *)
Definition mean (l : list Q) : float :=
  match l with
  | [] => NaN
  | _ => fin (Qsum l / inject_Z (Z.of_nat (List.length l)))
  end.

(** ** Sorting helpers: sorted lists without duplicates *)

Section SortUniq.
Context {A : Type}.
Variable cmp : A -> A -> comparison.

Fixpoint insert_uniq (x : A) (l : list A) : list A :=
  match l with
  | [] => [x]
  | y :: t =>
      match cmp x y with
      | Lt => x :: l
      | Eq => l
      | Gt => y :: insert_uniq x t
      end
  end.

Definition sort_uniq (l : list A) : list A :=
  fold_right insert_uniq [] l.

(** Stable insertion sort: the sort the examples run with. *)
Fixpoint insert_stable (x : A) (l : list A) : list A :=
  match l with
  | [] => [x]
  | y :: t =>
      match cmp x y with
      | Gt => y :: insert_stable x t
      | _ => x :: l
      end
  end.

Definition sort_stable (l : list A) : list A :=
  fold_right insert_stable [] l.
End SortUniq.

(** First-appearance order without duplicates, as [Series.unique]. *)
Fixpoint unique {A : Type} (eqb : A -> A -> bool) (l : list A) : list A :=
  match l with
  | [] => []
  | x :: t => x :: filter (fun y => negb (eqb x y)) (unique eqb t)
  end.

(** ** Sorting the rows of a frame

    What [sort_values] is taken to be: a function on lists of rows whose
    result holds the rows of its argument, each as often as the argument
    does, in an order [le] of their keys.  Nothing is said about the order
    of rows with equal keys. *)
Record sorter {A : Type} (le : A -> A -> Prop) : Type :=
  mksorter {
    sort_values :> list A -> list A;
    sort_values_perm : forall l, Permutation (sort_values l) l;
    sort_values_sorted : forall l, StronglySorted le (sort_values l) }.
Arguments sort_values {A le} s l.
Arguments sort_values_perm {A le} s l.
Arguments sort_values_sorted {A le} s l.

(** The stable insertion sort is one such function; the examples run
    with it. *)
Section StableSorter.
Context {A : Type} (cmp : A -> A -> comparison) (le : A -> A -> Prop).
Hypothesis cmp_le : forall x y, cmp x y <> Gt -> le x y.
Hypothesis cmp_gt : forall x y, cmp x y = Gt -> le y x.
Hypothesis le_trans : forall x y z, le x y -> le y z -> le x z.

Lemma insert_stable_perm (x : A) (l : list A) :
  Permutation (insert_stable cmp x l) (x :: l).
Proof.
  induction l as [| y t IH]; cbn [insert_stable]; [constructor; constructor |].
  destruct (cmp x y); try apply Permutation_refl.
  eapply Permutation_trans; [apply perm_skip, IH | apply perm_swap].
Qed.

Lemma sort_stable_perm (l : list A) : Permutation (sort_stable cmp l) l.
Proof.
  induction l as [| x t IH]; [constructor |].
  cbn [sort_stable fold_right]. fold (sort_stable cmp t).
  eapply Permutation_trans; [apply insert_stable_perm | now constructor].
Qed.

Lemma insert_stable_sorted (x : A) (l : list A) :
  StronglySorted le l -> StronglySorted le (insert_stable cmp x l).
Proof.
  induction 1 as [| y t St IH F]; cbn [insert_stable].
  - repeat constructor.
  - assert (G : cmp x y <> Gt -> StronglySorted le (x :: y :: t)).
    { intros N. constructor; [constructor; assumption |].
      constructor; [apply cmp_le, N |]. rewrite Forall_forall in *.
      intros z Hz. apply le_trans with y; [apply cmp_le, N | apply F, Hz]. }
    destruct (cmp x y) eqn:E; [apply G; discriminate | apply G; discriminate |].
    constructor; [exact IH |].
    rewrite Forall_forall in *. intros z Hz.
    apply (Permutation_in _ (insert_stable_perm x t)) in Hz.
    destruct Hz as [<- | Hz]; [apply cmp_gt, E | apply F, Hz].
Qed.

Lemma sort_stable_sorted (l : list A) : StronglySorted le (sort_stable cmp l).
Proof.
  induction l as [| x t IH]; [constructor |].
  cbn [sort_stable fold_right]. apply insert_stable_sorted, IH.
Qed.

Definition stable_sorter : sorter le :=
  {| sort_values := sort_stable cmp;
     sort_values_perm := sort_stable_perm;
     sort_values_sorted := sort_stable_sorted |}.
End StableSorter.

(** Keys of a column that may hold missing values: [sort_values] puts the
    missing ones last. *)
Definition na_last_le (a b : option Z) : Prop :=
  match a, b with
  | Some x, Some y => x <= y
  | _, None => True
  | None, Some _ => False
  end.

Definition na_last_cmp (a b : option Z) : comparison :=
  match a, b with
  | Some x, Some y => x ?= y
  | Some _, None => Lt
  | None, Some _ => Gt
  | None, None => Eq
  end.

Lemma na_last_cmp_le (a b : option Z) :
  na_last_cmp a b <> Gt -> na_last_le a b.
Proof.
  destruct a as [x |], b as [y |]; cbn; intros H; try exact I.
  - now apply Z.compare_le_iff.
  - now elim H.
Qed.

Lemma na_last_cmp_gt (a b : option Z) :
  na_last_cmp a b = Gt -> na_last_le b a.
Proof.
  destruct a as [x |], b as [y |]; cbn; intros H; try exact I;
    try discriminate.
  apply Z.compare_gt_iff in H. lia.
Qed.

Lemma na_last_le_trans (a b c : option Z) :
  na_last_le a b -> na_last_le b c -> na_last_le a c.
Proof.
  destruct a as [x |], b as [y |], c as [z |]; cbn; intros H1 H2;
    try exact I; try contradiction.
  lia.
Qed.

(** ** Rolling windows

    [Series.rolling(w, min_periods=mp)] with an integer [w]: the window of
    row [i] holds the rows [i+1-w .. i] (fewer at the start of the series);
    the statistic is taken over the observations in it that are not NaN, and
    is NaN when there are fewer than [mp] of them. *)

Definition window_at {A : Type} (w : nat) (xs : list A) (i : nat) : list A :=
  skipn (i + 1 - w) (firstn (i + 1) xs).

Definition observations (l : list (option Q)) : list Q :=
  flat_map (fun o => match o with Some q => [q] | None => [] end) l.

Definition roll_at (w mp : nat) (agg : list Q -> float)
           (xs : list (option Q)) (i : nat) : float :=
  let obs := observations (window_at w xs i) in
  if (mp <=? List.length obs)%nat then agg obs else NaN.

Definition rolling (w mp : nat) (agg : list Q -> float)
           (xs : list (option Q)) : list float :=
  map (roll_at w mp agg xs) (seq 0 (List.length xs)).

(** * extract_du_from_html.py *)

Module Extract.

(** A [datetime.date]; dates compare as the tuples (year, month, day). *)
Record date : Type := mkdate { year : Z; month : Z; day : Z }.

Definition date_compare (a b : date) : comparison :=
  match year a ?= year b with
  | Eq => match month a ?= month b with
          | Eq => day a ?= day b
          | c => c
          end
  | c => c
  end.

Definition date_leb (a b : date) : bool :=
  match date_compare a b with Gt => false | _ => true end.

Definition date_eqb (a b : date) : bool :=
  match date_compare a b with Eq => true | _ => false end.

(** The order of dates as propositions. *)
Definition date_lt (a b : date) : Prop :=
  year a < year b \/
  (year a = year b /\
   (month a < month b \/ (month a = month b /\ day a < day b))).

Definition date_le (a b : date) : Prop := date_lt a b \/ a = b.

Definition Tipovoy : string := "Типовой".
Definition BezDubley : string := "Без дублей обменов".
Definition BezDubleyParallel : string :=
  "Без дублей обменов + Параллельные портфели".

Definition assign_scenario (d : date) : string :=
  if date_leb d (mkdate 2025 10 8) then Tipovoy
  else if date_leb d (mkdate 2025 10 16) then BezDubley
  else BezDubleyParallel.

(** The inclusive upper bounds of the first two ranges. *)
Definition bound1 : date := mkdate 2025 10 8.
Definition bound2 : date := mkdate 2025 10 16.

(** *** The raw document

    [pd.read_html] turns the document into a list of tables.  A cell is
    modelled by its text, [None] for an empty cell (NaN); a table keeps its
    number of columns, which an empty table still has. *)

Definition cell : Type := option string.

Record table : Type := mktable { ncols : nat; rows : list (list cell) }.

Record datetime : Type :=
  mkdatetime { dt_date : date; dt_hour : Z; dt_minute : Z; dt_second : Z }.

Inductive error : Type :=
| FileNotFoundError          (* the HTML file does not exist *)
| NoTablesFound              (* ValueError of read_html *)
| IndexError                 (* tables[3] *)
| LengthMismatch.            (* ValueError of df.columns = [7 names] *)

(** Column access by the names given in [extract]. *)
Definition col (i : nat) (r : list cell) : cell := nth i r None.
Definition datetime_end : list cell -> cell := col 1.
Definition minutes_cell : list cell -> cell := col 4.

Definition astype_str (c : cell) : string :=
  match c with Some s => s | None => "nan" end.

Fixpoint str_contains (pat s : string) : bool :=
  prefix pat s ||
  match s with
  | EmptyString => false
  | String _ t => str_contains pat t
  end.

(** [.str.replace(' ', '')] *)
Fixpoint remove_spaces (s : string) : string :=
  match s with
  | EmptyString => EmptyString
  | String c t =>
      if Ascii.eqb c " "%char then remove_spaces t
      else String c (remove_spaces t)
  end.

Definition header_marker : string := "Длительность".

Definition is_some {A : Type} (o : option A) : bool :=
  match o with Some _ => true | None => false end.

(** *** Numbers of the minutes column

    [pd.to_numeric] gives the column the type int64 when every text it is
    handed is an integer literal, and float64 otherwise (one text that
    does not parse is enough: it becomes NaN).  A parsed cell is an integer
    or a float; integer literals that do not fit 64 bits, which pandas
    reads as unsigned or as floats, are outside the model. *)
Inductive number : Type :=
| Int (z : Z)        (* a value of an int64 column *)
| Flt (x : float).   (* a value of a float64 column *)

(** Two's complement wrap-around of int64 arithmetic. *)
Definition wrap64 (z : Z) : Z := (z + 2 ^ 63) mod 2 ^ 64 - 2 ^ 63.

Definition is_int (n : number) : bool :=
  match n with Int _ => true | Flt _ => false end.

Definition int_value (n : number) : Z :=
  match n with Int z => z | Flt _ => 0 end.

(** [astype(float)] of one value. *)
Definition astype_float (n : number) : float :=
  match n with Int z => Fin (inject_Z z) | Flt x => x end.

(** [notna] of a parsed cell: a text that did not parse, or parsed to
    NaN, is missing. *)
Definition notna_number (o : option number) : bool :=
  match o with
  | Some (Int _) => true
  | Some (Flt x) => notna x
  | None => false
  end.

Definition int64_column (cells : list (option number)) : bool :=
  forallb (fun o => match o with Some (Int _) => true | _ => false end) cells.

(** The column [pd.to_numeric] makes of the parsed cells: as they are
    when all of them are integers, as floats otherwise. *)
Definition to_numeric_column (cells : list (option number))
  : list (option number) :=
  if int64_column cells then cells
  else map (option_map (fun n => Flt (astype_float n))) cells.

Definition Zsum (l : list Z) : Z := fold_right Z.add 0 l.

Definition fsum (l : list float) : float := fold_right fadd (Fin 0) l.

(** The sum of the values of a group: int64 addition wraps around. *)
Definition sum_numbers (int64 : bool) (l : list number) : number :=
  if int64 then Int (wrap64 (Zsum (map int_value l)))
  else Flt (fsum (map astype_float l)).

(** A parsed value as the column holds it. *)
Definition as_column (int64 : bool) (n : number) : number :=
  if int64 then n else Flt (astype_float n).

(** A number that is not negative. *)
Definition nonneg (n : number) : Prop :=
  match n with
  | Int z => 0 <= z
  | Flt (Fin q) => (0 <= q)%Q
  | Flt PInf => True
  | Flt _ => False
  end.

(** One row of the frame returned by [extract]. *)
Record out_row : Type :=
  mkrow { date_str : string; scenario : string; minutes : number }.

Definition digit (n : Z) : ascii := ascii_of_nat (48 + Z.to_nat (n mod 10)).
Definition zfill2 (n : Z) : string :=
  String (digit (n / 10)) (String (digit n) EmptyString).
Definition zfill4 (n : Z) : string :=
  String (digit (n / 1000)) (String (digit (n / 100)) (zfill2 n)).

(** [strftime('%Y-%m-%d')] *)
Definition strftime_ymd (d : date) : string :=
  (zfill4 (year d) ++ "-" ++ zfill2 (month d) ++ "-" ++ zfill2 (day d))%string.

(** The line terminator of [to_csv] ([os.linesep]), here a line feed. *)
Definition nl : string := String (ascii_of_nat 10) EmptyString.

Section Extractor.
(** pandas' parsers are parameters of the model:
    [to_datetime s] is [pd.to_datetime(s, format='%d.%m.%Y %H:%M:%S',
    errors='coerce')] on one text, [None] for NaT;
    [to_numeric s] is what [pd.to_numeric(..., errors='coerce')] reads
    from one text, [None] where it does not parse; [format_minutes] is the
    text [to_csv] writes for the minutes column. *)
Variable to_datetime : string -> option datetime.
Variable to_numeric : string -> option number.
Variable format_minutes : list number -> list string.

Definition to_datetime_cell (c : cell) : option datetime :=
  match c with Some s => to_datetime s | None => None end.

(** The filtering and parsing steps of [extract], column by column, down
    to the pairs (date, minutes) that are grouped. *)
Definition parsed_rows (rs : list (list cell)) : list (date * number) :=
  (* df = df[df['minutes'].notna()] *)
  let df := filter (fun r => is_some (minutes_cell r)) rs in
  (* df = df[~df['minutes'].astype(str).str.contains('Длительность')] *)
  let df :=
    filter (fun r => negb (str_contains header_marker
                                        (astype_str (minutes_cell r)))) df in
  (* df['date_end'] = pd.to_datetime(df['datetime_end'], ...) *)
  let df := map (fun r => (r, to_datetime_cell (datetime_end r))) df in
  (* df = df[df['date_end'].notna()] *)
  let df := filter (fun p => is_some (snd p)) df in
  (* df['minutes'] = pd.to_numeric(... .str.replace(' ', ''), ...) *)
  let col :=
    to_numeric_column
      (map (fun p => to_numeric (remove_spaces
                                   (astype_str (minutes_cell (fst p))))) df) in
  let df := combine (map snd df) col in
  (* df = df[df['minutes'].notna()] *)
  let df := filter (fun p => notna_number (snd p)) df in
  (* df['date'] = df['date_end'].dt.date *)
  flat_map (fun p => match p with
                     | (Some dt, Some n) => [(dt_date dt, n)]
                     | _ => []
                     end) df.

(** [df.groupby('date')['minutes'].sum().reset_index()]: one row per
    date, in date order, the sum taken in the type of the column. *)
Definition groupby_sum (l : list (date * number)) : list (date * number) :=
  let int64 := forallb is_int (map snd l) in
  map (fun d =>
         (d, sum_numbers int64
               (map snd (filter (fun p => date_eqb (fst p) d) l))))
      (sort_uniq date_compare (map fst l)).

Definition daily_row (p : date * number) : out_row :=
  mkrow (strftime_ymd (fst p)) (assign_scenario (fst p)) (snd p).

Definition extract (doc : option (list table)) : result error (list out_row) :=
  match doc with
  | None => Raise FileNotFoundError
  | Some [] => Raise NoTablesFound
  | Some tables =>
      match nth_error tables 3 with
      | None => Raise IndexError
      | Some t =>
          if negb (Nat.eqb (ncols t) 7) then Raise LengthMismatch
          else Ok (map daily_row (groupby_sum (parsed_rows (rows t))))
      end
  end.

(** What one raw row holds: whether it carries the header marker, the
    calendar date of its end timestamp and its duration, where they
    parse. *)
Definition is_header (r : list cell) : bool :=
  str_contains header_marker (astype_str (minutes_cell r)).

Definition end_date (r : list cell) : option date :=
  option_map dt_date (to_datetime_cell (datetime_end r)).

(** The duration of a row as its text parses, missing when the cell is
    empty, does not parse or parses to NaN. *)
Definition duration (r : list cell) : option number :=
  match minutes_cell r with
  | Some m =>
      let n := to_numeric (remove_spaces m) in
      if notna_number n then n else None
  | None => None
  end.

(** A row survives the filters when it is not a header row and both its
    end timestamp and its duration parse. *)
Definition survives (r : list cell) : option (date * number) :=
  if is_header r then None
  else match end_date r, duration r with
       | Some d, Some q => Some (d, q)
       | _, _ => None
       end.

(** The rows whose duration text reaches [pd.to_numeric]: the duration
    cell is not empty, the row is no header row and the end timestamp
    parses.  The column is int64 when each of these texts is an integer. *)
Definition reaches_to_numeric (r : list cell) : bool :=
  is_some (minutes_cell r) && negb (is_header r) && is_some (end_date r).

Definition int_column (rs : list (list cell)) : bool :=
  forallb (fun r => match minutes_cell r with
                    | Some m => match to_numeric (remove_spaces m) with
                                | Some (Int _) => true
                                | _ => false
                                end
                    | None => false
                    end)
          (filter reaches_to_numeric rs).

(** The parsed durations of the surviving rows of day [d]. *)
Definition day_durations (d : date) (rs : list (list cell)) : list number :=
  flat_map (fun r => match survives r with
                     | Some (d', q) => if date_eqb d' d then [q] else []
                     | None => []
                     end) rs.

Definition daily_totals (rs : list (list cell)) : list (date * number) :=
  groupby_sum (parsed_rows rs).

(** The parsed durations of all surviving rows, in row order. *)
Definition all_durations (rs : list (list cell)) : list number :=
  flat_map (fun r => match survives r with
                     | Some p => [snd p]
                     | None => []
                     end) rs.

(** [df.to_csv(CSV_OUT, sep=';', index=False)] *)
Definition to_csv (df : list out_row) : string :=
  ("date;scenario;minutes" ++ nl ++
   concat ""
     (map (fun p => date_str (fst p) ++ ";" ++ scenario (fst p) ++ ";"
                    ++ snd p ++ nl)
          (combine df (format_minutes (map minutes df)))))%string.

(** The files [main] reads and writes. *)
Record files : Type :=
  mkfiles { html : option (list table); csv : option string }.

(** [main]: the files after the run and the exit status. *)
Definition main (fs : files) : files * Z :=
  match extract (html fs) with
  | Ok df => (mkfiles (html fs) (Some (to_csv df)), 0)
  | Raise _ => (fs, 1)
  end.
End Extractor.

(** Dates of a year written with four digits, as the days of pandas
    timestamps are. *)
Definition four_digit_year (d : date) : Prop :=
  1000 <= year d <= 9999 /\ 1 <= month d <= 12 /\ 1 <= day d <= 31.

(** The order in which the scenarios follow each other in an extracted
    frame: a row of the first scenario is never below a row of another
    one, a row of the last scenario never above. *)
Definition scenario_order (r1 r2 : out_row) : Prop :=
  (scenario r2 = Tipovoy -> scenario r1 = Tipovoy)
  /\ (scenario r1 = BezDubleyParallel -> scenario r2 = BezDubleyParallel).

(** *** Reference parsers for plain inputs

    pandas' parsers accept more than these do; on texts of the plain forms
    below both give the same value.  They instantiate the parameters of
    [extract] on concrete documents. *)

Definition is_digit (c : ascii) : bool :=
  (48 <=? nat_of_ascii c)%nat && (nat_of_ascii c <=? 57)%nat.

Definition digit_value (c : ascii) : Z := Z.of_nat (nat_of_ascii c) - 48.

Fixpoint digits_value (acc : Z) (s : string) : option Z :=
  match s with
  | EmptyString => Some acc
  | String c t =>
      if is_digit c then digits_value (10 * acc + digit_value c) t else None
  end.

Definition number_of (s : string) : option Z :=
  match s with
  | EmptyString => None
  | _ => digits_value 0 s
  end.

(** Signed decimal integers that fit 64 bits: ["125"], ["-5"]. *)
Definition int64_literal (z : Z) : option number :=
  if (- 2 ^ 63 <=? z) && (z <? 2 ^ 63) then Some (Int z) else None.

Definition to_numeric_int (s : string) : option number :=
  match s with
  | String "-"%char t =>
      match number_of t with Some z => int64_literal (- z) | None => None end
  | _ =>
      match number_of s with Some z => int64_literal z | None => None end
  end.

Definition is_leap (y : Z) : bool :=
  (y mod 4 =? 0) && (negb (y mod 100 =? 0) || (y mod 400 =? 0)).

Definition days_in_month (y m : Z) : Z :=
  if m =? 2 then (if is_leap y then 29 else 28)
  else if (m =? 4) || (m =? 6) || (m =? 9) || (m =? 11) then 30
  else 31.

Definition field (s : string) (start len : nat) : option Z :=
  let f := substring start len s in
  if Nat.eqb (String.length f) len then number_of f else None.

Definition sep_at (s : string) (i : nat) (c : ascii) : bool :=
  match get i s with Some x => Ascii.eqb x c | None => false end.

(** Timestamps written [DD.MM.YYYY HH:MM:SS] with two-digit fields. *)
Definition to_datetime_dmy (s : string) : option datetime :=
  match field s 0 2, field s 3 2, field s 6 4,
        field s 11 2, field s 14 2, field s 17 2 with
  | Some d, Some m, Some y, Some hh, Some mi, Some ss =>
      if Nat.eqb (String.length s) 19
         && sep_at s 2 "." && sep_at s 5 "." && sep_at s 10 " "
         && sep_at s 13 ":" && sep_at s 16 ":"
         && (1 <=? y) && (1 <=? m) && (m <=? 12)
         && (1 <=? d) && (d <=? days_in_month y m)
         && (hh <? 24) && (mi <? 60) && (ss <? 60)
      then Some (mkdatetime (mkdate y m d) hh mi ss)
      else None
  | _, _, _, _, _, _ => None
  end.

(** The minutes column as [to_csv] writes it: an integer in decimal, a
    whole float with one decimal, NaN as the empty text.  A float that is
    not whole is written by pandas with its shortest decimal that reads
    back the same, which this reference does not compute: it writes the
    fraction. *)
Definition format_number (n : number) : string :=
  match n with
  | Int z => NilZero.string_of_int (Z.to_int z)
  | Flt (Fin q) =>
      if Pos.eqb (Qden q) 1
      then (NilZero.string_of_int (Z.to_int (Qnum q)) ++ ".0")%string
      else (NilZero.string_of_int (Z.to_int (Qnum q)) ++ "/"
            ++ NilZero.string_of_int (Z.to_int (Z.pos (Qden q))))%string
  | Flt PInf => "inf"
  | Flt NInf => "-inf"
  | Flt NaN => ""
  end.

Definition format_minutes_int (l : list number) : list string :=
  map format_number l.

(** *** Sample documents

    Four tables each, the fourth with the seven columns of the timing
    records. *)
Definition raw_row (e m : cell) : list cell :=
  [Some "x"; e; None; None; m; None; None].

Definition heading_row : list cell :=
  raw_row (Some "Дата окончания") (Some "Длительность, мин").

Definition other_table : table := mktable 2 [].

Definition document_of (rs : list (list cell)) : list table :=
  [other_table; other_table; other_table; mktable 7 rs].

Definition sample_rows : list (list cell) :=
  [ heading_row;
    raw_row (Some "08.10.2025 13:04:05") (Some "1 250");
    raw_row (Some "08.10.2025 23:59:59") (Some "50");
    raw_row (Some "09.10.2025 07:00:00") (Some "n/a");
    raw_row (Some "not a date") (Some "7");
    raw_row (Some "17.10.2025 00:00:00") (Some "30");
    raw_row (Some "10.10.2025 00:00:00") None ].

Definition heading_only_rows : list (list cell) :=
  [ heading_row; raw_row (Some "not a date") (Some "7") ].

Definition negative_rows : list (list cell) :=
  [ heading_row; raw_row (Some "17.10.2025 00:00:00") (Some "-5") ].

(** Two durations of 2^62 minutes on one day. *)
Definition overflow_rows : list (list cell) :=
  [ heading_row;
    raw_row (Some "17.10.2025 00:00:00") (Some "4611686018427387904");
    raw_row (Some "17.10.2025 12:00:00") (Some "4611686018427387904") ].

(** Whole durations only, no text that fails to parse past the date
    filter. *)
Definition integer_rows : list (list cell) :=
  [ heading_row;
    raw_row (Some "08.10.2025 13:04:05") (Some "1 250");
    raw_row (Some "08.10.2025 23:59:59") (Some "50");
    raw_row (Some "not a date") (Some "n/a");
    raw_row (Some "17.10.2025 00:00:00") (Some "30") ].

End Extract.

(** * du_speed_analysis.py *)

Module Speed.

(** A row of the frame the functions below are handed: the date as a day
    number (days since 1970-01-01, the day of a pandas timestamp), the
    scenario label and the minutes.  [read_data] drops every row with a
    missing date, scenario or minutes, so the three are defined; the
    minutes are finite numbers, in exact arithmetic. *)
Record row : Type := mkrow { date : Z; scenario : string; minutes : Q }.

Definition frame : Type := list row.

(** A Series is its (label, value) pairs in index order; a DataFrame is
    its index and its named columns, each a Series over that index. *)
Definition Series : Type := list (Z * float).

Record DataFrame : Type :=
  mkframe { index : list Z; columns : list (string * Series) }.

(** Value at a label; a label that is missing reads as NaN, as alignment
    fills it. *)
Definition s_get (s : Series) (d : Z) : float :=
  match find (fun p => fst p =? d) s with
  | Some p => snd p
  | None => NaN
  end.

Definition column (df : DataFrame) (c : string) : option Series :=
  option_map snd (find (fun p => String.eqb (fst p) c) (columns df)).

(** [df[c]] for a column that exists. *)
Definition getitem (df : DataFrame) (c : string) : Series :=
  match column df c with Some s => s | None => [] end.

(** The cell at (label, column): [None] when the frame has no such row or
    no such column. *)
Definition loc (df : DataFrame) (d : Z) (c : string) : option float :=
  match column df c with
  | Some s => if existsb (Z.eqb d) (index df) then Some (s_get s d) else None
  | None => None
  end.

(** [df.pivot_table(index="date", columns="scenario", values="minutes",
    aggfunc="mean")]: sorted dates, sorted scenarios, the mean of the
    rows of each (date, scenario), NaN where there is none. *)
Definition cell_values (df : frame) (d : Z) (c : string) : list Q :=
  map minutes (filter (fun r => (date r =? d) && String.eqb (scenario r) c) df).

Definition pivot_table (df : frame) : DataFrame :=
  let idx := sort_uniq Z.compare (map date df) in
  let cols := sort_uniq String.compare (map scenario df) in
  mkframe idx
    (map (fun c => (c, map (fun d => (d, mean (cell_values df d c))) idx)) cols).

Definition base_col : string := "Типовой".

(** The minutes of scenario [c] on date [d] as the pivot holds them. *)
Definition minutes_at (df : frame) (d : Z) (c : string) : float :=
  mean (cell_values df d c).

(** The Series of column [c] of the pivot. *)
Definition pivot_series (df : frame) (c : string) : Series :=
  map (fun d => (d, minutes_at df d c)) (index (pivot_table df)).

Inductive error : Type :=
| ValueError (msg : string).

(** [a / b] on two Series over the same index. *)
Definition series_div (a b : Series) : Series :=
  map (fun p => (fst p, fdiv (snd p) (s_get b (fst p)))) a.

(** [pd.concat(frames, axis=1)] of Series over one index. *)
Definition concat_axis1 (frames : list (string * Series)) : DataFrame :=
  mkframe (match frames with
           | [] => []
           | f :: _ => map fst (snd f)
           end) frames.

(** [.replace([pd.NA, pd.NaT, inf, -inf], pd.NA)] *)
Definition na_if_inf (x : float) : float :=
  if isna x || isinf x then NaN else x.

Definition replace_inf (df : DataFrame) : DataFrame :=
  mkframe (index df)
    (map (fun c => (fst c, map (fun p => (fst p, na_if_inf (snd p))) (snd c)))
         (columns df)).

(** [.dropna(how="all")] *)
Definition dropna_all (df : DataFrame) : DataFrame :=
  let keep :=
    filter (fun d => existsb (fun c => notna (s_get (snd c) d)) (columns df))
           (index df) in
  mkframe keep
    (map (fun c => (fst c, filter (fun p => existsb (Z.eqb (fst p)) keep) (snd c)))
         (columns df)).

Definition compute_acceleration (df : frame) : result error DataFrame :=
  let pivot := pivot_table df in
  if negb (existsb (String.eqb base_col) (map fst (columns pivot))) then
    Raise (ValueError
      "Baseline 'Типовой' is required in the dataset to compute acceleration.")
  else
    let accel_frames :=
      flat_map (fun c =>
                  if String.eqb (fst c) base_col then []
                  else [(fst c, series_div (getitem pivot base_col) (snd c))])
               (columns pivot) in
    match accel_frames with
    | [] => Raise (ValueError
                     "No alternative scenarios to compare against baseline.")
    | _ => Ok (dropna_all (replace_inf (concat_axis1 accel_frames)))
    end.

(** The ratio the acceleration frame is to hold at ([d], [c]), and the
    scenarios other than the baseline, in column order. *)
Definition ratio (df : frame) (d : Z) (c : string) : float :=
  na_if_inf (fdiv (minutes_at df d base_col) (minutes_at df d c)).

Definition alternatives (df : frame) : list string :=
  filter (fun c => negb (String.eqb c base_col))
         (sort_uniq String.compare (map scenario df)).

(** The frame [compute_acceleration] returns when it raises nothing: the
    dates with a defined ratio in some column, and for each alternative
    scenario its ratios on those dates. *)
Definition accel_frame (df : frame) : DataFrame :=
  let idx := index (pivot_table df) in
  let keep :=
    filter (fun d => existsb (fun c => notna (ratio df d c)) (alternatives df))
           idx in
  mkframe keep
    (map (fun c =>
            (c, filter (fun p => existsb (Z.eqb (fst p)) keep)
                       (map (fun d => (d, ratio df d c)) idx)))
         (alternatives df)).

(** [sort_values("date")] orders the rows by their dates. *)
Definition by_date (a b : row) : Prop := date a <= date b.

(** The series [plot_rolling_avg] draws, one per scenario in order of
    first appearance. *)
Definition min_periods (window : nat) : nat := Nat.max 1 (window / 2).

Definition plot_rolling_avg (sort : sorter by_date) (df : frame)
           (window : nat) : list (string * Series) :=
  map (fun s =>
         let sub := sort (filter (fun r => String.eqb (scenario r) s) df) in
         (s, combine (map date sub)
               (rolling window (min_periods window) mean
                        (map (fun r => Some (minutes r)) sub))))
      (unique String.eqb (map scenario df)).

(** The bars of [plot_daily_bars], one group per scenario. *)
Definition plot_daily_bars (sort : sorter by_date) (df : frame)
  : list (string * list (Z * Q)) :=
  map (fun s =>
         let sub := sort (filter (fun r => String.eqb (scenario r) s) df) in
         (s, map (fun r => (date r, minutes r)) sub))
      (unique String.eqb (map scenario df)).

(** The stable sort by date, for the examples. *)
Definition stable_by_date : sorter by_date :=
  stable_sorter (fun a b => date a ?= date b) by_date
    (fun x y => proj1 (Z.compare_le_iff (date x) (date y)))
    (fun x y H => Z.lt_le_incl _ _ (proj1 (Z.compare_gt_iff _ _) H))
    (fun x y z => Z.le_trans (date x) (date y) (date z)).

(** Weekly bins of [resample("W")]: weeks end on Sunday, a bin is closed
    on the right and labelled by its Sunday; the bins run from the week of
    the first date to the week of the last one. *)
Definition weekday (d : Z) : Z := (d + 3) mod 7.   (* Monday is 0 *)

Definition week_end (d : Z) : Z := d + (6 - weekday d).

Definition week_bins (idx : list Z) : list Z :=
  match idx with
  | [] => []
  | d0 :: t =>
      let first := week_end (fold_right Z.min d0 t) in
      let last := week_end (fold_right Z.max d0 t) in
      map (fun k => first + 7 * Z.of_nat k)
          (seq 0 (S (Z.to_nat ((last - first) / 7))))
  end.

(** Mean of the values that are not NaN; NaN when there is none. *)
Definition nanmean (l : list float) : float :=
  let obs := filter notna l in
  match obs with
  | [] => NaN
  | _ => fdiv (fold_right fadd (Fin 0) obs)
              (Fin (inject_Z (Z.of_nat (List.length obs))))
  end.

Definition in_bin (w d : Z) : bool := (w - 7 <? d) && (d <=? w).

(** The finite values of a list. *)
Definition finite_values (l : list float) : list Q :=
  flat_map (fun x => match x with Fin q => [q] | _ => [] end) l.

(** [accel.resample("W").mean()], the frame [plot_weekly_acceleration]
    draws. *)
Definition resample_W_mean (df : DataFrame) : DataFrame :=
  let bins := week_bins (index df) in
  mkframe bins
    (map (fun c =>
            (fst c,
             map (fun w =>
                    (w, nanmean (map snd (filter (fun p => in_bin w (fst p))
                                                 (snd c)))))
                 bins))
         (columns df)).

Definition plot_weekly_acceleration (accel : DataFrame) : DataFrame :=
  resample_W_mean accel.

(** *** Sample frames

    Four days from Sunday 1970-01-11 (day 10) on; the alternative takes no
    time on day 11 and the baseline has no row on day 12. *)
Definition alt : string := "Без дублей обменов".

Definition sample_frame : frame :=
  [ mkrow 10 base_col 100; mkrow 10 alt 50;
    mkrow 11 base_col 100; mkrow 11 alt 0;
    mkrow 12 alt 5;
    mkrow 13 base_col 5;   mkrow 13 alt (3 # 2) ].

End Speed.

(** * generate_extended_word_report.py *)

Module Report.

(** A row of the frame [read_data] returns.  Nothing is dropped on
    loading, so the date, the scenario and the minutes of a row may each
    be missing (NaT, NaN).  The minutes are a float64 column, in exact
    arithmetic; a store of whole minutes without an empty cell is read as
    int64, whose sums are the same as long as they fit 64 bits. *)
Record row : Type :=
  mkrow { date : option Z; scenario : option string; minutes : option Q }.

Definition frame : Type := list row.

(** [==] on the cells of the scenario column: a missing cell equals
    nothing, not even another missing cell. *)
Definition label_eq (a b : option string) : bool :=
  match a, b with
  | Some x, Some y => String.eqb x y
  | _, _ => false
  end.

(** Equality of labels as [unique] and dictionary keys have it: the
    missing label is one label. *)
Definition same_label (a b : option string) : bool :=
  match a, b with
  | Some x, Some y => String.eqb x y
  | None, None => true
  | _, _ => false
  end.

Definition scenarios (df : frame) : list (option string) :=
  unique same_label (map scenario df).

(** [df[df['scenario'] == s]] *)
Definition select (df : frame) (s : option string) : frame :=
  filter (fun r => label_eq (scenario r) s) df.

(** [Series.mean()] skips NaN. *)
Definition series_mean (df : frame) : float :=
  mean (observations (map minutes df)).

(** [sort_values('date')] orders the rows by their dates, missing dates
    last. *)
Definition by_date (a b : row) : Prop := na_last_le (date a) (date b).



Definition base : string := "Типовой".

Definition improvement (base_mean mean_val : float) : float :=
  fmul (fdiv (fsub base_mean mean_val) base_mean) (Fin 100).

(** [scenario != base] *)
Definition not_base (s : option string) : bool :=
  negb (label_eq s (Some base)).

(** The bars of [chart_19_improvement_bars]: the scenarios and their
    improvements, as handed to [ax.bar]. *)
Definition chart_19_improvement_bars (df : frame)
  : list (option string * float) :=
  let base_mean := series_mean (select df (Some base)) in
  flat_map (fun s =>
              if not_base s then
                [(s, improvement base_mean (series_mean (select df s)))]
              else [])
           (scenarios df).

(** An entry of the [stats] dictionary.  The keys 'improvement_pct' and
    'total_time_saved' exist only where [calculate_statistics] has set
    them.  The median, deviation, extremes and quartiles of an entry do not
    enter the improvement figures and are left out. *)
Record stat : Type :=
  mkstat { count : nat;
           mean_ : float;
           total : Q;
           improvement_pct : option float;
           total_time_saved : option float }.

Definition base_stat (df : frame) (s : option string) : stat :=
  let data := select df s in
  mkstat (List.length data) (series_mean data)
         (Qred (Qsum (observations (map minutes data)))) None None.

Definition lookup (stats : list (option string * stat)) (s : option string)
  : option stat :=
  option_map snd (find (fun p => same_label (fst p) s) stats).

Definition calculate_statistics (df : frame) : list (option string * stat) :=
  let stats := map (fun s => (s, base_stat df s)) (scenarios df) in
  match lookup stats (Some base) with
  | Some b =>
      let base_mean := mean_ b in
      map (fun p =>
             if not_base (fst p) then
               let st := snd p in
               (fst p,
                mkstat (count st) (mean_ st) (total st)
                  (Some (improvement base_mean (mean_ st)))
                  (Some (fmul (fsub base_mean (mean_ st))
                              (Fin (inject_Z (Z.of_nat (count st)))))))
             else p)
          stats
  | None => stats
  end.

(** The last cell of a row of the statistics table:
    [f"{stat.get('improvement_pct', 0):.1f}%"], with the [:.1f] format a
    parameter. *)
Definition improvement_cell (format_1f : float -> string) (st : stat) : string :=
  (format_1f (match improvement_pct st with
              | Some v => v
              | None => Fin 0
              end) ++ "%")%string.

(** The text of a cell is set from a string; the missing label is a float,
    which the setter cannot iterate over. *)
Inductive error : Type :=
| TypeError.

(** The first and last cells of the rows of the table, in the order of
    [stats.items()].  The loop stops at the first entry whose key is the
    missing label: [row.cells[0].text = scenario] raises there. *)
Fixpoint statistics_table (format_1f : float -> string)
         (stats : list (option string * stat))
  : result error (list (string * string)) :=
  match stats with
  | [] => Ok []
  | (Some s, st) :: t =>
      match statistics_table format_1f t with
      | Ok rows => Ok ((s, improvement_cell format_1f st) :: rows)
      | Raise e => Raise e
      end
  | (None, _) :: _ => Raise TypeError
  end.

(** The labels that are present. *)
Definition present (l : list (option string)) : list string :=
  flat_map (fun o => match o with Some s => [s] | None => [] end) l.

(** *** Cumulative charts and the summary *)

Definition to_float (o : option Q) : float :=
  match o with Some q => Fin q | None => NaN end.

(** [Series.cumsum()]: a NaN stays NaN and is skipped by the running
    sum. *)
Fixpoint cumsum_from (acc : float) (l : list float) : list float :=
  match l with
  | [] => []
  | x :: t =>
      if isna x then NaN :: cumsum_from acc t
      else fadd acc x :: cumsum_from (fadd acc x) t
  end.

Definition cumsum (l : list float) : list float := cumsum_from (Fin 0) l.

(** The lines of [chart_05_cumulative]. *)
Definition chart_05_cumulative (sort : sorter by_date) (df : frame)
  : list (option string * list (option Z * float)) :=
  map (fun s =>
         let data := sort (select df s) in
         (s, combine (map date data)
               (cumsum (map (fun r => to_float (minutes r)) data))))
      (scenarios df).

(** The lines of [chart_20_time_saved]. *)
Definition chart_20_time_saved (sort : sorter by_date) (df : frame)
  : list (option string * list (option Z * float)) :=
  let base_mean := series_mean (select df (Some base)) in
  flat_map (fun s =>
              if not_base s then
                let data := sort (select df s) in
                let saved :=
                  map (fun r => fsub base_mean (to_float (minutes r))) data in
                [(s, combine (map date data) (cumsum saved))]
              else [])
           (scenarios df).

(** The key results of the summary in [create_word_document]: for every
    entry that has an improvement, the scenario, its mean, the improvement
    and the time saved. *)
Definition key_results (stats : list (option string * stat))
  : list (option string * float * float * option float) :=
  match lookup stats (Some base) with
  | Some _ =>
      flat_map (fun p =>
                  match improvement_pct (snd p) with
                  | Some i => [(fst p, mean_ (snd p), i,
                                total_time_saved (snd p))]
                  | None => []
                  end) stats
  | None => []
  end.

(** *** The band of chart 18 *)

(** [rolling(...).min()] and [.max()] over the observations of a
    window. *)
Definition window_min (l : list Q) : float :=
  match l with
  | [] => NaN
  | x :: t => Fin (fold_right Qmin x t)
  end.

Definition window_max (l : list Q) : float :=
  match l with
  | [] => NaN
  | x :: t => Fin (fold_right Qmax x t)
  end.

(** What [chart_18_min_max_range] draws for a scenario: the lower and
    upper edge of the filled band and the line of the mean. *)
Record band : Type :=
  mkband { rolling_min : list (option Z * float);
           rolling_max : list (option Z * float);
           rolling_mean : list (option Z * float) }.

Definition chart_18_min_max_range (sort : sorter by_date) (df : frame)
  : list (option string * band) :=
  map (fun s =>
         let data := sort (select df s) in
         let idx := map date data in
         let xs := map minutes data in
         (s, mkband (combine idx (rolling 7 3 window_min xs))
                    (combine idx (rolling 7 3 window_max xs))
                    (combine idx (rolling 7 3 mean xs))))
      (scenarios df).

(** The stable sort by date, for the examples. *)
Definition stable_by_date : sorter by_date :=
  stable_sorter (fun a b => na_last_cmp (date a) (date b)) by_date
    (fun x y => na_last_cmp_le (date x) (date y))
    (fun x y => na_last_cmp_gt (date x) (date y))
    (fun x y z => na_last_le_trans (date x) (date y) (date z)).

(** The [:.1f] text of a value, for an exact rational rounded half to
    even to one decimal. *)
Definition round_half_even (q : Q) : Z :=
  let n := Qnum q in
  let d := Z.pos (Qden q) in
  let f := n / d in
  let r := n mod d in
  match 2 * r ?= d with
  | Lt => f
  | Gt => f + 1
  | Eq => if Z.even f then f else f + 1
  end.

Definition format_1f_exact (x : float) : string :=
  match x with
  | Fin q =>
      let t := round_half_even (Qabs q * 10) in
      let sign := if Qnum q <? 0 then "-" else "" in
      (sign
       ++ NilZero.string_of_uint (N.to_uint (Z.to_N (t / 10))) ++ "."
       ++ NilZero.string_of_uint (N.to_uint (Z.to_N (t mod 10))))%string
  | PInf => "inf"
  | NInf => "-inf"
  | NaN => "nan"
  end.

(** *** Sample frames *)
Definition alt : string := "Без дублей обменов".

Definition sample (d : Z) (s : string) (m : option Q) : row :=
  mkrow (Some d) (Some s) m.

Definition with_baseline : frame :=
  [ sample 10 base (Some 100%Q); sample 11 base (Some 80%Q);
    sample 12 alt (Some 45%Q);   sample 13 alt None;
    sample 14 alt (Some 45%Q) ].

Definition without_baseline : frame :=
  [ sample 12 alt (Some 45%Q); sample 14 alt (Some 45%Q) ].

(** No minutes missing. *)
Definition complete : frame :=
  [ sample 10 base (Some 100%Q); sample 11 base (Some 80%Q);
    sample 12 alt (Some 45%Q);   sample 14 alt (Some 30%Q) ].

(** A row without a scenario and a row without a date. *)
Definition with_gaps : frame :=
  [ sample 10 base (Some 100%Q); mkrow (Some 11) None (Some 70%Q);
    mkrow None (Some alt) (Some 40%Q); sample 12 alt (Some 60%Q);
    sample 13 alt (Some 20%Q) ].

End Report.

(** * Properties *)

(** ** Order on dates *)

Import Extract.

Lemma date_compare_Lt (a b : date) : date_compare a b = Lt <-> date_lt a b.
Proof.
  unfold date_compare, date_lt.
  destruct (Z.compare_spec (year a) (year b));
    destruct (Z.compare_spec (month a) (month b));
    destruct (Z.compare_spec (day a) (day b));
    split; intros; try discriminate; try reflexivity; lia.
Qed.

Lemma date_compare_Eq (a b : date) : date_compare a b = Eq <-> a = b.
Proof.
  unfold date_compare. destruct a as [ya ma da], b as [yb mb db]; simpl.
  destruct (Z.compare_spec ya yb);
    destruct (Z.compare_spec ma mb);
    destruct (Z.compare_spec da db);
    split; intros E; try discriminate; try reflexivity;
    try (subst; reflexivity); injection E; lia.
Qed.

Lemma date_compare_Gt (a b : date) : date_compare a b = Gt <-> date_lt b a.
Proof.
  unfold date_compare, date_lt.
  destruct (Z.compare_spec (year a) (year b));
    destruct (Z.compare_spec (month a) (month b));
    destruct (Z.compare_spec (day a) (day b));
    split; intros; try discriminate; try reflexivity; lia.
Qed.

Lemma date_leb_le (a b : date) : date_leb a b = true <-> date_le a b.
Proof.
  unfold date_leb, date_le.
  destruct (date_compare a b) eqn:E.
  - apply date_compare_Eq in E. tauto.
  - apply date_compare_Lt in E. tauto.
  - apply date_compare_Gt in E. split; [discriminate|].
    intros [L | ->]; unfold date_lt in *; lia.
Qed.

Lemma date_leb_false (a b : date) : date_leb a b = false <-> date_lt b a.
Proof.
  unfold date_leb.
  destruct (date_compare a b) eqn:E.
  - apply date_compare_Eq in E. subst. split; [discriminate|].
    unfold date_lt; lia.
  - apply date_compare_Lt in E. split; [discriminate|].
    unfold date_lt in *; lia.
  - apply date_compare_Gt in E. tauto.
Qed.

Lemma date_eqb_eq (a b : date) : date_eqb a b = true <-> a = b.
Proof.
  unfold date_eqb. rewrite <- date_compare_Eq.
  destruct (date_compare a b); split; congruence.
Qed.

Lemma labels_distinct :
  Tipovoy <> BezDubley /\ Tipovoy <> BezDubleyParallel
  /\ BezDubley <> BezDubleyParallel.
Proof. repeat split; discriminate. Qed.

(** ** Scenario classification *)

Lemma assign_scenario_cases (d : date) :
  (date_le d bound1 /\ assign_scenario d = Tipovoy)
  \/ (date_lt bound1 d /\ date_le d bound2 /\ assign_scenario d = BezDubley)
  \/ (date_lt bound2 d /\ assign_scenario d = BezDubleyParallel).
Proof.
  unfold assign_scenario. fold bound1 bound2.
  destruct (date_leb d bound1) eqn:E1; [| destruct (date_leb d bound2) eqn:E2].
  - apply date_leb_le in E1. auto.
  - apply date_leb_false in E1. apply date_leb_le in E2. auto.
  - apply date_leb_false in E2. auto.
Qed.

(** C5.  [assign_scenario] is a total function of the date: every date
    gets one of the three labels, dates that compare equal get the same
    label, and the label is decided by the three ranges that the ordered
    inclusive upper bounds 2025-10-08 and 2025-10-16 cut out of the date
    axis: up to the first bound, after it and up to the second, after the
    second.  Exactly one of the ranges holds the date (they do not overlap
    and leave no gap), and the last one has no upper end. *)
Theorem assign_scenario_partition (d : date) :
  (assign_scenario d = Tipovoy \/ assign_scenario d = BezDubley
   \/ assign_scenario d = BezDubleyParallel)
  /\ (forall d', date_compare d d' = Eq ->
                 assign_scenario d = assign_scenario d')
  /\ date_lt bound1 bound2
  /\ (assign_scenario d = Tipovoy <-> date_le d bound1)
  /\ (assign_scenario d = BezDubley <-> date_lt bound1 d /\ date_le d bound2)
  /\ (assign_scenario d = BezDubleyParallel <-> date_lt bound2 d)
  /\ (date_le d bound1 /\ ~ (date_lt bound1 d /\ date_le d bound2)
        /\ ~ date_lt bound2 d
      \/ ~ date_le d bound1 /\ (date_lt bound1 d /\ date_le d bound2)
        /\ ~ date_lt bound2 d
      \/ ~ date_le d bound1 /\ ~ (date_lt bound1 d /\ date_le d bound2)
        /\ date_lt bound2 d).
Proof.
  destruct labels_distinct as (D12 & D13 & D23).
  assert (B : date_lt bound1 bound2) by (unfold date_lt; simpl; lia).
  assert (T1 : date_le d bound1 -> date_lt bound1 d -> False).
  { intros [L | ->] G; unfold date_lt in *; simpl in *; lia. }
  assert (T2 : date_le d bound2 -> date_lt bound2 d -> False).
  { intros [L | ->] G; unfold date_lt in *; simpl in *; lia. }
  assert (T : date_le d bound1 -> date_lt bound2 d -> False).
  { intros [L | ->] G; unfold date_lt in *; simpl in *; lia. }
  assert (Det : forall d', date_compare d d' = Eq ->
                           assign_scenario d = assign_scenario d').
  { intros d' E. apply date_compare_Eq in E. now subst d'. }
  split; [| split; [exact Det | split; [exact B |]]].
  - destruct (assign_scenario_cases d) as [(_ & E) | [(_ & _ & E) | (_ & E)]];
      auto.
  - destruct (assign_scenario_cases d) as [(L & E) | [(G & L & E) | (G & E)]];
      rewrite E; intuition congruence.
Qed.

(** ** Sorted lists without duplicates *)

Section SortUniqFacts.
Context {A : Type} (cmp : A -> A -> comparison).
Hypothesis cmp_eq : forall x y, cmp x y = Eq -> x = y.

Lemma In_insert_uniq (x : A) (l : list A) (z : A) :
  In z (insert_uniq cmp x l) <-> z = x \/ In z l.
Proof.
  induction l as [| y t IH]; simpl.
  - intuition.
  - destruct (cmp x y) eqn:E; simpl.
    + apply cmp_eq in E. subst y. intuition.
    + intuition.
    + rewrite IH. intuition.
Qed.

Lemma In_sort_uniq (l : list A) (z : A) :
  In z (sort_uniq cmp l) <-> In z l.
Proof.
  induction l as [| x t IH]; simpl; [tauto|].
  rewrite In_insert_uniq, IH. intuition.
Qed.

Hypothesis cmp_refl : forall x, cmp x x = Eq.
Hypothesis cmp_gt : forall x y, cmp x y = Gt -> cmp y x = Lt.
Hypothesis cmp_trans :
  forall x y z, cmp x y = Lt -> cmp y z = Lt -> cmp x z = Lt.

Let lt (a b : A) : Prop := cmp a b = Lt.

Lemma insert_uniq_sorted (x : A) (l : list A) :
  StronglySorted lt l -> StronglySorted lt (insert_uniq cmp x l).
Proof.
  induction 1 as [| y t S IH F]; simpl.
  - repeat constructor.
  - destruct (cmp x y) eqn:E.
    + constructor; assumption.
    + constructor; [constructor; assumption|].
      constructor; [exact E|].
      rewrite Forall_forall in *. intros z Hz.
      eapply cmp_trans; [exact E | apply F, Hz].
    + constructor; [exact IH|].
      rewrite Forall_forall in *. intros z Hz.
      apply In_insert_uniq in Hz. destruct Hz as [-> | Hz].
      * apply cmp_gt, E.
      * apply F, Hz.
Qed.

Lemma sort_uniq_sorted (l : list A) : StronglySorted lt (sort_uniq cmp l).
Proof.
  induction l as [| x t IH]; simpl; [constructor|].
  apply insert_uniq_sorted, IH.
Qed.

Lemma NoDup_sort_uniq (l : list A) : NoDup (sort_uniq cmp l).
Proof.
  generalize (sort_uniq_sorted l).
  induction 1 as [| y t S IH F]; constructor; [| exact IH].
  intros Hy. rewrite Forall_forall in F. specialize (F y Hy).
  unfold lt in F. rewrite cmp_refl in F. discriminate.
Qed.
End SortUniqFacts.

Lemma date_compare_refl (a : date) : date_compare a a = Eq.
Proof. now apply date_compare_Eq. Qed.

Lemma date_compare_gt_lt (a b : date) :
  date_compare a b = Gt -> date_compare b a = Lt.
Proof. rewrite date_compare_Gt, date_compare_Lt. trivial. Qed.

Lemma date_compare_trans (a b c : date) :
  date_compare a b = Lt -> date_compare b c = Lt -> date_compare a c = Lt.
Proof. rewrite !date_compare_Lt. unfold date_lt. lia. Qed.

(** ** The extractor *)

Section ExtractorFacts.
Variable to_datetime : string -> option datetime.
Variable to_numeric : string -> option number.
Variable format_minutes : list number -> list string.

Local Abbreviation parsed_rows := (Extract.parsed_rows to_datetime to_numeric).
Local Abbreviation end_date := (Extract.end_date to_datetime).
Local Abbreviation duration := (Extract.duration to_numeric).
Local Abbreviation survives := (Extract.survives to_datetime to_numeric).
Local Abbreviation reaches_to_numeric :=
  (Extract.reaches_to_numeric to_datetime).
Local Abbreviation int_column := (Extract.int_column to_datetime to_numeric).
Local Abbreviation day_durations :=
  (Extract.day_durations to_datetime to_numeric).
Local Abbreviation daily_totals := (Extract.daily_totals to_datetime to_numeric).
Local Abbreviation extract := (Extract.extract to_datetime to_numeric).
Local Abbreviation to_csv := (Extract.to_csv format_minutes).
Local Abbreviation main :=
  (Extract.main to_datetime to_numeric format_minutes).

(** The frame of [extract] at the point where [pd.to_numeric] is called:
    the rows left by the first three filters, with their end timestamps. *)
Local Abbreviation dated rs :=
  (filter (fun p : list cell * option datetime => is_some (snd p))
     (map (fun r => (r, to_datetime_cell to_datetime (datetime_end r)))
        (filter (fun r => negb (str_contains header_marker
                                             (astype_str (minutes_cell r))))
           (filter (fun r => is_some (minutes_cell r)) rs)))).

Local Abbreviation parse p :=
  (to_numeric (remove_spaces (astype_str (minutes_cell (fst p))))).

Lemma header_of_nan : str_contains header_marker "nan" = false.
Proof. vm_compute. reflexivity. Qed.

Lemma dated_cons (r : list cell) (rs : list (list cell)) :
  dated (r :: rs)
  = (if reaches_to_numeric r
     then [(r, to_datetime_cell to_datetime (datetime_end r))] else [])
    ++ dated rs.
Proof.
  unfold Extract.reaches_to_numeric, is_header, Extract.end_date.
  cbn [filter]. destruct (minutes_cell r) as [m |] eqn:Em;
    cbn [is_some andb filter]; [| reflexivity].
  rewrite Em. cbn [astype_str].
  destruct (str_contains header_marker m); cbn [negb andb map filter];
    [reflexivity |].
  cbn [snd].
  destruct (to_datetime_cell to_datetime (datetime_end r));
    cbn [option_map is_some]; reflexivity.
Qed.

Lemma int64_column_dated (rs : list (list cell)) :
  int64_column (map (fun p => parse p) (dated rs)) = int_column rs.
Proof.
  unfold Extract.int_column.
  induction rs as [| r rs IH]; [reflexivity |].
  rewrite dated_cons. cbn [filter].
  destruct (reaches_to_numeric r) eqn:E; cbn [app]; [| exact IH].
  cbn [map forallb fst]. unfold int64_column in *. cbn [forallb].
  rewrite IH. f_equal.
  unfold Extract.reaches_to_numeric in E.
  destruct (minutes_cell r) as [m |]; [| discriminate]. reflexivity.
Qed.

Lemma notna_as_column (b : bool) (n : number) :
  notna_number (Some (as_column b n)) = notna_number (Some n).
Proof. destruct b, n as [z | x]; reflexivity. Qed.

Lemma combine_maps {A B C : Type} (f : A -> B) (g : A -> C) (l : list A) :
  combine (map f l) (map g l) = map (fun x => (f x, g x)) l.
Proof.
  induction l as [| x l IH]; [reflexivity |].
  cbn [map combine]. now rewrite IH.
Qed.

Lemma parsed_rows_with (b : bool) (rs : list (list cell)) :
  flat_map (fun p : option datetime * option number =>
              match p with
              | (Some dt, Some n) => [(dt_date dt, n)]
              | _ => []
              end)
    (filter (fun p => notna_number (snd p))
       (combine (map snd (dated rs))
          (map (option_map (as_column b))
               (map (fun p => parse p) (dated rs)))))
  = map (fun p => (fst p, as_column b (snd p)))
        (flat_map (fun r => match survives r with
                            | Some p => [p]
                            | None => []
                            end) rs).
Proof.
  rewrite map_map, combine_maps.
  induction rs as [| r rs IH]; [reflexivity |].
  rewrite dated_cons, map_app, filter_app, flat_map_app.
  cbn [flat_map]. rewrite map_app, <- IH. clear IH. f_equal.
  unfold Extract.survives, Extract.reaches_to_numeric, Extract.duration,
    is_header, Extract.end_date.
  destruct (minutes_cell r) as [m |] eqn:Em; cbn [is_some andb app];
    [| cbn [astype_str]; rewrite header_of_nan; cbn [app];
       destruct (option_map dt_date _); reflexivity].
  cbn [astype_str].
  destruct (str_contains header_marker m); cbn [negb andb app map];
    [reflexivity |].
  destruct (to_datetime_cell to_datetime (datetime_end r)) as [dt |];
    cbn [option_map is_some app map]; [| reflexivity].
  cbn [map fst snd]. rewrite Em. cbn [astype_str].
  destruct (to_numeric (remove_spaces m)) as [n |]; cbn [option_map filter snd].
  - rewrite notna_as_column.
    destruct (notna_number (Some n)); cbn [flat_map app map fst snd];
      reflexivity.
  - reflexivity.
Qed.

Lemma parsed_rows_survives (rs : list (list cell)) :
  parsed_rows rs
  = map (fun p => (fst p, as_column (int_column rs) (snd p)))
        (flat_map (fun r => match survives r with
                            | Some p => [p]
                            | None => []
                            end) rs).
Proof.
  rewrite <- parsed_rows_with. unfold Extract.parsed_rows. cbv zeta.
  unfold to_numeric_column. rewrite int64_column_dated.
  destruct (int_column rs); [| reflexivity].
  do 3 f_equal. symmetry.
  rewrite <- (map_id (map _ (dated rs))) at 2.
  apply map_ext. intros [n |]; reflexivity.
Qed.

Lemma parsed_rows_In (rs : list (list cell)) (d : date) (n : number) :
  In (d, n) (parsed_rows rs)
  <-> exists r q, In r rs /\ survives r = Some (d, q)
                  /\ n = as_column (int_column rs) q.
Proof.
  rewrite parsed_rows_survives, in_map_iff. split.
  - intros ([d' q] & E & H). cbn [fst snd] in E. injection E as -> <-.
    apply in_flat_map in H. destruct H as (r & Hr & H).
    destruct (survives r) as [p |] eqn:Es; [| destruct H].
    destruct H as [-> | []]. exists r, q. auto.
  - intros (r & q & Hr & Es & ->). exists (d, q). split; [reflexivity |].
    apply in_flat_map. exists r. split; [exact Hr |]. rewrite Es. now left.
Qed.

Lemma parsed_rows_days (rs : list (list cell)) (d : date) :
  In d (map fst (parsed_rows rs))
  <-> exists r q, In r rs /\ survives r = Some (d, q).
Proof.
  rewrite in_map_iff. split.
  - intros ([d' n] & E & H). cbn [fst] in E. subst d'.
    apply parsed_rows_In in H. destruct H as (r & q & Hr & Es & _). eauto.
  - intros (r & q & Hr & Es).
    exists (d, as_column (int_column rs) q). split; [reflexivity |].
    apply parsed_rows_In. eauto.
Qed.

(** The values of day [d] in the column are the parsed durations of the
    day, each as the column holds it. *)
Lemma day_durations_spec (d : date) (rs : list (list cell)) :
  map snd (filter (fun p => date_eqb (fst p) d) (parsed_rows rs))
  = map (as_column (int_column rs)) (day_durations d rs).
Proof.
  rewrite parsed_rows_survives. generalize (int_column rs) as b. intros b.
  unfold Extract.day_durations.
  induction rs as [| r rs IH]; [reflexivity |].
  cbn [flat_map]. rewrite !map_app, filter_app, map_app, IH. f_equal.
  destruct (survives r) as [[d' q] |]; [| reflexivity].
  cbn [map filter fst snd]. destruct (date_eqb d' d); reflexivity.
Qed.

(** A surviving duration of an integer column is an integer. *)
Lemma int_column_survives (rs : list (list cell)) (r : list cell)
      (d : date) (q : number) :
  int_column rs = true -> In r rs -> survives r = Some (d, q) ->
  is_int q = true.
Proof.
  unfold Extract.int_column. rewrite forallb_forall. intros H Hr Es.
  unfold Extract.survives in Es.
  destruct (is_header r) eqn:Eh; [discriminate |].
  destruct (end_date r) as [d' |] eqn:Ed; [| discriminate].
  destruct (duration r) as [q' |] eqn:Eq; [| discriminate].
  injection Es as -> ->.
  assert (K : reaches_to_numeric r = true).
  { unfold Extract.reaches_to_numeric. rewrite Eh, Ed.
    unfold Extract.duration in Eq.
    destruct (minutes_cell r); [reflexivity | discriminate]. }
  specialize (H r (proj2 (filter_In _ _ _) (conj Hr K))).
  unfold Extract.duration in Eq.
  destruct (minutes_cell r) as [m |]; [| discriminate].
  cbv zeta in Eq.
  destruct (to_numeric (remove_spaces m)) as [[z | x] |]; try discriminate.
  destruct (notna_number (Some (Int z))); [| discriminate].
  injection Eq as <-. reflexivity.
Qed.

Lemma day_durations_In (d : date) (rs : list (list cell)) (q : number) :
  In q (day_durations d rs)
  <-> exists r, In r rs /\ survives r = Some (d, q).
Proof.
  unfold Extract.day_durations. rewrite in_flat_map. split.
  - intros (r & Hr & H). exists r. split; [exact Hr |].
    destruct (survives r) as [[d' q'] |]; [| destruct H].
    destruct (date_eqb d' d) eqn:E; [| destruct H].
    apply date_eqb_eq in E. destruct H as [-> | []]. now subst.
  - intros (r & Hr & Es). exists r. split; [exact Hr |]. rewrite Es.
    rewrite (proj2 (date_eqb_eq d d) eq_refl). now left.
Qed.

(** The type of the column as [groupby] finds it. *)
Lemma parsed_rows_int64 (rs : list (list cell)) :
  parsed_rows rs <> [] ->
  forallb is_int (map snd (parsed_rows rs)) = int_column rs.
Proof.
  intros N. destruct (int_column rs) eqn:E.
  - apply forallb_forall. intros n Hn. apply in_map_iff in Hn.
    destruct Hn as ([d n'] & <- & H). apply parsed_rows_In in H.
    destruct H as (r & q & Hr & Es & ->). rewrite E. cbn [as_column snd].
    eapply int_column_survives; eassumption.
  - destruct (parsed_rows rs) as [| [d n] l] eqn:Ep; [now elim N |].
    assert (H : In (d, n) (parsed_rows rs)) by (rewrite Ep; now left).
    apply parsed_rows_In in H. destruct H as (r & q & _ & _ & ->).
    rewrite E. reflexivity.
Qed.

Lemma sum_numbers_as_column (b : bool) (l : list number) :
  (b = true -> forallb is_int l = true) ->
  sum_numbers b (map (as_column b) l) = sum_numbers b l.
Proof.
  intros H. destruct b; cbn [sum_numbers as_column].
  - now rewrite map_id.
  - rewrite map_map. f_equal.
Qed.

Lemma daily_totals_keys (rs : list (list cell)) :
  map fst (daily_totals rs)
  = sort_uniq date_compare (map fst (parsed_rows rs)).
Proof.
  unfold Extract.daily_totals, groupby_sum. cbv zeta.
  rewrite map_map. cbn [fst]. apply map_id.
Qed.

Lemma daily_totals_In (rs : list (list cell)) (d : date) (m : number) :
  In (d, m) (daily_totals rs) ->
  m = sum_numbers (int_column rs) (day_durations d rs).
Proof.
  unfold Extract.daily_totals, groupby_sum. cbv zeta.
  rewrite in_map_iff. intros (d' & E & Hd).
  injection E as -> <-.
  assert (N : parsed_rows rs <> []).
  { intros K. rewrite K in Hd. destruct Hd. }
  rewrite (parsed_rows_int64 rs N), day_durations_spec.
  apply sum_numbers_as_column. intros E.
  apply forallb_forall. intros q Hq. apply day_durations_In in Hq.
  destruct Hq as (r & Hr & Es). eapply int_column_survives; eassumption.
Qed.

Lemma daily_totals_days (rs : list (list cell)) (d : date) :
  In d (map fst (daily_totals rs))
  <-> exists r q, In r rs /\ survives r = Some (d, q).
Proof.
  rewrite daily_totals_keys.
  rewrite (In_sort_uniq date_compare
             (fun x y E => proj1 (date_compare_Eq x y) E)).
  apply parsed_rows_days.
Qed.

Lemma daily_totals_NoDup (rs : list (list cell)) :
  NoDup (map fst (daily_totals rs)).
Proof.
  rewrite daily_totals_keys.
  apply NoDup_sort_uniq.
  - intros x y. apply date_compare_Eq.
  - apply date_compare_refl.
  - apply date_compare_gt_lt.
  - apply date_compare_trans.
Qed.

Lemma extract_table (tables : list table) (t : table) :
  nth_error tables 3 = Some t -> ncols t = 7%nat ->
  extract (Some tables) = Ok (map daily_row (daily_totals (rows t))).
Proof.
  intros Ht Hc. unfold Extract.extract.
  destruct tables as [| t0 ts]; [discriminate |].
  rewrite Ht, Hc. reflexivity.
Qed.

Lemma wrap64_small (z : Z) : - 2 ^ 63 <= z < 2 ^ 63 -> wrap64 z = z.
Proof. intros H. unfold wrap64. rewrite Z.mod_small; lia. Qed.

Lemma fsum_fin (qs : list Q) :
  exists q, fsum (map Fin qs) = Fin q /\ (q == Qsum qs)%Q.
Proof.
  induction qs as [| a qs (q & E & Hq)]; cbn [map fsum fold_right].
  - exists 0%Q. split; reflexivity.
  - fold (fsum (map Fin qs)). rewrite E. cbn [fadd]. unfold fin.
    exists (Qred (a + q)). split; [reflexivity |].
    cbn [Qsum fold_right]. fold (Qsum qs). now rewrite Qred_correct, Hq.
Qed.

Lemma fsum_nonneg (l : list float) :
  (forall x, In x l -> nonneg (Flt x)) -> nonneg (Flt (fsum l)).
Proof.
  induction l as [| x l IH]; intros H; cbn [fsum fold_right].
  - cbn. apply Qle_refl.
  - fold (fsum l).
    assert (Hx : nonneg (Flt x)) by (apply H; now left).
    assert (Hl : nonneg (Flt (fsum l))) by (apply IH; intros y Hy; apply H; now right).
    destruct x as [a | | |], (fsum l) as [b | | |]; cbn in Hx, Hl; try contradiction;
      cbn [fadd nonneg]; try exact I.
    unfold fin. cbn [nonneg]. rewrite Qred_correct.
    setoid_replace 0%Q with (0 + 0)%Q by reflexivity.
    now apply Qplus_le_compat.
Qed.

Lemma Zsum_nonneg (l : list Z) : (forall z, In z l -> 0 <= z) -> 0 <= Zsum l.
Proof.
  induction l as [| z l IH]; intros H; cbn [Zsum fold_right]; [lia |].
  fold (Zsum l). specialize (H z (or_introl eq_refl)) as Hz.
  assert (0 <= Zsum l) by (apply IH; intros y Hy; apply H; now right). lia.
Qed.

Lemma day_durations_int (d : date) (rs : list (list cell)) :
  int_column rs = true -> forallb is_int (day_durations d rs) = true.
Proof.
  intros E. apply forallb_forall. intros q Hq. apply day_durations_In in Hq.
  destruct Hq as (r & Hr & Es). eapply int_column_survives; eassumption.
Qed.

(** C7, as the code has it.  When the document has its fourth table with
    seven columns, [extract] returns the rows built from a list of (day,
    minutes) pairs such that: a raw row whose end timestamp or duration
    does not parse is not among the surviving rows (it is dropped, it does
    not count as zero); the days are pairwise distinct; a day is listed
    exactly when some surviving row ends on it; and the minutes of a day
    are the sum of the parsed durations of the surviving rows of that day,
    taken in the type of the column.  In an integer column that is the
    64-bit sum, which wraps around, and it is the exact sum whenever the
    exact sum fits 64 bits; in a float column it is the float sum, the sum
    of the values when all of them are finite. *)
Theorem extract_sums_surviving_rows_per_day (tables : list table) (t : table) :
  nth_error tables 3 = Some t -> ncols t = 7%nat ->
  exists daily : list (date * number),
    extract (Some tables) = Ok (map daily_row daily)
    /\ (forall r, In r (rows t) ->
                  end_date r = None \/ duration r = None ->
                  survives r = None)
    /\ NoDup (map fst daily)
    /\ (forall d, In d (map fst daily)
                  <-> exists r q, In r (rows t) /\ survives r = Some (d, q))
    /\ (forall d m, In (d, m) daily ->
          let ds := day_durations d (rows t) in
          ds <> []
          /\ m = sum_numbers (int_column (rows t)) ds
          /\ (int_column (rows t) = true ->
              forallb is_int ds = true
              /\ m = Int (wrap64 (Zsum (map int_value ds)))
              /\ (- 2 ^ 63 <= Zsum (map int_value ds) < 2 ^ 63 ->
                  m = Int (Zsum (map int_value ds))))
          /\ (int_column (rows t) = false ->
              m = Flt (fsum (map astype_float ds))
              /\ forall qs, map astype_float ds = map Fin qs ->
                            exists q, m = Flt (Fin q) /\ (q == Qsum qs)%Q)).
Proof.
  intros Ht Hc. exists (daily_totals (rows t)).
  split; [apply extract_table; assumption |].
  split.
  { intros r _ [E | E]; unfold Extract.survives; rewrite E;
      destruct (is_header r); try reflexivity.
    destruct (end_date r); reflexivity. }
  split; [apply daily_totals_NoDup |].
  split; [apply daily_totals_days |].
  intros d m H ds.
  assert (Hd : In d (map fst (daily_totals (rows t)))).
  { apply in_map_iff. exists (d, m). auto. }
  apply daily_totals_days in Hd. destruct Hd as (r & q & Hr & Es).
  apply daily_totals_In in H.
  split.
  { intros K. assert (Hq : In q ds) by (apply day_durations_In; eauto).
    rewrite K in Hq. destruct Hq. }
  split; [exact H |]. split.
  - intros E. rewrite E in H. cbn [sum_numbers] in H.
    split; [now apply day_durations_int |]. split; [exact H |].
    intros B. now rewrite H, wrap64_small.
  - intros E. rewrite E in H. cbn [sum_numbers] in H. split; [exact H |].
    intros qs Eq. fold ds in H. rewrite Eq in H.
    destruct (fsum_fin qs) as (x & Ex & Hx). exists x.
    rewrite H, Ex. auto.
Qed.

(** C9, as the code has it.  The extractor does not look at the sign of a
    duration.  It returns one row for every day on which a surviving row
    ends; the minutes of the row are the sum of the parsed durations of
    the surviving rows of that day in the type of the column, and they are
    not negative whenever none of those durations is and, in an integer
    column, their sum stays below 2^63. *)
Theorem extract_minutes_nonnegative (tables : list table) (t : table) :
  nth_error tables 3 = Some t -> ncols t = 7%nat ->
  exists daily : list (date * number),
    extract (Some tables) = Ok (map daily_row daily)
    /\ (forall d, In d (map fst daily)
                  <-> exists r q, In r (rows t) /\ survives r = Some (d, q))
    /\ forall d m, In (d, m) daily ->
         let ds := day_durations d (rows t) in
         m = sum_numbers (int_column (rows t)) ds
         /\ ((forall n, In n ds -> nonneg n) ->
             (int_column (rows t) = true ->
              Zsum (map int_value ds) < 2 ^ 63) ->
             nonneg m).
Proof.
  intros Ht Hc. exists (daily_totals (rows t)).
  split; [apply extract_table; eassumption |].
  split; [apply daily_totals_days |].
  intros d m H ds.
  apply daily_totals_In in H.
  split; [exact H |]. intros Hpos Hfit. rewrite H.
  destruct (int_column (rows t)) eqn:E; cbn [sum_numbers].
  - assert (P : 0 <= Zsum (map int_value ds)).
    { apply Zsum_nonneg. intros z Hz. apply in_map_iff in Hz.
      destruct Hz as (n & <- & Hn).
      pose proof (day_durations_int d (rows t) E) as K.
      rewrite forallb_forall in K. specialize (K n Hn).
      specialize (Hpos n Hn). destruct n; [exact Hpos | discriminate]. }
    specialize (Hfit eq_refl). unfold ds in *.
    rewrite wrap64_small by lia. exact P.
  - apply fsum_nonneg. intros x Hx. apply in_map_iff in Hx.
    destruct Hx as (n & <- & Hn). specialize (Hpos n Hn).
    destruct n as [z | y]; [| exact Hpos].
    cbn [nonneg] in Hpos. cbn [astype_float nonneg].
    unfold Qle. cbn [Qnum Qden inject_Z]. lia.
Qed.

(** C6, as the code has it.  A missing document makes [extract] raise
    FileNotFoundError, and [main] then leaves the files as they are and
    returns 1.  When no row of the table survives the filters nothing is
    raised: [extract] returns a frame without rows, and [main] writes a
    store that holds the header line only and returns 0. *)
Theorem extract_missing_input_and_no_rows
        (fs : files) (tables : list table) (t : table) :
  (html fs = None ->
   extract (html fs) = Raise FileNotFoundError /\ main fs = (fs, 1))
  /\ (html fs = Some tables ->
      nth_error tables 3 = Some t -> ncols t = 7%nat ->
      (forall r, In r (rows t) -> survives r = None) ->
      extract (html fs) = Ok []
      /\ main fs = (mkfiles (html fs)
                            (Some ("date;scenario;minutes" ++ nl)%string), 0)).
Proof.
  split.
  - intros E. unfold Extract.main. rewrite E. split; reflexivity.
  - intros E Ht Hc Hnone.
    assert (P : parsed_rows (rows t) = []).
    { destruct (parsed_rows (rows t)) as [| [d n] l] eqn:Ep; [reflexivity |].
      assert (Hp : In (d, n) (parsed_rows (rows t))) by (rewrite Ep; now left).
      apply parsed_rows_In in Hp. destruct Hp as (r & q & Hr & Hs & _).
      rewrite (Hnone r Hr) in Hs. discriminate. }
    assert (X : extract (html fs) = Ok []).
    { rewrite E, (extract_table tables t Ht Hc).
      unfold Extract.daily_totals. rewrite P. reflexivity. }
    split; [exact X |].
    unfold Extract.main. rewrite X. reflexivity.
Qed.

(** C8.  [main] reads the document and replaces the store; it does not
    touch the document, a second run on the result of a first one returns
    the same files and the same status, and a run that succeeds leaves the
    same files whatever the store held before: the text of the store is a
    function of the document alone. *)
Theorem main_idempotent (fs : files) :
  html (fst (main fs)) = html fs
  /\ main (fst (main fs)) = main fs
  /\ (forall fs', html fs' = html fs -> snd (main fs) = 0 ->
                  main fs' = main fs).
Proof.
  unfold Extract.main.
  destruct (extract (html fs)) as [df | e] eqn:E; cbn [fst snd html].
  - split; [reflexivity |]. split.
    + rewrite E. reflexivity.
    + intros fs' H _. rewrite H, E. reflexivity.
  - split; [reflexivity |]. split.
    + rewrite E. reflexivity.
    + intros fs' _ H. discriminate.
Qed.

End ExtractorFacts.

(** *** The extractor on the sample documents *)

Lemma extract_sums_surviving_rows_per_day_witness :
  exists daily : list (date * number),
    Extract.extract to_datetime_dmy to_numeric_int
                    (Some (document_of sample_rows))
    = Ok (map daily_row daily)
    /\ (forall r, In r sample_rows ->
                  Extract.end_date to_datetime_dmy r = None
                  \/ Extract.duration to_numeric_int r = None ->
                  Extract.survives to_datetime_dmy to_numeric_int r = None)
    /\ NoDup (map fst daily)
    /\ (forall d, In d (map fst daily)
                  <-> exists r q,
                        In r sample_rows
                        /\ Extract.survives to_datetime_dmy to_numeric_int r
                           = Some (d, q))
    /\ (forall d m, In (d, m) daily ->
          let ds := Extract.day_durations to_datetime_dmy to_numeric_int d
                                          sample_rows in
          ds <> []
          /\ m = sum_numbers (Extract.int_column to_datetime_dmy
                                                 to_numeric_int sample_rows) ds
          /\ (Extract.int_column to_datetime_dmy to_numeric_int sample_rows
              = true ->
              forallb is_int ds = true
              /\ m = Int (wrap64 (Zsum (map int_value ds)))
              /\ (- 2 ^ 63 <= Zsum (map int_value ds) < 2 ^ 63 ->
                  m = Int (Zsum (map int_value ds))))
          /\ (Extract.int_column to_datetime_dmy to_numeric_int sample_rows
              = false ->
              m = Flt (fsum (map astype_float ds))
              /\ forall qs, map astype_float ds = map Fin qs ->
                            exists q, m = Flt (Fin q) /\ (q == Qsum qs)%Q)).
Proof.
  apply (extract_sums_surviving_rows_per_day to_datetime_dmy to_numeric_int
           (document_of sample_rows) (mktable 7 sample_rows));
    reflexivity.
Defined.

(** One text that does not parse past the date filter makes the column a
    float column; without it the column is an integer column. *)
Example extract_sample :
  Extract.extract to_datetime_dmy to_numeric_int
                  (Some (document_of sample_rows))
  = Ok [ mkrow "2025-10-08" Tipovoy (Flt (Fin 1300));
         mkrow "2025-10-17" BezDubleyParallel (Flt (Fin 30)) ]
  /\ Extract.extract to_datetime_dmy to_numeric_int
                     (Some (document_of integer_rows))
     = Ok [ mkrow "2025-10-08" Tipovoy (Int 1300);
            mkrow "2025-10-17" BezDubleyParallel (Int 30) ].
Proof. split; vm_compute; reflexivity. Qed.

(** The sum of two durations of 2^62 minutes comes out as -2^63. *)
Lemma extract_int64_sum_wraps :
  Extract.extract to_datetime_dmy to_numeric_int
                  (Some (document_of overflow_rows))
  = Ok [ mkrow "2025-10-17" BezDubleyParallel
               (Int (-9223372036854775808)) ]
  /\ map int_value
         (Extract.day_durations to_datetime_dmy to_numeric_int
                                (mkdate 2025 10 17) overflow_rows)
     = [4611686018427387904; 4611686018427387904]
  /\ 4611686018427387904 + 4611686018427387904 <> -9223372036854775808.
Proof. split; [| split]; [vm_compute; reflexivity .. | discriminate]. Qed.

Lemma extract_negative_minutes :
  exists out row,
    Extract.extract to_datetime_dmy to_numeric_int
                    (Some (document_of negative_rows)) = Ok out
    /\ In row out /\ minutes row = Int (-5) /\ ~ nonneg (minutes row).
Proof.
  exists [mkrow "2025-10-17" BezDubleyParallel (Int (-5))].
  exists (mkrow "2025-10-17" BezDubleyParallel (Int (-5))).
  split; [vm_compute; reflexivity |].
  split; [left; reflexivity |]. split; [reflexivity |].
  cbn. lia.
Qed.

Lemma extract_minutes_nonnegative_witness :
  exists daily : list (date * number),
    Extract.extract to_datetime_dmy to_numeric_int
                    (Some (document_of integer_rows))
    = Ok (map daily_row daily)
    /\ (forall d, In d (map fst daily)
                  <-> exists r q,
                        In r integer_rows
                        /\ Extract.survives to_datetime_dmy to_numeric_int r
                           = Some (d, q))
    /\ forall d m, In (d, m) daily ->
         let ds := Extract.day_durations to_datetime_dmy to_numeric_int d
                                         integer_rows in
         m = sum_numbers (Extract.int_column to_datetime_dmy to_numeric_int
                                             integer_rows) ds
         /\ ((forall n, In n ds -> nonneg n) ->
             (Extract.int_column to_datetime_dmy to_numeric_int
                                 integer_rows = true ->
              Zsum (map int_value ds) < 2 ^ 63) ->
             nonneg m).
Proof.
  apply (extract_minutes_nonnegative to_datetime_dmy to_numeric_int
           (document_of integer_rows) (mktable 7 integer_rows));
    reflexivity.
Defined.

Lemma extract_no_rows_succeeds :
  Extract.parsed_rows to_datetime_dmy to_numeric_int heading_only_rows = []
  /\ Extract.extract to_datetime_dmy to_numeric_int
                     (Some (document_of heading_only_rows)) = Ok []
  /\ Extract.main to_datetime_dmy to_numeric_int format_minutes_int
                  (mkfiles (Some (document_of heading_only_rows)) None)
     = (mkfiles (Some (document_of heading_only_rows))
                (Some ("date;scenario;minutes" ++ nl)%string), 0).
Proof. repeat split; vm_compute; reflexivity. Qed.

Lemma extract_missing_input_and_no_rows_witness :
  (Extract.extract to_datetime_dmy to_numeric_int None
   = Raise FileNotFoundError
   /\ Extract.main to_datetime_dmy to_numeric_int format_minutes_int
                   (mkfiles None (Some "old"))
      = (mkfiles None (Some "old"), 1))
  /\ (Extract.extract to_datetime_dmy to_numeric_int
                      (Some (document_of heading_only_rows)) = Ok []
      /\ Extract.main to_datetime_dmy to_numeric_int format_minutes_int
                      (mkfiles (Some (document_of heading_only_rows)) None)
         = (mkfiles (Some (document_of heading_only_rows))
                    (Some ("date;scenario;minutes" ++ nl)%string), 0)).
Proof.
  split.
  - apply (proj1 (extract_missing_input_and_no_rows
                    to_datetime_dmy to_numeric_int format_minutes_int
                    (mkfiles None (Some "old")) [] other_table)).
    reflexivity.
  - apply (proj2 (extract_missing_input_and_no_rows
                    to_datetime_dmy to_numeric_int format_minutes_int
                    (mkfiles (Some (document_of heading_only_rows)) None)
                    (document_of heading_only_rows)
                    (mktable 7 heading_only_rows)));
      try reflexivity.
    intros r H. cbn [rows heading_only_rows In] in H.
    repeat (destruct H as [<- | H]; [vm_compute; reflexivity |]).
    contradiction.
Defined.

Example main_twice :
  let fs := mkfiles (Some (document_of integer_rows)) (Some "stale") in
  let run := Extract.main to_datetime_dmy to_numeric_int format_minutes_int in
  run (fst (run fs)) = run fs
  /\ csv (fst (run fs))
     = Some ("date;scenario;minutes" ++ nl
             ++ "2025-10-08;Типовой;1300" ++ nl
             ++ "2025-10-17;Без дублей обменов + Параллельные портфели;30"
             ++ nl)%string
  /\ csv (fst (run (mkfiles (Some (document_of sample_rows)) None)))
     = Some ("date;scenario;minutes" ++ nl
             ++ "2025-10-08;Типовой;1300.0" ++ nl
             ++ "2025-10-17;Без дублей обменов + Параллельные портфели;30.0"
             ++ nl)%string.
Proof. repeat split; vm_compute; reflexivity. Qed.

(** ** Series and frames built over a list of labels *)

Section Tabulate.
Context {K V : Type} (eqb : K -> K -> bool).
Hypothesis eqb_eq : forall x y, eqb x y = true <-> x = y.

Lemma find_tabulate (f : K -> V) (P : K * V -> bool) (l : list K) (k : K) :
  find (fun p => eqb (fst p) k) (filter P (map (fun x => (x, f x)) l))
  = if P (k, f k) && existsb (eqb k) l then Some (k, f k) else None.
Proof.
  induction l as [| x l IH]; cbn [map filter existsb].
  - now rewrite andb_false_r.
  - destruct (eqb k x) eqn:E.
    + apply eqb_eq in E. subst x. cbn [orb]. rewrite andb_true_r.
      destruct (P (k, f k)) eqn:EP.
      * cbn [find fst]. now rewrite (proj2 (eqb_eq k k) eq_refl).
      * rewrite IH. reflexivity.
    + cbn [orb]. destruct (P (x, f x)).
      * cbn [find fst]. destruct (eqb x k) eqn:E'.
        -- apply eqb_eq in E'. subst x.
           rewrite (proj2 (eqb_eq k k) eq_refl) in E. discriminate.
        -- exact IH.
      * exact IH.
Qed.

Lemma find_tabulate_all (f : K -> V) (l : list K) (k : K) :
  find (fun p => eqb (fst p) k) (map (fun x => (x, f x)) l)
  = if existsb (eqb k) l then Some (k, f k) else None.
Proof.
  assert (E : forall t : list (K * V), filter (fun _ => true) t = t).
  { induction t as [| p t IH]; cbn [filter]; congruence. }
  rewrite <- (E (map (fun x => (x, f x)) l)).
  rewrite (find_tabulate f (fun _ => true) l k). reflexivity.
Qed.

Lemma existsb_eqb_In (l : list K) (k : K) :
  existsb (eqb k) l = true <-> In k l.
Proof.
  rewrite existsb_exists. split.
  - intros (x & Hx & E). apply eqb_eq in E. now subst x.
  - intros H. exists k. split; [exact H | now apply eqb_eq].
Qed.
End Tabulate.

Lemma Z_eqb_iff (x y : Z) : (x =? y) = true <-> x = y.
Proof. apply Z.eqb_eq. Qed.

Lemma string_compare_eq (x y : string) : String.compare x y = Eq -> x = y.
Proof. apply String.compare_eq_iff. Qed.

Lemma Z_compare_eq (x y : Z) : (x ?= y) = Eq -> x = y.
Proof. apply Z.compare_eq. Qed.

(** ** The aggregator *)

Import Speed.

Lemma s_get_tabulate (f : Z -> float) (P : Z * float -> bool)
      (l : list Z) (d : Z) :
  s_get (filter P (map (fun x => (x, f x)) l)) d
  = if P (d, f d) && existsb (Z.eqb d) l then f d else NaN.
Proof.
  unfold s_get.
  rewrite (find_tabulate Z.eqb Z_eqb_iff f P l d).
  destruct (P (d, f d) && existsb (Z.eqb d) l); reflexivity.
Qed.

Lemma s_get_tabulate_all (f : Z -> float) (l : list Z) (d : Z) :
  s_get (map (fun x => (x, f x)) l) d
  = if existsb (Z.eqb d) l then f d else NaN.
Proof.
  unfold s_get.
  rewrite (find_tabulate_all Z.eqb Z_eqb_iff f l d).
  destruct (existsb (Z.eqb d) l); reflexivity.
Qed.

Lemma pivot_index (df : frame) (d : Z) :
  In d (index (pivot_table df)) <-> In d (map date df).
Proof. apply (In_sort_uniq Z.compare Z_compare_eq). Qed.

Lemma pivot_columns (df : frame) :
  columns (pivot_table df)
  = map (fun c => (c, pivot_series df c))
        (sort_uniq String.compare (map scenario df)).
Proof. reflexivity. Qed.

Lemma pivot_column_names (df : frame) (c : string) :
  In c (map fst (columns (pivot_table df))) <-> In c (map scenario df).
Proof.
  rewrite pivot_columns, map_map. cbn [fst]. rewrite map_id.
  apply (In_sort_uniq String.compare string_compare_eq).
Qed.

Lemma getitem_pivot (df : frame) (c : string) :
  In c (map scenario df) -> getitem (pivot_table df) c = pivot_series df c.
Proof.
  intros H. unfold getitem, column. rewrite pivot_columns.
  rewrite (find_tabulate_all String.eqb String.eqb_eq).
  replace (existsb _ _) with true; [reflexivity |].
  symmetry. apply (existsb_eqb_In String.eqb String.eqb_eq).
  now apply (In_sort_uniq String.compare string_compare_eq).
Qed.

Lemma series_div_pivot (df : frame) (b c : string) :
  series_div (pivot_series df b) (pivot_series df c)
  = map (fun d => (d, fdiv (minutes_at df d b) (minutes_at df d c)))
        (index (pivot_table df)).
Proof.
  unfold series_div. unfold pivot_series at 2. rewrite map_map.
  cbn [fst snd].
  apply map_ext_in. intros d Hd. f_equal. f_equal.
  unfold pivot_series. rewrite s_get_tabulate_all.
  replace (existsb _ _) with true; [reflexivity |].
  symmetry. now apply (existsb_eqb_In Z.eqb Z_eqb_iff).
Qed.

Lemma accel_frames_pivot (df : frame) :
  In base_col (map scenario df) ->
  flat_map (fun c =>
              if String.eqb (fst c) base_col then []
              else [(fst c, series_div (getitem (pivot_table df) base_col)
                                       (snd c))])
           (columns (pivot_table df))
  = map (fun c =>
           (c, map (fun d => (d, fdiv (minutes_at df d base_col)
                                      (minutes_at df d c)))
                   (index (pivot_table df))))
        (alternatives df).
Proof.
  intros Hb. rewrite (getitem_pivot df base_col Hb), pivot_columns.
  unfold alternatives.
  induction (sort_uniq String.compare (map scenario df)) as [| c l IH];
    [reflexivity |].
  cbn [map flat_map filter fst snd].
  destruct (String.eqb c base_col); cbn [negb app map].
  - exact IH.
  - now rewrite IH, series_div_pivot.
Qed.

Lemma alternatives_In (df : frame) (c : string) :
  In c (alternatives df) <-> In c (map scenario df) /\ c <> base_col.
Proof.
  unfold alternatives. rewrite filter_In.
  rewrite (In_sort_uniq String.compare string_compare_eq).
  rewrite negb_true_iff, String.eqb_neq. tauto.
Qed.

Lemma existsb_base_col (df : frame) :
  existsb (String.eqb base_col) (map fst (columns (pivot_table df))) = true
  <-> In base_col (map scenario df).
Proof.
  rewrite (existsb_eqb_In String.eqb String.eqb_eq).
  apply pivot_column_names.
Qed.

Lemma concat_axis1_tabulate (g : string -> Z -> float) (idx : list Z)
      (names : list string) :
  names <> [] ->
  concat_axis1 (map (fun c => (c, map (fun d => (d, g c d)) idx)) names)
  = mkframe idx (map (fun c => (c, map (fun d => (d, g c d)) idx)) names).
Proof.
  destruct names as [| c l]; [congruence | intros _].
  unfold concat_axis1. cbn [map snd]. f_equal.
  rewrite map_map. cbn [fst]. apply map_id.
Qed.

Lemma dropna_replace_tabulate (df : frame) :
  dropna_all
    (replace_inf
       (mkframe (index (pivot_table df))
          (map (fun c =>
                  (c, map (fun d => (d, fdiv (minutes_at df d base_col)
                                             (minutes_at df d c)))
                          (index (pivot_table df))))
               (alternatives df))))
  = accel_frame df.
Proof.
  unfold accel_frame, dropna_all, replace_inf. cbn [index columns].
  rewrite !map_map. cbn [fst snd].
  assert (K : forall names d,
             In d (index (pivot_table df)) ->
             existsb (fun c0 : string * Series => notna (s_get (snd c0) d))
               (map (fun x =>
                       (x, map (fun p => (fst p, na_if_inf (snd p)))
                             (map (fun d0 =>
                                     (d0, fdiv (minutes_at df d0 base_col)
                                               (minutes_at df d0 x)))
                                  (index (pivot_table df)))))
                    names)
             = existsb (fun c0 => notna (ratio df d c0)) names).
  { intros names d Hd.
    induction names as [| a t IHt]; [reflexivity |].
    cbn [map existsb snd]. rewrite IHt. f_equal. f_equal.
    rewrite map_map. cbn [fst snd].
    rewrite (s_get_tabulate_all
               (fun d0 => na_if_inf (fdiv (minutes_at df d0 base_col)
                                          (minutes_at df d0 a)))).
    replace (existsb _ _) with true; [reflexivity |].
    symmetry. now apply (existsb_eqb_In Z.eqb Z_eqb_iff). }
  rewrite (filter_ext_in _ _ _ (K (alternatives df))).
  f_equal.
  apply map_ext. intros a. f_equal. rewrite map_map. reflexivity.
Qed.

(** [compute_acceleration] in closed form. *)
Lemma compute_acceleration_ok (df : frame) :
  In base_col (map scenario df) -> alternatives df <> [] ->
  compute_acceleration df = Ok (accel_frame df).
Proof.
  intros Hb Ha. unfold compute_acceleration.
  rewrite (proj2 (existsb_base_col df) Hb). cbn [negb].
  rewrite (accel_frames_pivot df Hb).
  rewrite (concat_axis1_tabulate
             (fun c d => fdiv (minutes_at df d base_col) (minutes_at df d c))
             _ _ Ha).
  rewrite dropna_replace_tabulate.
  destruct (alternatives df); [congruence | reflexivity].
Qed.

Lemma compute_acceleration_no_baseline (df : frame) :
  ~ In base_col (map scenario df) ->
  compute_acceleration df
  = Raise (ValueError
      "Baseline 'Типовой' is required in the dataset to compute acceleration.").
Proof.
  intros Hb. unfold compute_acceleration.
  destruct (existsb _ _) eqn:E; [| reflexivity].
  apply existsb_base_col in E. contradiction.
Qed.

Lemma compute_acceleration_no_alternative (df : frame) :
  In base_col (map scenario df) -> alternatives df = [] ->
  compute_acceleration df
  = Raise (ValueError
             "No alternative scenarios to compare against baseline.").
Proof.
  intros Hb Ha. unfold compute_acceleration.
  rewrite (proj2 (existsb_base_col df) Hb). cbn [negb].
  rewrite (accel_frames_pivot df Hb), Ha. reflexivity.
Qed.

Lemma alternatives_nil (df : frame) :
  alternatives df = [] <-> forall s, In s (map scenario df) -> s = base_col.
Proof.
  split.
  - intros E s Hs. destruct (String.eqb_spec s base_col) as [-> | N];
      [reflexivity |].
    assert (H : In s (alternatives df)) by (apply alternatives_In; auto).
    rewrite E in H. destruct H.
  - intros H. destruct (alternatives df) as [| c l] eqn:E; [reflexivity |].
    assert (Hc : In c (alternatives df)) by (rewrite E; now left).
    apply alternatives_In in Hc. destruct Hc as [Hc N].
    elim N. auto.
Qed.

(** C2.  [compute_acceleration] raises (a ValueError, and nothing else)
    exactly when the baseline scenario is absent from the data or the data
    hold no scenario other than the baseline; the message tells which.
    In every other case it returns a frame with one column per
    alternative scenario. *)
Theorem compute_acceleration_raises_iff (df : frame) :
  ((exists e, compute_acceleration df = Raise e)
   <-> (~ In base_col (map scenario df)
        \/ forall s, In s (map scenario df) -> s = base_col))
  /\ (~ In base_col (map scenario df) ->
      compute_acceleration df
      = Raise (ValueError
          "Baseline 'Типовой' is required in the dataset to compute acceleration."))
  /\ (In base_col (map scenario df) ->
      (forall s, In s (map scenario df) -> s = base_col) ->
      compute_acceleration df
      = Raise (ValueError
                 "No alternative scenarios to compare against baseline."))
  /\ (In base_col (map scenario df) ->
      (exists s, In s (map scenario df) /\ s <> base_col) ->
      exists accel, compute_acceleration df = Ok accel
                    /\ map fst (columns accel) = alternatives df
                    /\ alternatives df <> []).
Proof.
  assert (D : In base_col (map scenario df) \/ ~ In base_col (map scenario df)).
  { destruct (in_dec string_dec base_col (map scenario df)); auto. }
  assert (A : alternatives df = [] \/ alternatives df <> []).
  { destruct (alternatives df); [left | right]; congruence. }
  split; [| split; [| split]].
  - split.
    + intros (e & He). destruct D as [Hb | Hb]; [| now left].
      right. apply alternatives_nil.
      destruct A as [Ha | Ha]; [exact Ha |].
      rewrite (compute_acceleration_ok df Hb Ha) in He. discriminate.
    + intros [Hb | Hall].
      * eexists. apply compute_acceleration_no_baseline, Hb.
      * destruct D as [Hb | Hb].
        -- eexists. apply compute_acceleration_no_alternative; [exact Hb |].
           now apply alternatives_nil.
        -- eexists. apply compute_acceleration_no_baseline, Hb.
  - apply compute_acceleration_no_baseline.
  - intros Hb Hall. apply compute_acceleration_no_alternative; [exact Hb |].
    now apply alternatives_nil.
  - intros Hb (s & Hs & N).
    assert (Ha : alternatives df <> []).
    { intros E. apply N. now apply (proj1 (alternatives_nil df) E). }
    exists (accel_frame df). split; [now apply compute_acceleration_ok |].
    split; [| exact Ha].
    unfold accel_frame. cbn [columns]. rewrite map_map. cbn [fst].
    apply map_id.
Qed.

Lemma mean_cases (l : list Q) :
  (l = [] /\ mean l = NaN) \/ (l <> [] /\ exists q, mean l = Fin q).
Proof.
  destruct l as [| x t]; [left; split; reflexivity |].
  right. split; [discriminate |]. eexists. reflexivity.
Qed.

Lemma minutes_at_cases (df : frame) (d : Z) (c : string) :
  minutes_at df d c = NaN \/ exists q, minutes_at df d c = Fin q.
Proof.
  unfold minutes_at.
  destruct (mean_cases (cell_values df d c)) as [[_ E] | [_ E]]; auto.
Qed.

Lemma signed_inf_na (q : Q) : na_if_inf (signed_inf q) = NaN.
Proof. unfold signed_inf. destruct (Qsign q); reflexivity. Qed.

Lemma ratio_defined (df : frame) (d : Z) (c : string) (b s : Q) :
  minutes_at df d base_col = Fin b -> minutes_at df d c = Fin s ->
  ~ (s == 0)%Q ->
  ratio df d c = Fin (Qred (b / s)).
Proof.
  intros Eb Es N. unfold ratio. rewrite Eb, Es. cbn [fdiv].
  destruct (Qeq_bool s 0) eqn:E; [| reflexivity].
  apply Qeq_bool_eq in E. contradiction.
Qed.

Lemma ratio_undefined (df : frame) (d : Z) (c : string) :
  (exists s, minutes_at df d c = Fin s /\ (s == 0)%Q)
  \/ minutes_at df d base_col = NaN \/ minutes_at df d c = NaN ->
  ratio df d c = NaN.
Proof.
  unfold ratio. intros [(s & Es & Z0) | [Eb | Es]].
  - rewrite Es. destruct (minutes_at df d base_col) as [b | | |];
      cbn [fdiv]; try (destruct (Qsign s); reflexivity).
    rewrite (Qeq_eq_bool _ _ Z0). apply signed_inf_na.
  - rewrite Eb. reflexivity.
  - rewrite Es. destruct (minutes_at df d base_col); reflexivity.
Qed.

Lemma na_if_inf_finite (x : float) :
  na_if_inf x = NaN \/ exists q, na_if_inf x = Fin q.
Proof. destruct x; cbn; [right; eexists; reflexivity | left; reflexivity ..]. Qed.

Lemma ratio_notna (df : frame) (d : Z) (c : string) :
  notna (ratio df d c) = true
  <-> exists b s, minutes_at df d base_col = Fin b
                  /\ minutes_at df d c = Fin s /\ ~ (s == 0)%Q.
Proof.
  split.
  - intros H.
    destruct (minutes_at_cases df d base_col) as [Eb | (b & Eb)].
    { rewrite (ratio_undefined df d c) in H by auto. discriminate. }
    destruct (minutes_at_cases df d c) as [Es | (s & Es)].
    { rewrite (ratio_undefined df d c) in H by auto. discriminate. }
    exists b, s. repeat split; try assumption.
    intros Z0. rewrite (ratio_undefined df d c) in H; [discriminate |].
    left. eauto.
  - intros (b & s & Eb & Es & N).
    now rewrite (ratio_defined df d c b s Eb Es N).
Qed.

Lemma accel_index (df : frame) (d : Z) :
  In d (index (accel_frame df))
  <-> In d (map date df)
      /\ exists c, In c (alternatives df) /\ notna (ratio df d c) = true.
Proof.
  unfold accel_frame. cbn [index].
  rewrite filter_In, pivot_index, existsb_exists. tauto.
Qed.

Lemma loc_accel_frame (df : frame) (d : Z) (c : string) :
  In c (alternatives df) ->
  loc (accel_frame df) d c
  = if existsb (Z.eqb d) (index (accel_frame df))
    then Some (ratio df d c) else None.
Proof.
  intros Hc. unfold loc, column.
  unfold accel_frame at 1. cbn [columns].
  rewrite (find_tabulate_all String.eqb String.eqb_eq).
  rewrite (proj2 (existsb_eqb_In String.eqb String.eqb_eq _ _) Hc).
  cbn [option_map snd].
  destruct (existsb (Z.eqb d) (index (accel_frame df))) eqn:E;
    [| reflexivity].
  f_equal. rewrite s_get_tabulate. cbn [fst].
  unfold accel_frame in E. cbn [index] in E. rewrite E. cbn [andb].
  apply (existsb_eqb_In Z.eqb Z_eqb_iff) in E.
  apply filter_In in E. destruct E as [E _].
  now rewrite (proj2 (existsb_eqb_In Z.eqb Z_eqb_iff _ _) E).
Qed.

Lemma compute_acceleration_inv (df : frame) (accel : DataFrame) :
  compute_acceleration df = Ok accel ->
  In base_col (map scenario df) /\ alternatives df <> []
  /\ accel = accel_frame df.
Proof.
  intros H.
  destruct (in_dec string_dec base_col (map scenario df)) as [Hb | Hb].
  - destruct (alternatives df) as [| a t] eqn:E.
    + rewrite (compute_acceleration_no_alternative df Hb E) in H.
      discriminate.
    + assert (Ha : alternatives df <> []) by (rewrite E; discriminate).
      rewrite (compute_acceleration_ok df Hb Ha) in H.
      injection H as <-. rewrite <- E. auto.
  - rewrite (compute_acceleration_no_baseline df Hb) in H. discriminate.
Qed.

(** C1.  When [compute_acceleration] returns a frame, then for every date
    [d] of the data and every scenario [c] other than the baseline: where
    the pivot holds [b] for the baseline and a non-zero [s] for [c] on
    [d], the frame holds [b / s] at ([d], [c]); where [s] is zero, or the
    baseline or [c] has no value on [d], the cell is absent (the row is
    dropped, or the cell is undefined); an infinity is never stored; and
    the dates of the frame are exactly those on which some alternative
    scenario has a defined ratio.  The pivot value of a scenario on a
    date is the mean of its rows of that date. *)
Theorem compute_acceleration_ratios (df : frame) (accel : DataFrame) :
  compute_acceleration df = Ok accel ->
  forall d c,
    In d (map date df) -> In c (map scenario df) -> c <> base_col ->
    (forall b s,
        minutes_at df d base_col = Fin b -> minutes_at df d c = Fin s ->
        ~ (s == 0)%Q ->
        In d (index accel) /\ loc accel d c = Some (Fin (Qred (b / s))))
    /\ ((exists s, minutes_at df d c = Fin s /\ (s == 0)%Q)
        \/ minutes_at df d base_col = NaN \/ minutes_at df d c = NaN ->
        loc accel d c = None \/ loc accel d c = Some NaN)
    /\ (loc accel d c <> Some PInf /\ loc accel d c <> Some NInf)
    /\ (In d (index accel)
        <-> exists c' b s,
              In c' (map scenario df) /\ c' <> base_col
              /\ minutes_at df d base_col = Fin b
              /\ minutes_at df d c' = Fin s /\ ~ (s == 0)%Q).
Proof.
  intros H d c Hd Hc Nc.
  apply compute_acceleration_inv in H. destruct H as (Hb & Ha & ->).
  assert (Hc' : In c (alternatives df)) by (apply alternatives_In; auto).
  assert (I : In d (index (accel_frame df))
              <-> exists c' b s,
                    In c' (map scenario df) /\ c' <> base_col
                    /\ minutes_at df d base_col = Fin b
                    /\ minutes_at df d c' = Fin s /\ ~ (s == 0)%Q).
  { rewrite accel_index. split.
    - intros (_ & c' & Hc1 & Hn). apply alternatives_In in Hc1.
      apply ratio_notna in Hn. destruct Hn as (b & s & Hn).
      exists c', b, s. tauto.
    - intros (c' & b & s & H1 & H2 & H3 & H4 & H5). split; [exact Hd |].
      exists c'. split; [apply alternatives_In; auto |].
      apply ratio_notna. eauto. }
  rewrite (loc_accel_frame df d c Hc').
  split; [| split; [| split; [| exact I]]].
  - intros b s Eb Es N.
    assert (K : In d (index (accel_frame df))).
    { apply I. exists c, b, s. auto. }
    split; [exact K |].
    rewrite (proj2 (existsb_eqb_In Z.eqb Z_eqb_iff _ _) K).
    now rewrite (ratio_defined df d c b s Eb Es N).
  - intros U. rewrite (ratio_undefined df d c U).
    destruct (existsb _ _); auto.
  - unfold ratio.
    destruct (na_if_inf_finite
                (fdiv (minutes_at df d base_col) (minutes_at df d c)))
      as [E | (q & E)]; rewrite E;
      destruct (existsb _ _); split; discriminate.
Qed.

Lemma compute_acceleration_ratios_witness :
  (forall b s,
      minutes_at sample_frame 10 base_col = Fin b ->
      minutes_at sample_frame 10 alt = Fin s ->
      ~ (s == 0)%Q ->
      In 10 (index (accel_frame sample_frame))
      /\ loc (accel_frame sample_frame) 10 alt = Some (Fin (Qred (b / s))))
  /\ ((exists s, minutes_at sample_frame 10 alt = Fin s /\ (s == 0)%Q)
      \/ minutes_at sample_frame 10 base_col = NaN
      \/ minutes_at sample_frame 10 alt = NaN ->
      loc (accel_frame sample_frame) 10 alt = None
      \/ loc (accel_frame sample_frame) 10 alt = Some NaN)
  /\ (loc (accel_frame sample_frame) 10 alt <> Some PInf
      /\ loc (accel_frame sample_frame) 10 alt <> Some NInf)
  /\ (In 10 (index (accel_frame sample_frame))
      <-> exists c' b s,
            In c' (map scenario sample_frame) /\ c' <> base_col
            /\ minutes_at sample_frame 10 base_col = Fin b
            /\ minutes_at sample_frame 10 c' = Fin s /\ ~ (s == 0)%Q).
Proof.
  apply (compute_acceleration_ratios sample_frame (accel_frame sample_frame)).
  - vm_compute. reflexivity.
  - simpl. auto.
  - simpl. auto.
  - discriminate.
Defined.

(** Baseline 100 against 50 gives 2; against 0 the date is dropped; a date
    without a baseline row is dropped. *)
Example compute_acceleration_sample :
  compute_acceleration sample_frame
  = Ok (mkframe [10; 13] [(alt, [(10, Fin 2); (13, Fin (10 # 3))])]).
Proof. vm_compute. reflexivity. Qed.

Example compute_acceleration_zero_divisor :
  compute_acceleration [mkrow 10 base_col 100; mkrow 10 alt 50;
                        mkrow 10 "c" 0; mkrow 11 base_col 7; mkrow 11 alt 0]
  = Ok (mkframe [10] [("c", [(10, NaN)]); (alt, [(10, Fin 2)])]).
Proof. vm_compute. reflexivity. Qed.

Example compute_acceleration_raises :
  compute_acceleration [mkrow 10 alt 50]
  = Raise (ValueError
      "Baseline 'Типовой' is required in the dataset to compute acceleration.")
  /\ compute_acceleration [mkrow 10 base_col 100]
     = Raise (ValueError
                "No alternative scenarios to compare against baseline.")
  /\ compute_acceleration [] 
     = Raise (ValueError
      "Baseline 'Типовой' is required in the dataset to compute acceleration.").
Proof. repeat split; vm_compute; reflexivity. Qed.

(** ** Rolling statistics *)

Lemma rolling_nth (w mp : nat) (agg : list Q -> float)
      (xs : list (option Q)) (i : nat) (dflt : float) :
  (i < List.length xs)%nat ->
  nth i (rolling w mp agg xs) dflt = roll_at w mp agg xs i.
Proof.
  intros H. unfold rolling.
  rewrite (nth_indep _ dflt (roll_at w mp agg xs 0%nat))
    by (now rewrite length_map, length_seq).
  rewrite map_nth, seq_nth by exact H. reflexivity.
Qed.

Lemma rolling_length (w mp : nat) (agg : list Q -> float)
      (xs : list (option Q)) :
  List.length (rolling w mp agg xs) = List.length xs.
Proof. unfold rolling. now rewrite length_map, length_seq. Qed.

Lemma window_at_length {A : Type} (w : nat) (xs : list A) (i : nat) :
  (i < List.length xs)%nat ->
  List.length (window_at w xs i) = Nat.min w (i + 1).
Proof.
  intros H. unfold window_at. rewrite length_skipn, length_firstn. lia.
Qed.

Lemma observations_length (l : list (option Q)) :
  (List.length (observations l) <= List.length l)%nat.
Proof.
  unfold observations.
  induction l as [| o t IH]; [apply Nat.le_refl |].
  cbn [flat_map]. rewrite length_app.
  destruct o; cbn [List.length]; lia.
Qed.

Lemma mean_defined (l : list Q) : mean l <> NaN <-> l <> [].
Proof.
  destruct (mean_cases l) as [[-> E] | [N (q & E)]]; rewrite E.
  - split; intros H; exfalso; apply H; reflexivity.
  - split; [auto | discriminate].
Qed.

Lemma combine_split_maps {A B : Type} (a : list A) (b : list B) :
  List.length a = List.length b ->
  map fst (combine a b) = a /\ map snd (combine a b) = b.
Proof.
  revert b. induction a as [| x a IH]; intros [| y b] H;
    try discriminate; [split; reflexivity |].
  injection H as H. destruct (IH b H) as [E1 E2].
  cbn [combine map fst snd]. now rewrite E1, E2.
Qed.

Lemma roll_at_below (w mp : nat) (agg : list Q -> float)
      (xs : list (option Q)) (i : nat) :
  (List.length (observations (window_at w xs i)) < mp)%nat ->
  roll_at w mp agg xs i = NaN.
Proof.
  intros H. unfold roll_at.
  destruct (Nat.leb_spec mp (List.length (observations (window_at w xs i))));
    [lia | reflexivity].
Qed.

Lemma roll_at_enough (w mp : nat) (agg : list Q -> float)
      (xs : list (option Q)) (i : nat) :
  (mp <= List.length (observations (window_at w xs i)))%nat ->
  roll_at w mp agg xs i = agg (observations (window_at w xs i)).
Proof.
  intros H. unfold roll_at.
  destruct (Nat.leb_spec mp (List.length (observations (window_at w xs i))));
    [reflexivity | lia].
Qed.

Lemma map_fst_combine {A B : Type} (l1 : list A) (l2 : list B) :
  List.length l1 = List.length l2 -> map fst (combine l1 l2) = l1.
Proof. intros H. apply (combine_split_maps _ _ H). Qed.

Lemma map_snd_combine {A B : Type} (l1 : list A) (l2 : list B) :
  List.length l1 = List.length l2 -> map snd (combine l1 l2) = l2.
Proof. intros H. apply (combine_split_maps _ _ H). Qed.

Lemma rolling_line {A K : Type} (date : A -> K) (minutes : A -> option Q)
      (data : list A) (w mp : nat) (agg : list Q -> float) :
  let ser := combine (map date data) (rolling w mp agg (map minutes data)) in
  map fst ser = map date data
  /\ map snd ser = rolling w mp agg (map minutes data).
Proof.
  apply combine_split_maps. now rewrite rolling_length, !length_map.
Qed.

(** A list built label by label holds, for a label, exactly the entry
    built for it. *)
Lemma In_tabulate {K V : Type} (f : K -> V) (l : list K) (k : K) (v : V) :
  In (k, v) (map (fun x => (x, f x)) l) <-> In k l /\ v = f k.
Proof.
  rewrite in_map_iff. split.
  - intros (x & E & Hx). injection E as -> <-. auto.
  - intros (Hk & ->). eauto.
Qed.

Section UniqueFacts.
Context {K : Type} (eqb : K -> K -> bool).
Hypothesis eqb_eq : forall x y, eqb x y = true <-> x = y.

Lemma unique_In_eqb (l : list K) (z : K) : In z (unique eqb l) <-> In z l.
Proof.
  induction l as [| x t IH]; cbn [unique In]; [tauto |].
  rewrite filter_In, IH, negb_true_iff. split.
  - intros [H | [H _]]; auto.
  - intros [H | H]; [now left |].
    destruct (eqb x z) eqn:E; [left; now apply eqb_eq | right; auto].
Qed.

Lemma NoDup_unique_eqb (l : list K) : NoDup (unique eqb l).
Proof.
  induction l as [| x t IH]; cbn [unique]; constructor.
  - intros H. apply filter_In in H. destruct H as [_ H].
    rewrite (proj2 (eqb_eq x x) eq_refl) in H. discriminate.
  - apply NoDup_filter, IH.
Qed.
End UniqueFacts.

Lemma same_label_eq (a b : option string) :
  Report.same_label a b = true <-> a = b.
Proof.
  destruct a as [x |], b as [y |]; cbn; split; intros H;
    try discriminate; try reflexivity.
  - apply String.eqb_eq in H. now subst.
  - injection H as ->. apply String.eqb_refl.
Qed.

Lemma window_at_map {A B : Type} (f : A -> B) (w : nat) (l : list A)
      (i : nat) :
  window_at w (map f l) i = map f (window_at w l i).
Proof. unfold window_at. now rewrite firstn_map, skipn_map. Qed.

Lemma observations_Some (l : list Q) : observations (map Some l) = l.
Proof.
  unfold observations. induction l as [| q l IH]; [reflexivity |].
  cbn [map flat_map app]. now rewrite IH.
Qed.

(** Where no minutes are missing, the window of row [i] holds
    min(7, i+1) observations: the rolling mean is undefined on the first
    two rows and defined from the third row on. *)
Lemma roll_at_complete (sub : list Speed.row) (i : nat) :
  (i < List.length sub)%nat ->
  let xs := map (fun r => Some (Speed.minutes r)) sub in
  observations (window_at 7 xs i) = map Speed.minutes (window_at 7 sub i)
  /\ ((i < 2)%nat -> roll_at 7 3 mean xs i = NaN)
  /\ ((2 <= i)%nat ->
      roll_at 7 3 mean xs i = mean (map Speed.minutes (window_at 7 sub i))
      /\ roll_at 7 3 mean xs i <> NaN).
Proof.
  intros Hi xs.
  assert (O : observations (window_at 7 xs i)
              = map Speed.minutes (window_at 7 sub i)).
  { unfold xs.
    rewrite <- (map_map Speed.minutes Some), window_at_map.
    rewrite observations_Some. now rewrite window_at_map. }
  assert (N : List.length (observations (window_at 7 xs i))
              = Nat.min 7 (i + 1)).
  { rewrite O, length_map. now apply window_at_length. }
  split; [exact O |]. split.
  - intros L. apply roll_at_below. lia.
  - intros G. rewrite roll_at_enough by lia. rewrite O.
    split; [reflexivity |]. apply mean_defined.
    intros Z0. rewrite O, Z0 in N. cbn [List.length] in N. lia.
Qed.


Example rolling_two_points :
  plot_rolling_avg Speed.stable_by_date
                   [Speed.mkrow 10 alt 40; Speed.mkrow 11 alt 50] 7
  = [(alt, [(10, NaN); (11, NaN)])].
Proof. vm_compute. reflexivity. Qed.

(** The window counts rows of the scenario, whatever the distance between
    their dates; rows of other scenarios do not enter it. *)
Example rolling_three_points :
  plot_rolling_avg Speed.stable_by_date
                   [Speed.mkrow 10 alt 40; Speed.mkrow 11 alt 50;
                    Speed.mkrow 10 base_col 7; Speed.mkrow 40 alt 60] 7
  = [(alt, [(10, NaN); (11, NaN); (40, Fin 50)]); (base_col, [(10, NaN)])].
Proof. vm_compute. reflexivity. Qed.

(** ** Weekly resampling *)

Lemma weekday_range (d : Z) : 0 <= weekday d < 7.
Proof. unfold weekday. apply Z.mod_pos_bound. lia. Qed.

Lemma week_end_sunday (d : Z) : weekday (week_end d) = 6.
Proof. unfold week_end, weekday. Z.div_mod_to_equations. lia. Qed.

Lemma week_end_bounds (d : Z) : d <= week_end d < d + 7.
Proof. unfold week_end. pose proof (weekday_range d). lia. Qed.

Lemma week_end_mono (a b : Z) : a <= b -> week_end a <= week_end b.
Proof. unfold week_end, weekday. intros H. Z.div_mod_to_equations. lia. Qed.

Lemma in_bin_week_end (w d : Z) :
  weekday w = 6 -> (in_bin w d = true <-> week_end d = w).
Proof.
  unfold in_bin, week_end, weekday. intros H.
  rewrite andb_true_iff, Z.ltb_lt, Z.leb_le.
  Z.div_mod_to_equations. lia.
Qed.

Lemma week_end_step (a b : Z) :
  a <= b -> exists k, 0 <= k /\ week_end b = week_end a + 7 * k.
Proof.
  intros H. exists ((week_end b - week_end a) / 7).
  pose proof (week_end_mono a b H).
  unfold week_end, weekday in *. Z.div_mod_to_equations. lia.
Qed.

Lemma fold_min_le (d0 : Z) (t : list Z) (d : Z) :
  In d (d0 :: t) -> fold_right Z.min d0 t <= d.
Proof.
  induction t as [| x t IH]; cbn [fold_right In].
  - intros [<- | []]. lia.
  - intros [<- | [<- | H]].
    + assert (fold_right Z.min d0 t <= d0) by (apply IH; now left). lia.
    + lia.
    + assert (fold_right Z.min d0 t <= d) by (apply IH; now right). lia.
Qed.

Lemma fold_max_ge (d0 : Z) (t : list Z) (d : Z) :
  In d (d0 :: t) -> d <= fold_right Z.max d0 t.
Proof.
  induction t as [| x t IH]; cbn [fold_right In].
  - intros [<- | []]. lia.
  - intros [<- | [<- | H]].
    + assert (d0 <= fold_right Z.max d0 t) by (apply IH; now left). lia.
    + lia.
    + assert (d <= fold_right Z.max d0 t) by (apply IH; now right). lia.
Qed.

Lemma week_bins_In (idx : list Z) (w : Z) :
  In w (week_bins idx) ->
  weekday w = 6 /\ exists d, In d idx /\ week_end d <= w.
Proof.
  destruct idx as [| d0 t]; [intros [] |].
  unfold week_bins. intros H. apply in_map_iff in H.
  destruct H as (k & <- & _).
  assert (M : exists m, In m (d0 :: t) /\ fold_right Z.min d0 t = m).
  { clear. induction t as [| x t (m & Hm & E)]; cbn [fold_right].
    - exists d0. split; [now left | reflexivity].
    - rewrite E. destruct (Z.min_spec x m) as [[_ ->] | [_ ->]].
      + exists x. split; [right; now left | reflexivity].
      + exists m. split; [| reflexivity].
        destruct Hm as [<- | Hm]; [now left | right; now right]. }
  destruct M as (m & Hm & ->). split.
  - pose proof (week_end_sunday m) as S. unfold weekday in *.
    Z.div_mod_to_equations. lia.
  - exists m. split; [exact Hm | lia].
Qed.

Lemma week_bins_covers (idx : list Z) (d : Z) :
  In d idx -> In (week_end d) (week_bins idx).
Proof.
  destruct idx as [| d0 t]; [intros [] |]. intros H.
  unfold week_bins.
  set (lo := fold_right Z.min d0 t). set (hi := fold_right Z.max d0 t).
  assert (L : lo <= d) by (apply fold_min_le, H).
  assert (U : d <= hi) by (apply fold_max_ge, H).
  destruct (week_end_step lo d L) as (k & K0 & E).
  pose proof (week_end_mono d hi U) as M.
  apply in_map_iff. exists (Z.to_nat k). split.
  - rewrite Z2Nat.id by exact K0. lia.
  - apply in_seq. split; [lia |]. cbn [Nat.add].
    apply Nat.lt_succ_r. apply Z2Nat.inj_le; [lia | |].
    + apply Z.div_pos; lia.
    + apply Z.div_le_lower_bound; lia.
Qed.

Lemma fsum_Fin (qs : list Q) :
  exists q, fold_right fadd (Fin 0) (map Fin qs) = Fin q /\ (q == Qsum qs)%Q.
Proof.
  induction qs as [| a qs (q & E & H)]; cbn [map fold_right Qsum].
  - exists 0%Q. split; reflexivity.
  - rewrite E. cbn [fadd]. eexists. split; [reflexivity |].
    unfold Qsum in H. rewrite Qred_correct, H. reflexivity.
Qed.

Lemma filter_notna_finite (l : list float) :
  Forall (fun x => isinf x = false) l ->
  filter notna l = map Fin (finite_values l).
Proof.
  unfold finite_values.
  induction 1 as [| x l Hx _ IH]; [reflexivity |].
  cbn [filter flat_map]. rewrite map_app, IH.
  destruct x; try discriminate; reflexivity.
Qed.

Lemma nanmean_spec (l : list float) :
  Forall (fun x => isinf x = false) l ->
  (finite_values l = [] /\ nanmean l = NaN)
  \/ (finite_values l <> []
      /\ exists m, nanmean l = Fin m
                   /\ (m == Qsum (finite_values l)
                            / inject_Z (Z.of_nat
                                          (List.length (finite_values l))))%Q).
Proof.
  intros H. unfold nanmean. rewrite (filter_notna_finite l H).
  destruct (finite_values l) as [| a t] eqn:E; [left; auto |].
  right. split; [discriminate |].
  destruct (fsum_Fin (a :: t)) as (q & Eq & Hq).
  change (match map Fin (a :: t) with
          | [] => NaN
          | _ :: _ =>
              fdiv (fold_right fadd (Fin 0) (map Fin (a :: t)))
                   (Fin (inject_Z
                           (Z.of_nat (List.length (map Fin (a :: t))))))
          end)
    with (fdiv (fold_right fadd (Fin 0) (map Fin (a :: t)))
               (Fin (inject_Z (Z.of_nat (List.length (map Fin (a :: t))))))).
  rewrite Eq, length_map. cbn [fdiv].
  set (n := inject_Z (Z.of_nat (List.length (a :: t)))).
  assert (N : ~ (n == 0)%Q).
  { unfold n, Qeq. cbn [Qnum Qden inject_Z List.length]. lia. }
  destruct (Qeq_bool n 0) eqn:B; [apply Qeq_bool_eq in B; contradiction |].
  eexists. split; [reflexivity |].
  rewrite Qred_correct, Hq. reflexivity.
Qed.

Lemma find_map_named {V W : Type} (g : string * V -> W)
      (cols : list (string * V)) (c : string) :
  find (fun p => String.eqb (fst p) c) (map (fun x => (fst x, g x)) cols)
  = option_map (fun x => (fst x, g x))
               (find (fun p => String.eqb (fst p) c) cols).
Proof.
  induction cols as [| x t IH]; [reflexivity |].
  cbn [map find fst]. destruct (String.eqb (fst x) c); [reflexivity | exact IH].
Qed.

(** C4.  [resample("W").mean()] on the acceleration frame: every sample
    date falls into a bin of the result, the one labelled by the Sunday
    that closes its calendar week; every label is a Sunday and its bin
    holds exactly the dates of that week; the value of a week in a column
    is the mean of the defined samples of that week, and NaN (not zero)
    when the week has none.  Samples 1.5 and 2.5 of one week give 2. *)
Theorem weekly_resample_mean (accel : DataFrame) :
  (forall d, In d (index accel) ->
             In (week_end d) (index (plot_weekly_acceleration accel)))
  /\ (forall w, In w (index (plot_weekly_acceleration accel)) ->
                weekday w = 6
                /\ forall d, in_bin w d = true <-> week_end d = w)
  /\ (forall w c ser,
         In w (index (plot_weekly_acceleration accel)) ->
         column accel c = Some ser ->
         loc (plot_weekly_acceleration accel) w c
         = Some (nanmean (map snd (filter (fun p => week_end (fst p) =? w)
                                          ser))))
  /\ (forall samples : list float,
         Forall (fun x => isinf x = false) samples ->
         (finite_values samples = [] /\ nanmean samples = NaN)
         \/ (finite_values samples <> []
             /\ exists m,
                 nanmean samples = Fin m
                 /\ (m == Qsum (finite_values samples)
                          / inject_Z (Z.of_nat
                               (List.length (finite_values samples))))%Q))
  /\ nanmean [Fin (3 # 2); Fin (5 # 2)] = Fin 2
  /\ nanmean [Fin (3 # 2); NaN; Fin (5 # 2)] = Fin 2
  /\ nanmean [NaN; NaN] = NaN.
Proof.
  unfold plot_weekly_acceleration.
  split; [intros d H; apply week_bins_covers, H |].
  split.
  { intros w H. cbn [resample_W_mean index] in H.
    apply week_bins_In in H. destruct H as [S _].
    split; [exact S |]. intros d. now apply in_bin_week_end. }
  split.
  { intros w c ser Hw Hc. unfold loc, column.
    unfold resample_W_mean at 1. cbn [columns].
    rewrite (find_map_named
               (fun c0 : string * Series =>
                  map (fun w0 =>
                         (w0, nanmean (map snd
                                         (filter (fun p => in_bin w0 (fst p))
                                                 (snd c0)))))
                      (week_bins (index accel)))).
    unfold column in Hc.
    destruct (find (fun p => String.eqb (fst p) c) (columns accel))
      as [[c' ser'] |]; [| discriminate].
    cbn [option_map snd] in *. injection Hc as ->.
    pose proof Hw as Hw'. cbn [resample_W_mean index] in Hw'.
    rewrite (proj2 (existsb_eqb_In Z.eqb Z_eqb_iff _ _) Hw).
    cbn [resample_W_mean index].
    rewrite s_get_tabulate_all.
    rewrite (proj2 (existsb_eqb_In Z.eqb Z_eqb_iff _ _) Hw').
    f_equal. f_equal. f_equal. apply filter_ext. intros p.
    apply week_bins_In in Hw'. destruct Hw' as [S _].
    pose proof (in_bin_week_end w (fst p) S) as I.
    destruct (in_bin w (fst p)); destruct (Z.eqb_spec (week_end (fst p)) w);
      intuition congruence. }
  split; [apply nanmean_spec |].
  repeat split; vm_compute; reflexivity.
Qed.

(** Two samples of one week, an empty week, and a week whose only sample
    is undefined. *)
Example weekly_sample :
  plot_weekly_acceleration
    (mkframe [12; 13; 27; 35]
       [(alt, [(12, Fin (3 # 2)); (13, Fin (5 # 2)); (27, Fin 4); (35, NaN)])])
  = mkframe [17; 24; 31; 38]
      [(alt, [(17, Fin 2); (24, NaN); (31, Fin 4); (38, NaN)])].
Proof. vm_compute. reflexivity. Qed.

(** ** The extended report without a baseline *)

Lemma unique_In (l : list string) (z : string) :
  In z (unique String.eqb l) <-> In z l.
Proof. apply (unique_In_eqb String.eqb String.eqb_eq). Qed.

Lemma NoDup_unique (l : list string) : NoDup (unique String.eqb l).
Proof. apply (NoDup_unique_eqb String.eqb String.eqb_eq). Qed.

Lemma scenarios_iff (df : Report.frame) (s : option string) :
  In s (Report.scenarios df) <-> In s (map Report.scenario df).
Proof. apply (unique_In_eqb Report.same_label same_label_eq). Qed.

Lemma scenarios_NoDup (df : Report.frame) : NoDup (Report.scenarios df).
Proof. apply (NoDup_unique_eqb Report.same_label same_label_eq). Qed.

Lemma label_eq_true (a b : option string) :
  Report.label_eq a b = true <-> a = b /\ a <> None.
Proof.
  destruct a as [x |], b as [y |]; cbn; split;
    try discriminate; try (intros [E N]; congruence).
  - intros H. apply String.eqb_eq in H. subst. split; [reflexivity |].
    discriminate.
  - intros [E _]. injection E as ->. apply String.eqb_refl.
Qed.

Lemma not_base_false (s : option string) :
  Report.not_base s = false <-> s = Some Report.base.
Proof.
  unfold Report.not_base. rewrite negb_false_iff, label_eq_true.
  split; [tauto |]. intros ->. split; [reflexivity | discriminate].
Qed.

Lemma select_absent (df : Report.frame) (s : option string) :
  ~ In s (map Report.scenario df) -> Report.select df s = [].
Proof.
  intros H. unfold Report.select.
  induction df as [| r df IH]; [reflexivity |].
  cbn [filter]. destruct (Report.label_eq (Report.scenario r) s) eqn:E.
  - apply label_eq_true in E. elim H. left. tauto.
  - apply IH. intros K. apply H. now right.
Qed.

Lemma improvement_nan (x : float) : Report.improvement NaN x = NaN.
Proof. reflexivity. Qed.

Lemma lookup_tabulate (f : option string -> Report.stat)
      (l : list (option string)) (s : option string) :
  Report.lookup (map (fun x => (x, f x)) l) s
  = if existsb (Report.same_label s) l then Some (f s) else None.
Proof.
  unfold Report.lookup.
  rewrite (find_tabulate_all Report.same_label same_label_eq).
  destruct (existsb (Report.same_label s) l); reflexivity.
Qed.

Lemma baseline_present (df : Report.frame) :
  existsb (Report.same_label (Some Report.base)) (Report.scenarios df) = true
  <-> In (Some Report.base) (map Report.scenario df).
Proof.
  rewrite (existsb_eqb_In Report.same_label same_label_eq).
  apply scenarios_iff.
Qed.

Lemma calculate_statistics_no_baseline (df : Report.frame) :
  ~ In (Some Report.base) (map Report.scenario df) ->
  Report.calculate_statistics df
  = map (fun s => (s, Report.base_stat df s)) (Report.scenarios df).
Proof.
  intros H. unfold Report.calculate_statistics. rewrite lookup_tabulate.
  destruct (existsb _ _) eqn:E; [| reflexivity].
  apply baseline_present in E. contradiction.
Qed.

Lemma calculate_statistics_with_baseline (df : Report.frame) :
  In (Some Report.base) (map Report.scenario df) ->
  Report.calculate_statistics df
  = map (fun s =>
           if Report.not_base s then
             (s, Report.mkstat
                   (List.length (Report.select df s))
                   (Report.series_mean (Report.select df s))
                   (Qred (Qsum (observations
                                  (map Report.minutes (Report.select df s)))))
                   (Some (Report.improvement
                            (Report.series_mean
                               (Report.select df (Some Report.base)))
                            (Report.series_mean (Report.select df s))))
                   (Some (fmul (fsub (Report.series_mean
                                        (Report.select df (Some Report.base)))
                                     (Report.series_mean
                                        (Report.select df s)))
                               (Fin (inject_Z
                                       (Z.of_nat
                                          (List.length
                                             (Report.select df s))))))))
           else (s, Report.base_stat df s))
        (Report.scenarios df).
Proof.
  intros H. unfold Report.calculate_statistics. rewrite lookup_tabulate.
  rewrite (proj2 (baseline_present df) H).
  rewrite map_map. apply map_ext. intros s. cbn [fst snd].
  destruct (Report.not_base s); reflexivity.
Qed.

Lemma calculate_statistics_keys (df : Report.frame) :
  map fst (Report.calculate_statistics df) = Report.scenarios df.
Proof.
  unfold Report.calculate_statistics.
  destruct (Report.lookup _ (Some Report.base)) as [b |]; rewrite ?map_map;
    cbn [fst]; rewrite <- (map_id (Report.scenarios df)) at 2;
    apply map_ext; intros s; cbn [fst];
    try destruct (Report.not_base s); reflexivity.
Qed.

Lemma all_labelled (df : Report.frame) :
  forallb is_some (Report.scenarios df)
  = forallb is_some (map Report.scenario df).
Proof.
  apply eq_iff_eq_true. rewrite !forallb_forall.
  split; intros H x Hx; apply H; apply scenarios_iff; exact Hx.
Qed.

(** The table as a whole: every row when each key is a label, TypeError
    otherwise. *)
Lemma statistics_table_rows (format_1f : float -> string)
      (stats : list (option string * Report.stat)) :
  Report.statistics_table format_1f stats
  = if forallb (fun p => is_some (fst p)) stats
    then Ok (flat_map
               (fun p => match fst p with
                         | Some s =>
                             [(s, Report.improvement_cell format_1f (snd p))]
                         | None => []
                         end) stats)
    else Raise Report.TypeError.
Proof.
  induction stats as [| [[s |] st] t IH]; [reflexivity | | reflexivity].
  cbn [Report.statistics_table forallb fst snd is_some andb flat_map app].
  rewrite IH. destruct (forallb _ t); reflexivity.
Qed.

Lemma statistics_table_zero (format_1f : float -> string)
      (g : option string -> Report.stat) (l : list (option string)) :
  (forall s, Report.improvement_pct (g s) = None) ->
  Report.statistics_table format_1f (map (fun s => (s, g s)) l)
  = if forallb is_some l
    then Ok (map (fun s => (s, (format_1f (Fin 0) ++ "%")%string))
                 (Report.present l))
    else Raise Report.TypeError.
Proof.
  intros H. unfold Report.present.
  induction l as [| [s |] t IH]; [reflexivity | | reflexivity].
  cbn [map Report.statistics_table forallb is_some andb flat_map app].
  rewrite IH. destruct (forallb is_some t); [| reflexivity].
  unfold Report.improvement_cell. rewrite H. reflexivity.
Qed.

Lemma table_keys (format_1f : float -> string)
      (stats : list (option string * Report.stat)) :
  forallb (fun p => is_some (fst p)) stats = true ->
  map Some (map fst
              (flat_map
                 (fun p => match fst p with
                           | Some s =>
                               [(s, Report.improvement_cell format_1f (snd p))]
                           | None => []
                           end) stats))
  = map fst stats.
Proof.
  induction stats as [| [[s |] st] t IH]; [reflexivity | | discriminate].
  cbn [forallb fst snd is_some andb flat_map app map]. intros H.
  now rewrite IH.
Qed.

(** C10.  The report stage does not check that the baseline is there.
    Without baseline rows the mean of the baseline selection is NaN,
    [chart_19_improvement_bars] hands one bar per scenario of the frame to
    the plot, each of height NaN, [calculate_statistics] has one entry per
    scenario and none with an improvement, and the table has one row per
    scenario, each rendering the number 0 followed by a percent sign.
    With baseline rows the baseline has its entry, without an improvement,
    and its row of the table renders 0 as well.  In either case, when
    every row of the frame has a scenario, the table has exactly one row
    per scenario of the frame and every entry without an improvement is
    rendered as 0; a row without a scenario makes the table raise
    TypeError. *)
Theorem report_without_baseline (format_1f : float -> string)
        (df : Report.frame) :
  let stats := Report.calculate_statistics df in
  let zero := (format_1f (Fin 0) ++ "%")%string in
  let labelled := forallb is_some (map Report.scenario df) in
  (~ In (Some Report.base) (map Report.scenario df) ->
   Report.series_mean (Report.select df (Some Report.base)) = NaN
   /\ Report.chart_19_improvement_bars df
      = map (fun s => (s, NaN)) (Report.scenarios df)
   /\ stats = map (fun s => (s, Report.base_stat df s)) (Report.scenarios df)
   /\ Report.statistics_table format_1f stats
      = if labelled
        then Ok (map (fun s => (s, zero))
                     (Report.present (Report.scenarios df)))
        else Raise Report.TypeError)
  /\ (In (Some Report.base) (map Report.scenario df) ->
      forall st, In (Some Report.base, st) stats
                 <-> st = Report.base_stat df (Some Report.base))
  /\ (labelled = true ->
      exists rows,
        Report.statistics_table format_1f stats = Ok rows
        /\ map Some (map fst rows) = Report.scenarios df
        /\ (forall s st,
               In (Some s, st) stats -> Report.improvement_pct st = None ->
               In (s, zero) rows)
        /\ (In (Some Report.base) (map Report.scenario df) ->
            In (Report.base, zero) rows))
  /\ (labelled = false ->
      Report.statistics_table format_1f stats = Raise Report.TypeError)
  /\ NoDup (Report.scenarios df)
  /\ (forall s, In s (Report.scenarios df) <-> In s (map Report.scenario df)).
Proof.
  intros stats zero labelled.
  assert (L : forallb (fun p => is_some (fst p)) stats = labelled).
  { unfold labelled. rewrite <- all_labelled.
    rewrite <- (calculate_statistics_keys df). fold stats.
    clearbody stats. induction stats as [| p t IH]; [reflexivity |].
    cbn [forallb map]. now rewrite IH. }
  assert (B : In (Some Report.base) (map Report.scenario df) ->
              forall st, In (Some Report.base, st) stats
                         <-> st = Report.base_stat df (Some Report.base)).
  { intros H st. unfold stats.
    rewrite (calculate_statistics_with_baseline df H), in_map_iff. split.
    - intros (s & E & _). destruct (Report.not_base s) eqn:N.
      + injection E as -> _. discriminate.
      + now injection E as -> <-.
    - intros ->. exists (Some Report.base). split; [reflexivity |].
      now apply scenarios_iff. }
  split; [| split; [exact B | split; [| split; [| split]]]].
  - intros H. rewrite (select_absent df (Some Report.base) H).
    split; [reflexivity |]. split; [| split].
    + unfold Report.chart_19_improvement_bars.
      rewrite (select_absent df (Some Report.base) H).
      change (Report.series_mean []) with NaN.
      assert (K : forall s, In s (Report.scenarios df) ->
                            Report.not_base s = true).
      { intros s Hs. destruct (Report.not_base s) eqn:E; [reflexivity |].
        apply not_base_false in E. subst s.
        apply scenarios_iff in Hs. contradiction. }
      induction (Report.scenarios df) as [| s l IH]; [reflexivity |].
      cbn [flat_map map]. rewrite (K s (or_introl eq_refl)).
      cbn [app]. rewrite IH; [reflexivity |].
      intros s' Hs'. apply K. now right.
    + apply calculate_statistics_no_baseline, H.
    + unfold stats, labelled.
      rewrite (calculate_statistics_no_baseline df H), <- all_labelled.
      apply statistics_table_zero. reflexivity.
  - intros E. rewrite statistics_table_rows, L, E.
    eexists. split; [reflexivity |].
    assert (Z0 : forall s st,
               In (Some s, st) stats -> Report.improvement_pct st = None ->
               In (s, zero)
                  (flat_map
                     (fun p => match fst p with
                               | Some s =>
                                   [(s, Report.improvement_cell format_1f
                                                                (snd p))]
                               | None => []
                               end) stats)).
    { intros s st Hin Hnone. apply in_flat_map. exists (Some s, st).
      split; [exact Hin |]. cbn [fst snd]. left.
      unfold Report.improvement_cell. now rewrite Hnone. }
    split; [| split; [exact Z0 |]].
    + rewrite table_keys by (rewrite L; exact E).
      apply calculate_statistics_keys.
    + intros H.
      apply (Z0 Report.base (Report.base_stat df (Some Report.base)));
        [now apply (B H) | reflexivity].
  - intros E. now rewrite statistics_table_rows, L, E.
  - apply scenarios_NoDup.
  - apply scenarios_iff.
Qed.

Example report_without_baseline_sample :
  Report.chart_19_improvement_bars Report.without_baseline
  = [(Some Report.alt, NaN)]
  /\ Report.statistics_table Report.format_1f_exact
       (Report.calculate_statistics Report.without_baseline)
     = Ok [(Report.alt, "0.0%")].
Proof. split; vm_compute; reflexivity. Qed.

Example report_with_baseline_sample :
  Report.chart_19_improvement_bars Report.with_baseline
  = [(Some Report.alt, Fin 50)]
  /\ Report.statistics_table Report.format_1f_exact
       (Report.calculate_statistics Report.with_baseline)
     = Ok [(Report.base, "0.0%"); (Report.alt, "50.0%")]
  /\ Report.statistics_table Report.format_1f_exact
       (Report.calculate_statistics Report.with_gaps)
     = Raise Report.TypeError.
Proof. repeat split; vm_compute; reflexivity. Qed.

(** * Further properties of the extractor *)

Lemma digit_inj (a b : Z) : digit a = digit b -> a mod 10 = b mod 10.
Proof.
  unfold digit. intros H.
  apply (f_equal nat_of_ascii) in H.
  pose proof (Z.mod_pos_bound a 10). pose proof (Z.mod_pos_bound b 10).
  rewrite !nat_ascii_embedding in H by lia. lia.
Qed.

Lemma strftime_ymd_inj (a b : Extract.date) :
  four_digit_year a -> four_digit_year b ->
  strftime_ymd a = strftime_ymd b -> a = b.
Proof.
  intros (Ya & Ma & Da) (Yb & Mb & Db) H.
  destruct a as [ya ma da], b as [yb mb db]. cbn [year month day] in *.
  unfold strftime_ymd, zfill4, zfill2 in H.
  cbn [year month day append] in H.
  injection H as H1 H2 H3 H4 H5 H6 H7 H8.
  apply digit_inj in H1, H2, H3, H4, H5, H6, H7, H8.
  f_equal; Z.div_mod_to_equations; lia.
Qed.

Lemma StronglySorted_map_iff {A B : Type} (R : B -> B -> Prop) (f : A -> B)
      (l : list A) :
  StronglySorted R (map f l) <-> StronglySorted (fun x y => R (f x) (f y)) l.
Proof.
  induction l as [| x l IH]; cbn [map].
  - split; constructor.
  - split; intros H; inversion H as [| ? ? S F]; subst; constructor;
      try (apply IH; exact S).
    + rewrite Forall_forall in *. intros y Hy. apply F, in_map, Hy.
    + rewrite Forall_forall in *. intros y Hy. apply in_map_iff in Hy.
      destruct Hy as (z & <- & Hz). apply F, Hz.
Qed.

Lemma StronglySorted_weaken {A : Type} (R S : A -> A -> Prop) (l : list A) :
  (forall x y, In x l -> In y l -> R x y -> S x y) ->
  StronglySorted R l -> StronglySorted S l.
Proof.
  intros H. induction 1 as [| x l Hs IH F]; constructor.
  - apply IH. intros a b Ha Hb. apply H; now right.
  - rewrite Forall_forall in *. intros y Hy.
    apply H; [now left | now right | apply F, Hy].
Qed.

Ltac date_order :=
  repeat match goal with
         | H : date_le _ _ |- _ => destruct H as [H | H]; [| subst]
         end;
  unfold date_lt, bound1, bound2 in *; cbn [year month day] in *;
  first [lia | match goal with
               | H : @eq Extract.date _ _ |- _ => discriminate H
               end].

Lemma assign_scenario_mono (a b : Extract.date) :
  date_le a b ->
  (assign_scenario b = Tipovoy -> assign_scenario a = Tipovoy)
  /\ (assign_scenario a = BezDubleyParallel ->
      assign_scenario b = BezDubleyParallel).
Proof.
  intros L.
  destruct labels_distinct as (D12 & D13 & D23).
  destruct (assign_scenario_cases a)
    as [(La & Ea) | [(Ga & La & Ea) | (Ga & Ea)]];
    destruct (assign_scenario_cases b)
      as [(Lb & Eb) | [(Gb & Lb & Eb) | (Gb & Eb)]];
    rewrite Ea, Eb; split; intros E;
    first [reflexivity | congruence | exfalso; date_order].
Qed.

Lemma flat_map_ext_In {A B : Type} (f g : A -> list B) (l : list A) :
  (forall a, In a l -> f a = g a) -> flat_map f l = flat_map g l.
Proof.
  intros H. induction l as [| a l IH]; [reflexivity |].
  cbn [flat_map]. rewrite (H a (or_introl eq_refl)), IH; [reflexivity |].
  intros b Hb. apply H. now right.
Qed.

Lemma map_flat_map {A B C : Type} (g : B -> C) (f : A -> list B)
      (l : list A) :
  map g (flat_map f l) = flat_map (fun a => map g (f a)) l.
Proof.
  induction l as [| a l IH]; [reflexivity |].
  cbn [flat_map]. now rewrite map_app, IH.
Qed.

(** Grouping by a key splits a list: the groups of the distinct keys,
    one after the other, are a permutation of the list. *)
Section Grouping.
Context {A K : Type} (key : A -> K) (eqb : K -> K -> bool).
Hypothesis eqb_eq : forall x y, eqb x y = true <-> x = y.

Lemma filter_split_perm (P : A -> bool) (l : list A) :
  Permutation (filter P l ++ filter (fun x => negb (P x)) l) l.
Proof.
  induction l as [| x l IH]; cbn [filter]; [constructor |].
  destruct (P x); cbn [negb app].
  - now constructor.
  - apply Permutation_sym, Permutation_cons_app, Permutation_sym, IH.
Qed.

Lemma filter_filter_imp (P Q : A -> bool) (l : list A) :
  (forall x, In x l -> P x = true -> Q x = true) ->
  filter P (filter Q l) = filter P l.
Proof.
  intros H. induction l as [| x l IH]; [reflexivity |].
  cbn [filter]. destruct (Q x) eqn:EQ; cbn [filter].
  - rewrite IH; [reflexivity |]. intros y Hy. apply H. now right.
  - destruct (P x) eqn:EP.
    + rewrite (H x (or_introl eq_refl) EP) in EQ. discriminate.
    + apply IH. intros y Hy. apply H. now right.
Qed.

Lemma group_partition (keys : list K) (l : list A) :
  NoDup keys -> (forall x, In x l -> In (key x) keys) ->
  Permutation (flat_map (fun k => filter (fun x => eqb (key x) k) l) keys) l.
Proof.
  intros N. revert l. induction N as [| k ks Hk N IH]; intros l H.
  - destruct l as [| x l]; [constructor |]. destruct (H x). now left.
  - cbn [flat_map].
    set (l2 := filter (fun x => negb (eqb (key x) k)) l).
    assert (E : flat_map (fun k0 => filter (fun x => eqb (key x) k0) l) ks
                = flat_map (fun k0 => filter (fun x => eqb (key x) k0) l2) ks).
    { apply flat_map_ext_In. intros k' Hk'. unfold l2. symmetry.
      apply filter_filter_imp. intros x _ Ex. apply eqb_eq in Ex.
      apply negb_true_iff. destruct (eqb (key x) k) eqn:Ek; [| reflexivity].
      apply eqb_eq in Ek. congruence. }
    rewrite E.
    apply Permutation_trans
      with (filter (fun x => eqb (key x) k) l ++ l2);
      [| apply filter_split_perm].
    apply Permutation_app_head. apply IH.
    intros x Hx. unfold l2 in Hx. apply filter_In in Hx.
    destruct Hx as [Hx Nx]. destruct (H x Hx) as [E1 | Hin]; [| exact Hin].
    rewrite (proj2 (eqb_eq (key x) k) (eq_sym E1)) in Nx. discriminate.
Qed.
End Grouping.

Lemma Qsum_app (l1 l2 : list Q) : (Qsum (l1 ++ l2) == Qsum l1 + Qsum l2)%Q.
Proof.
  induction l1 as [| x l1 IH]; cbn [app Qsum fold_right].
  - now rewrite Qplus_0_l.
  - fold (Qsum (l1 ++ l2)). fold (Qsum l1). rewrite IH. apply Qplus_assoc.
Qed.

Lemma Qsum_perm (l1 l2 : list Q) :
  Permutation l1 l2 -> (Qsum l1 == Qsum l2)%Q.
Proof.
  induction 1 as [| x l1 l2 _ IH | x y l | l1 l2 l3 _ IH1 _ IH2];
    cbn [Qsum fold_right].
  - reflexivity.
  - fold (Qsum l1). fold (Qsum l2). now rewrite IH.
  - fold (Qsum l). rewrite !Qplus_assoc. now rewrite (Qplus_comm y x).
  - now rewrite IH1.
Qed.


Lemma wrap64_mod (z : Z) : wrap64 z mod 2 ^ 64 = z mod 2 ^ 64.
Proof.
  unfold wrap64.
  change (2 ^ 63) with 9223372036854775808.
  change (2 ^ 64) with 18446744073709551616.
  Z.div_mod_to_equations. lia.
Qed.

Lemma wrap64_eq (a b : Z) : a mod 2 ^ 64 = b mod 2 ^ 64 -> wrap64 a = wrap64 b.
Proof.
  intros H. unfold wrap64. f_equal.
  rewrite (Z.add_mod a), (Z.add_mod b), H by (apply Z.pow_nonzero; lia).
  reflexivity.
Qed.

Lemma wrap64_add (a a' b b' : Z) :
  wrap64 a = wrap64 a' -> wrap64 b = wrap64 b' ->
  wrap64 (a + b) = wrap64 (a' + b').
Proof.
  intros Ha Hb. apply wrap64_eq.
  apply (f_equal (fun z => z mod 2 ^ 64)) in Ha, Hb.
  rewrite !wrap64_mod in Ha, Hb.
  rewrite (Z.add_mod a), (Z.add_mod a'), Ha, Hb by (apply Z.pow_nonzero; lia).
  reflexivity.
Qed.

Lemma wrap64_idem (z : Z) : wrap64 (wrap64 z) = wrap64 z.
Proof. apply wrap64_eq, wrap64_mod. Qed.

Lemma Zsum_app (l1 l2 : list Z) : Zsum (l1 ++ l2) = Zsum l1 + Zsum l2.
Proof.
  induction l1 as [| x l1 IH]; cbn [app Zsum fold_right]; [reflexivity |].
  fold (Zsum (l1 ++ l2)). fold (Zsum l1). lia.
Qed.

Lemma Zsum_perm (l1 l2 : list Z) : Permutation l1 l2 -> Zsum l1 = Zsum l2.
Proof.
  induction 1 as [| x l1 l2 _ IH | x y l | l1 l2 l3 _ IH1 _ IH2];
    cbn [Zsum fold_right]; try fold (Zsum l1); try fold (Zsum l2);
    try fold (Zsum l); lia.
Qed.

(** Adding up wrapped group sums gives, wrapped, the sum of everything. *)
Lemma wrap64_group_sums {A : Type} (f : A -> list Z) (l : list A) :
  wrap64 (Zsum (map (fun a => wrap64 (Zsum (f a))) l))
  = wrap64 (Zsum (flat_map f l)).
Proof.
  induction l as [| a l IH]; [reflexivity |].
  cbn [map flat_map Zsum fold_right]. rewrite Zsum_app.
  fold (Zsum (map (fun a => wrap64 (Zsum (f a))) l)).
  apply wrap64_add; [apply wrap64_idem | exact IH].
Qed.

(** The finite value of a float, 0 for what is not finite. *)
Lemma fsum_finite (l : list float) :
  (forall x, In x l -> exists q, x = Fin q) ->
  exists m,
    fsum l = Fin m
    /\ (m == Qsum (map (fun x => match x with Fin q => q | _ => 0 end) l))%Q.
Proof.
  intros H.
  set (qs := map (fun x => match x with Fin q => q | _ => 0%Q end) l).
  assert (E : l = map Fin qs).
  { unfold qs. clear qs.
    induction l as [| x l IH]; [reflexivity |]. cbn [map].
    destruct (H x (or_introl eq_refl)) as (q & ->). f_equal.
    apply IH. intros y Hy. apply H. now right. }
  clearbody qs. subst l. apply fsum_fin.
Qed.

Section ExtractorOrder.
Variable to_datetime : string -> option datetime.
Variable to_numeric : string -> option number.
Local Abbreviation parsed_rows := (Extract.parsed_rows to_datetime to_numeric).
Local Abbreviation survives := (Extract.survives to_datetime to_numeric).
Local Abbreviation int_column := (Extract.int_column to_datetime to_numeric).
Local Abbreviation daily_totals :=
  (Extract.daily_totals to_datetime to_numeric).
Local Abbreviation all_durations :=
  (Extract.all_durations to_datetime to_numeric).
Local Abbreviation extract := (Extract.extract to_datetime to_numeric).

Lemma all_durations_parsed (rs : list (list cell)) :
  map snd (parsed_rows rs)
  = map (as_column (int_column rs)) (all_durations rs).
Proof.
  rewrite parsed_rows_survives. generalize (int_column rs) as b. intros b.
  unfold Extract.all_durations.
  induction rs as [| r rs IH]; [reflexivity |].
  cbn [flat_map]. rewrite !map_app, IH. f_equal.
  destruct (survives r); reflexivity.
Qed.

(** X2.  Where the dates parsed from the document have four-digit years,
    [extract] returns its rows in strictly increasing date order, no two
    rows carry the same date text (the store holds at most one row per
    day), and the scenarios follow each other in blocks: no row of the
    first scenario stands below a row of another one, no row of the last
    scenario above. *)
Theorem extract_rows_in_date_order (tables : list table) (t : table) :
  nth_error tables 3 = Some t -> ncols t = 7%nat ->
  (forall r d q, In r (rows t) -> survives r = Some (d, q) ->
                 four_digit_year d) ->
  exists daily : list (Extract.date * number),
    extract (Some tables) = Ok (map daily_row daily)
    /\ StronglySorted (fun a b => date_lt (fst a) (fst b)) daily
    /\ NoDup (map date_str (map daily_row daily))
    /\ StronglySorted scenario_order (map daily_row daily).
Proof.
  intros Ht Hc Hv. exists (daily_totals (rows t)).
  split; [now apply extract_table |].
  assert (S : StronglySorted (fun a b => date_lt (fst a) (fst b))
                             (daily_totals (rows t))).
  { apply (StronglySorted_map_iff date_lt fst).
    rewrite daily_totals_keys.
    eapply StronglySorted_weaken;
      [| apply (sort_uniq_sorted date_compare
                  (fun x y E => proj1 (date_compare_Eq x y) E)
                  date_compare_gt_lt date_compare_trans)].
    intros x y _ _ E. now apply date_compare_Lt. }
  split; [exact S |]. split.
  - rewrite map_map. cbn [daily_row date_str].
    rewrite <- (map_map fst strftime_ymd).
    apply NoDup_map_NoDup_ForallPairs; [| apply daily_totals_NoDup].
    intros a b Ha Hb E.
    apply daily_totals_days in Ha, Hb.
    destruct Ha as (ra & qa & Hra & Hsa). destruct Hb as (rb & qb & Hrb & Hsb).
    apply strftime_ymd_inj; eauto.
  - apply StronglySorted_map_iff.
    eapply StronglySorted_weaken; [| exact S].
    intros x y _ _ L. unfold scenario_order. cbn [daily_row Extract.scenario].
    apply assign_scenario_mono. now left.
Qed.

(** X3.  Grouping loses and adds nothing.  In an integer column the
    minutes of the rows [extract] returns add up, in 64-bit arithmetic, to
    the 64-bit sum of the parsed durations of all surviving rows; in a
    float column whose surviving durations are all finite, the minutes are
    finite and add up to the sum of those durations (in exact
    arithmetic). *)
Theorem extract_keeps_total (tables : list table) (t : table) :
  nth_error tables 3 = Some t -> ncols t = 7%nat ->
  exists out,
    extract (Some tables) = Ok out
    /\ (int_column (rows t) = true ->
        forallb is_int (map Extract.minutes out) = true
        /\ wrap64 (Zsum (map int_value (map Extract.minutes out)))
           = wrap64 (Zsum (map int_value (all_durations (rows t)))))
    /\ (int_column (rows t) = false ->
        forall qs, map astype_float (all_durations (rows t)) = map Fin qs ->
                   exists ms,
                     map Extract.minutes out = map (fun m => Flt (Fin m)) ms
                     /\ (Qsum ms == Qsum qs)%Q).
Proof.
  intros Ht Hc. exists (map daily_row (daily_totals (rows t))).
  split; [now apply extract_table |].
  replace (map Extract.minutes (map daily_row (daily_totals (rows t))))
    with (map snd (daily_totals (rows t)))
    by (rewrite map_map; reflexivity).
  set (l := parsed_rows (rows t)).
  set (days := sort_uniq date_compare (map fst l)).
  assert (P : Permutation
                (flat_map (fun d => filter (fun p => date_eqb (fst p) d) l)
                          days) l).
  { apply (group_partition fst date_eqb date_eqb_eq).
    - apply NoDup_sort_uniq.
      + intros x y. apply date_compare_Eq.
      + apply date_compare_refl.
      + apply date_compare_gt_lt.
      + apply date_compare_trans.
    - intros x Hx.
      apply (In_sort_uniq date_compare
               (fun a b E => proj1 (date_compare_Eq a b) E)).
      now apply in_map. }
  assert (K : forall b, int_column (rows t) = b ->
                map snd (daily_totals (rows t))
                = map (fun d => sum_numbers b
                                  (map snd (filter (fun p => date_eqb (fst p) d)
                                                   l))) days).
  { intros b E. unfold Extract.daily_totals, groupby_sum. cbv zeta.
    fold l. fold days. rewrite map_map. cbn [snd].
    destruct l as [| p l'] eqn:El; [reflexivity |].
    rewrite <- El.
    rewrite <- E. unfold l. rewrite parsed_rows_int64; [reflexivity |].
    fold l. rewrite El. discriminate. }
  split.
  - intros E. rewrite (K true E). cbn [sum_numbers]. split.
    { apply forallb_forall. intros n Hn. apply in_map_iff in Hn.
      destruct Hn as (d & <- & _). reflexivity. }
    rewrite map_map. cbn [int_value].
    rewrite (wrap64_group_sums
               (fun d => map int_value
                           (map snd (filter (fun p => date_eqb (fst p) d) l)))).
    f_equal.
    assert (Q : all_durations (rows t) = map snd l).
    { unfold l. rewrite all_durations_parsed, E.
      symmetry. apply map_id. }
    rewrite Q.
    rewrite <- (map_flat_map int_value), <- (map_flat_map snd).
    apply Zsum_perm, Permutation_map, Permutation_map, P.
  - intros E qs Hqs. rewrite (K false E). cbn [sum_numbers].
    assert (V : map astype_float (map snd l) = map Fin qs).
    { unfold l. rewrite all_durations_parsed, E, map_map.
      rewrite <- Hqs. apply map_ext. intros [z | x]; reflexivity. }
    set (val := fun x => match x with Fin q => q | _ => 0%Q end).
    set (grp := fun d => map astype_float
                           (map snd (filter (fun p => date_eqb (fst p) d) l))).
    assert (F : forall d x, In x (grp d) -> exists q, x = Fin q).
    { intros d x Hx. unfold grp in Hx. rewrite map_map in Hx.
      apply in_map_iff in Hx. destruct Hx as (p & <- & Hp).
      apply filter_In in Hp. destruct Hp as [Hp _].
      assert (Hv : In (astype_float (snd p)) (map astype_float (map snd l))).
      { rewrite map_map. apply in_map_iff. exists p. auto. }
      rewrite V in Hv. apply in_map_iff in Hv.
      destruct Hv as (q & <- & _). eauto. }
    exists (map (fun d => match fsum (grp d) with
                          | Fin m => m
                          | _ => 0%Q
                          end) days).
    split.
    + rewrite map_map. apply map_ext. intros d. fold (grp d).
      destruct (fsum_finite (grp d) (F d)) as (m & -> & _). reflexivity.
    + assert (G : (Qsum (map (fun d => match fsum (grp d) with
                                       | Fin m => m
                                       | _ => 0%Q
                                       end) days)
                   == Qsum (flat_map (fun d => map val (grp d)) days))%Q).
      { clear P K. induction days as [| d ds IH]; [reflexivity |].
        cbn [map flat_map Qsum fold_right]. rewrite Qsum_app.
        fold (Qsum (map (fun d => match fsum (grp d) with
                                  | Fin m => m
                                  | _ => 0%Q
                                  end) ds)).
        rewrite IH.
        destruct (fsum_finite (grp d) (F d)) as (m & -> & Hm).
        fold val in Hm. now rewrite Hm. }
      rewrite G.
      assert (Q : (Qsum qs == Qsum (map val (map astype_float (map snd l))))%Q).
      { rewrite V, map_map. cbn [val]. now rewrite map_id. }
      rewrite Q. apply Qsum_perm.
      unfold grp. rewrite <- (map_flat_map val).
      rewrite <- (map_flat_map astype_float), <- (map_flat_map snd).
      do 3 apply Permutation_map. exact P.
Qed.

End ExtractorOrder.

Lemma extract_rows_in_date_order_witness :
  exists daily : list (Extract.date * number),
    Extract.extract to_datetime_dmy to_numeric_int
                    (Some (document_of sample_rows))
    = Ok (map daily_row daily)
    /\ StronglySorted (fun a b => date_lt (fst a) (fst b)) daily
    /\ NoDup (map date_str (map daily_row daily))
    /\ StronglySorted scenario_order (map daily_row daily).
Proof.
  apply (extract_rows_in_date_order to_datetime_dmy to_numeric_int
           (document_of sample_rows) (mktable 7 sample_rows));
    try reflexivity.
  intros r d q H E. cbn [rows sample_rows In] in H.
  repeat (destruct H as [<- | H]; [vm_compute in E |]);
    try discriminate; try contradiction;
    injection E as <- _; unfold four_digit_year; cbn [year month day]; lia.
Defined.

Lemma extract_keeps_total_witness :
  exists out,
    Extract.extract to_datetime_dmy to_numeric_int
                    (Some (document_of integer_rows)) = Ok out
    /\ (Extract.int_column to_datetime_dmy to_numeric_int integer_rows = true ->
        forallb is_int (map Extract.minutes out) = true
        /\ wrap64 (Zsum (map int_value (map Extract.minutes out)))
           = wrap64 (Zsum (map int_value
                              (Extract.all_durations
                                 to_datetime_dmy to_numeric_int integer_rows))))
    /\ (Extract.int_column to_datetime_dmy to_numeric_int integer_rows = false ->
        forall qs,
          map astype_float
              (Extract.all_durations to_datetime_dmy to_numeric_int
                                     integer_rows) = map Fin qs ->
          exists ms,
            map Extract.minutes out = map (fun m => Flt (Fin m)) ms
            /\ (Qsum ms == Qsum qs)%Q).
Proof.
  apply (extract_keeps_total to_datetime_dmy to_numeric_int
           (document_of integer_rows) (mktable 7 integer_rows));
    reflexivity.
Defined.

(** * Further properties of the aggregator *)

Lemma StronglySorted_filter {A : Type} (R : A -> A -> Prop) (P : A -> bool)
      (l : list A) :
  StronglySorted R l -> StronglySorted R (filter P l).
Proof.
  induction 1 as [| x l S IH F]; cbn [filter]; [constructor |].
  destruct (P x); [| exact IH]. constructor; [exact IH |].
  rewrite Forall_forall in *. intros y Hy. apply filter_In in Hy.
  apply F, Hy.
Qed.

Lemma StronglySorted_NoDup {A : Type} (R : A -> A -> Prop) (l : list A) :
  (forall x, ~ R x x) -> StronglySorted R l -> NoDup l.
Proof.
  intros Irr. induction 1 as [| x l S IH F]; constructor; [| exact IH].
  intros Hx. rewrite Forall_forall in F. exact (Irr x (F x Hx)).
Qed.

Lemma string_compare_gt_lt (x y : string) :
  String.compare x y = Gt -> String.compare y x = Lt.
Proof.
  intros H. pose proof (String_as_OT.cmp_antisym y x) as A.
  unfold String_as_OT.cmp in A. rewrite H in A. exact A.
Qed.

Lemma string_compare_trans (x y z : string) :
  String.compare x y = Lt -> String.compare y z = Lt ->
  String.compare x z = Lt.
Proof.
  intros H1 H2. apply String_as_OT.cmp_lt.
  apply String_as_OT.lt_trans with y; now apply String_as_OT.cmp_lt.
Qed.

Lemma string_compare_irrefl (x : string) : String.compare x x <> Lt.
Proof.
  pose proof (proj2 (String_as_OT.cmp_eq x x) eq_refl) as E.
  unfold String_as_OT.cmp in E. rewrite E. discriminate.
Qed.

Lemma Z_compare_gt_lt (x y : Z) : (x ?= y) = Gt -> (y ?= x) = Lt.
Proof. rewrite Z.compare_gt_iff, Z.compare_lt_iff. trivial. Qed.

Lemma Z_compare_trans (x y z : Z) :
  (x ?= y) = Lt -> (y ?= z) = Lt -> (x ?= z) = Lt.
Proof. rewrite !Z.compare_lt_iff. lia. Qed.

Lemma labels_of_filtered (f : Z -> float) (g : Z -> bool) (l : list Z) :
  map fst (filter (fun p => g (fst p)) (map (fun d => (d, f d)) l))
  = filter g l.
Proof.
  induction l as [| d l IH]; [reflexivity |].
  cbn [map filter fst]. destruct (g d); cbn [map fst]; now rewrite IH.
Qed.

Lemma filter_mem_filter (P : Z -> bool) (l : list Z) :
  filter (fun d => existsb (Z.eqb d) (filter P l)) l = filter P l.
Proof.
  apply filter_ext_in. intros d Hd.
  destruct (P d) eqn:E.
  - apply (existsb_eqb_In Z.eqb Z_eqb_iff). apply filter_In. auto.
  - destruct (existsb (Z.eqb d) (filter P l)) eqn:X; [| reflexivity].
    apply (existsb_eqb_In Z.eqb Z_eqb_iff) in X. apply filter_In in X.
    destruct X as [_ X]. congruence.
Qed.

(** X6.  The frame [compute_acceleration] returns is well formed: its
    dates are dates of the data in strictly increasing order, its columns
    are the scenarios other than the baseline in strictly increasing
    order of their names (so no name twice, and never the baseline), and
    every column carries a value for exactly the dates of the index, in
    the order of the index. *)
Theorem acceleration_frame_well_formed (df : frame) (accel : DataFrame) :
  compute_acceleration df = Ok accel ->
  StronglySorted Z.lt (index accel)
  /\ (forall d, In d (index accel) -> In d (map Speed.date df))
  /\ StronglySorted (fun a b => String.compare a b = Lt)
                    (map fst (columns accel))
  /\ NoDup (map fst (columns accel))
  /\ (forall c, In c (map fst (columns accel))
                <-> In c (map Speed.scenario df) /\ c <> base_col)
  /\ (forall c ser, In (c, ser) (columns accel) ->
                    map fst ser = index accel).
Proof.
  intros H. apply compute_acceleration_inv in H. destruct H as (Hb & Ha & ->).
  assert (C : map fst (columns (accel_frame df)) = alternatives df).
  { unfold accel_frame. cbn [columns]. rewrite map_map. cbn [fst].
    apply map_id. }
  assert (SC : StronglySorted (fun a b => String.compare a b = Lt)
                              (alternatives df)).
  { unfold alternatives. apply StronglySorted_filter.
    apply (sort_uniq_sorted String.compare string_compare_eq
             string_compare_gt_lt string_compare_trans). }
  split.
  { unfold accel_frame. cbn [index]. apply StronglySorted_filter.
    eapply StronglySorted_weaken;
      [| apply (sort_uniq_sorted Z.compare Z_compare_eq
                  Z_compare_gt_lt Z_compare_trans)].
    intros x y _ _ E. now apply Z.compare_lt_iff. }
  split; [intros d Hd; now apply accel_index in Hd |].
  rewrite C. split; [exact SC |]. split.
  { eapply StronglySorted_NoDup; [| exact SC]. apply string_compare_irrefl. }
  split; [apply alternatives_In |].
  intros c ser Hin. unfold accel_frame in *. cbn [columns index] in *.
  apply in_map_iff in Hin. destruct Hin as (c' & E & _).
  injection E as <- <-.
  rewrite (labels_of_filtered
             (fun d => ratio df d c')
             (fun d => existsb (Z.eqb d)
                         (filter (fun d0 => existsb
                                    (fun c0 => notna (ratio df d0 c0))
                                    (alternatives df))
                                 (index (pivot_table df))))).
  apply filter_mem_filter.
Qed.

Lemma acceleration_frame_well_formed_witness :
  StronglySorted Z.lt (index (accel_frame sample_frame))
  /\ (forall d, In d (index (accel_frame sample_frame)) ->
                In d (map Speed.date sample_frame))
  /\ StronglySorted (fun a b => String.compare a b = Lt)
                    (map fst (columns (accel_frame sample_frame)))
  /\ NoDup (map fst (columns (accel_frame sample_frame)))
  /\ (forall c, In c (map fst (columns (accel_frame sample_frame)))
                <-> In c (map Speed.scenario sample_frame) /\ c <> base_col)
  /\ (forall c ser, In (c, ser) (columns (accel_frame sample_frame)) ->
                    map fst ser = index (accel_frame sample_frame)).
Proof.
  apply (acceleration_frame_well_formed sample_frame).
  vm_compute. reflexivity.
Defined.

Lemma window_at_In {A : Type} (w : nat) (l : list A) (i : nat) (x : A) :
  In x (window_at w l i) -> In x l.
Proof.
  unfold window_at. intros H.
  rewrite <- (firstn_skipn (i + 1) l). apply in_or_app. left.
  rewrite <- (firstn_skipn (i + 1 - w) (firstn (i + 1) l)).
  apply in_or_app. now right.
Qed.

(** X7.  On the loaded data, where no minutes are missing,
    [plot_rolling_avg] draws for every scenario of the frame a line with
    one point per row of the scenario, on the dates of the rows as
    [sort_values] orders them; its first two points and no others are
    undefined, and every later point is the mean of the minutes of the
    last 7 rows of the scenario up to that point (of all of them while
    there are fewer than 7). *)
Theorem rolling_avg_undefined_head (sort : sorter Speed.by_date) (df : frame)
        (s : string) :
  In s (map Speed.scenario df) ->
  let sub := sort (filter (fun r => String.eqb (Speed.scenario r) s) df) in
  exists ser : Series,
    In (s, ser) (plot_rolling_avg sort df 7)
    /\ map fst ser = map Speed.date sub
    /\ StronglySorted Z.le (map fst ser)
    /\ List.length ser = List.length sub
    /\ forall i, (i < List.length ser)%nat ->
         (snd (nth i ser (0, NaN)) = NaN <-> (i < 2)%nat)
         /\ ((2 <= i)%nat ->
             snd (nth i ser (0, NaN))
             = mean (map Speed.minutes (window_at 7 sub i))).
Proof.
  intros Hs sub.
  set (xs := map (fun r => Some (Speed.minutes r)) sub).
  exists (combine (map Speed.date sub) (rolling 7 3 mean xs)).
  destruct (rolling_line Speed.date (fun r => Some (Speed.minutes r))
                         sub 7 3 mean) as [E1 E2].
  fold xs in E1, E2.
  assert (Len : List.length (combine (map Speed.date sub)
                                     (rolling 7 3 mean xs))
                = List.length sub).
  { rewrite <- (length_map fst), E1. apply length_map. }
  split.
  { unfold plot_rolling_avg. apply in_map_iff. exists s.
    split; [reflexivity | now apply unique_In]. }
  split; [exact E1 |].
  split.
  { rewrite E1. apply StronglySorted_map_iff.
    apply (sort_values_sorted sort). }
  split; [exact Len |].
  intros i Hi. rewrite Len in Hi.
  assert (V : snd (nth i (combine (map Speed.date sub)
                                  (rolling 7 3 mean xs)) (0, NaN))
              = roll_at 7 3 mean xs i).
  { change NaN with (snd (0, NaN)) at 1. rewrite <- map_nth, E2.
    apply rolling_nth. unfold xs. now rewrite length_map. }
  rewrite V.
  destruct (roll_at_complete sub i Hi) as (_ & B & G). fold xs in B, G.
  destruct (Nat.lt_ge_cases i 2) as [Lt | Ge].
  - rewrite (B Lt). split; [tauto | lia].
  - destruct (G Ge) as [E N]. split; [| intros _; exact E].
    split; [intros M; now elim N | lia].
Qed.

Lemma rolling_avg_undefined_head_witness :
  let sub := Speed.stable_by_date
               (filter (fun r => String.eqb (Speed.scenario r) alt)
                       sample_frame) in
  exists ser : Series,
    In (alt, ser) (plot_rolling_avg Speed.stable_by_date sample_frame 7)
    /\ map fst ser = map Speed.date sub
    /\ StronglySorted Z.le (map fst ser)
    /\ List.length ser = List.length sub
    /\ forall i, (i < List.length ser)%nat ->
         (snd (nth i ser (0, NaN)) = NaN <-> (i < 2)%nat)
         /\ ((2 <= i)%nat ->
             snd (nth i ser (0, NaN))
             = mean (map Speed.minutes (window_at 7 sub i))).
Proof.
  apply (rolling_avg_undefined_head Speed.stable_by_date sample_frame alt).
  vm_compute. right. left. reflexivity.
Defined.

Lemma Qsum_bounds (l : list Q) (lo hi : Q) :
  (forall q, In q l -> lo <= q <= hi)%Q ->
  (lo * inject_Z (Z.of_nat (List.length l)) <= Qsum l
   /\ Qsum l <= hi * inject_Z (Z.of_nat (List.length l)))%Q.
Proof.
  induction l as [| x l IH]; intros H.
  - change (inject_Z (Z.of_nat (List.length (@nil Q)))) with 0%Q.
    change (Qsum []) with 0%Q. split; lra.
  - cbn [List.length Qsum fold_right]. fold (Qsum l).
    rewrite Nat2Z.inj_succ. unfold Z.succ. rewrite inject_Z_plus.
    destruct (H x (or_introl eq_refl)) as [H1 H2].
    destruct IH as [I1 I2]; [intros q Hq; apply H; now right |].
    change (inject_Z 1) with 1%Q. split; lra.
Qed.

Lemma mean_nonempty (l : list Q) :
  l <> [] ->
  mean l = Fin (Qred (Qsum l / inject_Z (Z.of_nat (List.length l)))).
Proof. destruct l; [intros N; now elim N | reflexivity]. Qed.

Lemma mean_bounds (l : list Q) (lo hi m : Q) :
  (forall q, In q l -> lo <= q <= hi)%Q -> mean l = Fin m ->
  (lo <= m <= hi)%Q.
Proof.
  intros H E.
  assert (N : l <> []) by (intros ->; discriminate).
  rewrite (mean_nonempty l N) in E.
  apply (f_equal (fun x => match x with Fin q => q | _ => 0%Q end)) in E.
  cbv beta iota in E. subst m.
  assert (P : (0 < inject_Z (Z.of_nat (List.length l)))%Q).
  { destruct l; [now elim N |]. unfold Qlt. cbn. lia. }
  destruct (Qsum_bounds l lo hi H) as [B1 B2].
  split.
  - eapply Qle_trans; [| apply Qle_lteq; right; symmetry; apply Qred_correct].
    apply Qle_shift_div_l; assumption.
  - eapply Qle_trans; [apply Qle_lteq; right; apply Qred_correct |].
    apply Qle_shift_div_r; assumption.
Qed.

(** X8.  A rolling mean never leaves the range of the data: when every
    observation of the series lies between [lo] and [hi], so does every
    defined value of its rolling mean, for any window and any minimum
    number of observations (in exact arithmetic). *)
Theorem rolling_mean_within_bounds (w mp : nat) (xs : list (option Q))
        (lo hi : Q) (i : nat) (m : Q) :
  (forall q, In (Some q) xs -> lo <= q <= hi)%Q ->
  nth i (rolling w mp mean xs) NaN = Fin m ->
  (lo <= m <= hi)%Q.
Proof.
  intros H E.
  destruct (Nat.lt_ge_cases i (List.length xs)) as [Hi | Hi].
  - rewrite rolling_nth in E by exact Hi. unfold roll_at in E.
    destruct (mp <=? List.length (observations (window_at w xs i)))%nat;
      [| discriminate].
    apply (mean_bounds _ lo hi m) in E; [exact E |].
    intros q Hq. apply H. unfold observations in Hq.
    apply in_flat_map in Hq. destruct Hq as (o & Ho & Hq).
    destruct o as [q' |]; [| destruct Hq]. destruct Hq as [<- | []].
    eapply window_at_In, Ho.
  - rewrite nth_overflow in E by (now rewrite rolling_length). discriminate.
Qed.

Lemma rolling_mean_within_bounds_witness :
  (40 <= 50 <= 60)%Q.
Proof.
  apply (rolling_mean_within_bounds 7 3 [Some 40%Q; Some 50%Q; Some 60%Q]
           40 60 2 50).
  - intros q [E | [E | [E | []]]]; injection E as <-; split; discriminate.
  - reflexivity.
Defined.

Lemma fold_min_In (d0 : Z) (t : list Z) : In (fold_right Z.min d0 t) (d0 :: t).
Proof.
  induction t as [| x t IH]; cbn [fold_right]; [now left |].
  destruct (Z.min_spec x (fold_right Z.min d0 t)) as [[_ ->] | [_ ->]].
  - right. now left.
  - destruct IH as [<- | IH]; [now left | right; now right].
Qed.

Lemma fold_max_In (d0 : Z) (t : list Z) : In (fold_right Z.max d0 t) (d0 :: t).
Proof.
  induction t as [| x t IH]; cbn [fold_right]; [now left |].
  destruct (Z.max_spec x (fold_right Z.max d0 t)) as [[_ ->] | [_ ->]].
  - destruct IH as [<- | IH]; [now left | right; now right].
  - right. now left.
Qed.

Lemma seq_sorted (a n : nat) : StronglySorted lt (seq a n).
Proof.
  revert a. induction n as [| n IH]; intros a; cbn [seq]; constructor.
  - apply IH.
  - rewrite Forall_forall. intros x Hx. apply in_seq in Hx. lia.
Qed.

(** X9.  The weekly frame has one row for every calendar week from the
    week of the first sample to the week of the last one, whether the
    week holds samples or not: its labels are exactly the Sundays that lie
    between the week ends of two sample dates, in strictly increasing
    order; a frame without rows gives a weekly frame without rows. *)
Theorem weekly_index_every_week (accel : DataFrame) (w : Z) :
  (In w (index (plot_weekly_acceleration accel))
   <-> weekday w = 6
       /\ exists a b, In a (index accel) /\ In b (index accel)
                      /\ week_end a <= w <= week_end b)
  /\ StronglySorted Z.lt (index (plot_weekly_acceleration accel))
  /\ (index accel = [] -> index (plot_weekly_acceleration accel) = []).
Proof.
  unfold plot_weekly_acceleration. cbn [resample_W_mean index].
  destruct (index accel) as [| d0 t] eqn:E.
  { split; [| split; [constructor | reflexivity]].
    split; [intros [] | intros (_ & a & _ & [] & _)]. }
  set (lo := fold_right Z.min d0 t). set (hi := fold_right Z.max d0 t).
  assert (Hlo : In lo (d0 :: t)) by apply fold_min_In.
  assert (Hhi : In hi (d0 :: t)) by apply fold_max_In.
  assert (LH : lo <= hi) by (apply fold_min_le, Hhi).
  pose proof (week_end_mono lo hi LH) as M.
  destruct (week_end_step lo hi LH) as (n & N0 & En).
  assert (Q : (week_end hi - week_end lo) / 7 = n).
  { rewrite En. replace (week_end lo + 7 * n - week_end lo) with (n * 7) by lia.
    apply Z.div_mul. lia. }
  unfold week_bins. fold lo hi. rewrite Q.
  split; [| split; [| discriminate]].
  - split.
    + intros H. apply in_map_iff in H. destruct H as (k & <- & Hk).
      apply in_seq in Hk. split.
      * pose proof (week_end_sunday lo) as S. unfold weekday in *.
        Z.div_mod_to_equations. lia.
      * exists lo, hi. repeat split; try assumption; lia.
    + intros (S & a & b & Ha & Hb & La & Lb).
      assert (A1 : week_end lo <= week_end a)
        by (apply week_end_mono, fold_min_le, Ha).
      assert (B1 : week_end b <= week_end hi)
        by (apply week_end_mono, fold_max_ge, Hb).
      pose proof (week_end_sunday lo) as S0.
      apply in_map_iff. exists (Z.to_nat ((w - week_end lo) / 7)). split.
      * rewrite Z2Nat.id by (apply Z.div_pos; lia).
        unfold weekday in *. Z.div_mod_to_equations. lia.
      * apply in_seq. split; [lia |]. cbn [Nat.add].
        apply Nat.lt_succ_r. apply Z2Nat.inj_le; [apply Z.div_pos; lia | lia |].
        apply Z.div_le_upper_bound; lia.
  - apply StronglySorted_map_iff.
    eapply StronglySorted_weaken; [| apply seq_sorted].
    intros x y _ _ L. cbv beta. lia.
Qed.

(** * More of the report and of the charts *)

(** ** The statistics of the report *)




Lemma observations_perm (l1 l2 : list (option Q)) :
  Permutation l1 l2 -> Permutation (observations l1) (observations l2).
Proof.
  induction 1 as [| x l1 l2 _ IH | x y l | l1 l2 l3 _ IH1 _ IH2].
  - constructor.
  - unfold observations. cbn [flat_map]. apply Permutation_app_head, IH.
  - unfold observations. cbn [flat_map]. rewrite !app_assoc.
    apply Permutation_app_tail, Permutation_app_comm.
  - eapply Permutation_trans; eassumption.
Qed.




Example statistics_of_a_frame_with_gaps :
  map (fun p => (fst p, Report.count (snd p), Report.total (snd p)))
      (Report.calculate_statistics Report.with_gaps)
  = [(Some Report.base, 1%nat, 100%Q); (None, 0%nat, 0%Q);
     (Some Report.alt, 3%nat, 120%Q)].
Proof. vm_compute. reflexivity. Qed.

Lemma flat_map_map {A B C : Type} (g : A -> B) (f : B -> list C)
      (l : list A) :
  flat_map f (map g l) = flat_map (fun a => f (g a)) l.
Proof.
  induction l as [| a l IH]; [reflexivity |].
  cbn [map flat_map]. now rewrite IH.
Qed.

Lemma lookup_keys (stats : list (option string * Report.stat))
      (s : option string) :
  Report.lookup stats s <> None <-> In s (map fst stats).
Proof.
  unfold Report.lookup. induction stats as [| p t IH]; cbn [find map In].
  - cbn [option_map]. tauto.
  - destruct (Report.same_label (fst p) s) eqn:E.
    + apply same_label_eq in E. cbn [option_map].
      split; [auto | discriminate].
    + rewrite IH. split; [tauto |]. intros [K | K]; [| exact K].
      rewrite (proj2 (same_label_eq _ _) K) in E. discriminate.
Qed.

(** X11.  The improvement chart, the statistics and the summary agree when
    the frame has baseline rows: the bars of chart 19 are the improvements
    recorded in the statistics, scenario by scenario and in the same
    order, one for every scenario but the baseline; the summary lists the
    same scenarios with the same improvements, and every entry it lists
    has its time saved.  Without baseline rows the summary lists nothing,
    while the chart still draws one bar per scenario. *)
Theorem improvement_bars_match_statistics (df : Report.frame) :
  let stats := Report.calculate_statistics df in
  (In (Some Report.base) (map Report.scenario df) ->
   Report.chart_19_improvement_bars df
   = flat_map (fun p => match Report.improvement_pct (snd p) with
                        | Some v => [(fst p, v)]
                        | None => []
                        end) stats
   /\ map (fun k => (fst (fst (fst k)), snd (fst k)))
          (Report.key_results stats)
      = Report.chart_19_improvement_bars df
   /\ map fst (Report.chart_19_improvement_bars df)
      = filter Report.not_base (Report.scenarios df)
   /\ forall k, In k (Report.key_results stats) ->
                exists t, snd k = Some t)
  /\ (~ In (Some Report.base) (map Report.scenario df) ->
      Report.key_results stats = []
      /\ map fst (Report.chart_19_improvement_bars df)
         = Report.scenarios df).
Proof.
  intros stats. split.
  - intros H. unfold stats.
    assert (L : Report.lookup (Report.calculate_statistics df)
                              (Some Report.base) <> None).
    { apply lookup_keys. rewrite calculate_statistics_keys.
      now apply scenarios_iff. }
    unfold Report.key_results.
    destruct (Report.lookup _ (Some Report.base)) as [b |];
      [clear L | now elim L].
    rewrite (calculate_statistics_with_baseline df H).
    unfold Report.chart_19_improvement_bars. rewrite !flat_map_map.
    repeat split.
    + apply flat_map_ext_In. intros s _.
      destruct (Report.not_base s); reflexivity.
    + rewrite map_flat_map. apply flat_map_ext_In. intros s _.
      destruct (Report.not_base s); reflexivity.
    + induction (Report.scenarios df) as [| s l IH]; [reflexivity |].
      cbn [flat_map filter].
      destruct (Report.not_base s); cbn [app map fst];
        now rewrite IH.
    + intros k Hk. apply in_flat_map in Hk. destruct Hk as (s & _ & Hk).
      destruct (Report.not_base s); cbn [fst snd] in Hk.
      * destruct Hk as [<- | []]. cbn [snd Report.total_time_saved].
        eexists. reflexivity.
      * destruct Hk.
  - intros H. unfold stats. split.
    + unfold Report.key_results.
      destruct (Report.lookup _ (Some Report.base)) eqn:E; [| reflexivity].
      assert (L : Report.lookup (Report.calculate_statistics df)
                                (Some Report.base) <> None)
        by (rewrite E; discriminate).
      apply lookup_keys in L. rewrite calculate_statistics_keys in L.
      apply scenarios_iff in L. contradiction.
    + unfold Report.chart_19_improvement_bars.
      assert (K : forall s, In s (Report.scenarios df) ->
                            Report.not_base s = true).
      { intros s Hs. destruct (Report.not_base s) eqn:E; [reflexivity |].
        apply not_base_false in E. subst s.
        apply scenarios_iff in Hs. contradiction. }
      induction (Report.scenarios df) as [| s l IH]; [reflexivity |].
      cbn [flat_map]. rewrite (K s (or_introl eq_refl)).
      cbn [app map fst]. rewrite IH; [reflexivity |].
      intros s' Hs'. apply K. now right.
Qed.

(** ** Cumulative lines *)

Lemma cumsum_from_length (acc : float) (l : list float) :
  List.length (Report.cumsum_from acc l) = List.length l.
Proof.
  revert acc. induction l as [| x t IH]; intros acc; [reflexivity |].
  cbn [Report.cumsum_from]. destruct (isna x); cbn [List.length]; now rewrite IH.
Qed.





Example cumulative_line_sample :
  Report.chart_05_cumulative Report.stable_by_date Report.with_baseline
  = [(Some Report.base, [(Some 10, Fin 100); (Some 11, Fin 180)]);
     (Some Report.alt,
      [(Some 12, Fin 45); (Some 13, NaN); (Some 14, Fin 90)])].
Proof. vm_compute. reflexivity. Qed.

Lemma cumsum_from_fin_nth (qs : list Q) (a : Q) (i : nat) :
  (i < List.length qs)%nat ->
  exists r, nth i (Report.cumsum_from (Fin a) (map Fin qs)) NaN = fin r
            /\ (r == a + Qsum (firstn (S i) qs))%Q.
Proof.
  revert a i. induction qs as [| x t IH]; intros a i Hi;
    cbn [List.length] in Hi; [lia |].
  cbn [map Report.cumsum_from isna].
  change (fadd (Fin a) (Fin x)) with (Fin (Qred (a + x))).
  destruct i as [| j]; cbn [nth].
  - exists (a + x)%Q. split; [reflexivity |]. cbn. ring.
  - destruct (IH (Qred (a + x)) j ltac:(lia)) as (r & E & Hr).
    exists r. split; [exact E |]. rewrite Hr, Qred_correct.
    change (firstn (S (S j)) (x :: t)) with (x :: firstn (S j) t).
    cbn [Qsum fold_right]. fold (Qsum (firstn (S j) t)). ring.
Qed.

Lemma cumsum_from_nan {A : Type} (acc : float) (l : list A) (i : nat) :
  nth i (Report.cumsum_from acc (map (fun _ => NaN) l)) NaN = NaN.
Proof.
  revert i. induction l as [| x l IH]; intros i;
    cbn [map Report.cumsum_from isna].
  - now destruct i.
  - destruct i as [| j]; [reflexivity | apply IH].
Qed.

Lemma Qsum_saved (b : Q) (qs : list Q) :
  (Qsum (map (fun q => Qred (b + Qred (- q))) qs)
   == inject_Z (Z.of_nat (List.length qs)) * b - Qsum qs)%Q.
Proof.
  induction qs as [| x t IH].
  - cbn. ring.
  - cbn [map Qsum fold_right List.length].
    fold (Qsum (map (fun q => Qred (b + Qred (- q))) t)). fold (Qsum t).
    rewrite IH, Nat2Z.inj_succ, <- Z.add_1_r, inject_Z_plus.
    rewrite !Qred_correct. change (inject_Z 1) with 1%Q. ring.
Qed.

Lemma observations_all_defined (xs : list (option Q)) :
  (forall x, In x xs -> x <> None) ->
  xs = map Some (observations xs).
Proof.
  induction xs as [| x t IH]; intros H; [reflexivity |].
  destruct x as [q |]; [| now elim (H None (or_introl eq_refl))].
  unfold observations. cbn [flat_map app map]. f_equal.
  apply IH. intros y Hy. apply H. now right.
Qed.

(** X13.  When the frame has baseline rows and no row of a scenario lacks
    its minutes, the line chart 20 draws for the scenario ends at the time
    saved that the statistics and the summary report for it: the sum over
    the rows of (baseline mean - minutes) is (baseline mean - scenario
    mean) times the number of rows (in exact arithmetic). *)
Theorem time_saved_line_ends_at_total (sort : sorter Report.by_date)
        (df : Report.frame) (s : option string)
        (ser : list (option Z * float)) (st : Report.stat) (i : nat) :
  In (Some Report.base) (map Report.scenario df) ->
  In (s, ser) (Report.chart_20_time_saved sort df) ->
  In (s, st) (Report.calculate_statistics df) ->
  (forall r, In r df -> Report.scenario r = s -> Report.minutes r <> None) ->
  S i = List.length ser ->
  Report.total_time_saved st = Some (nth i (map snd ser) NaN).
Proof.
  intros Hb Hser Hst Hdef Hi.
  unfold Report.chart_20_time_saved in Hser. cbv zeta in Hser.
  apply in_flat_map in Hser. destruct Hser as (s' & Hs' & Hser).
  destruct (Report.not_base s') eqn:N; [| destruct Hser].
  destruct Hser as [Hser | []]. injection Hser as -> <-.
  rewrite (calculate_statistics_with_baseline df Hb) in Hst.
  apply in_map_iff in Hst. destruct Hst as (s'' & Hst & _).
  destruct (Report.not_base s'') eqn:N2; injection Hst as -> <-;
    [| congruence].
  cbn [Report.total_time_saved]. f_equal.
  set (data := sort (Report.select df s)) in *.
  set (bm := Report.series_mean (Report.select df (Some Report.base))) in *.
  assert (P : Permutation data (Report.select df s))
    by apply (sort_values_perm sort).
  assert (Ls : List.length (map Report.date data)
               = List.length
                   (Report.cumsum
                      (map (fun r => fsub bm (Report.to_float
                                                (Report.minutes r))) data))).
  { unfold Report.cumsum. now rewrite cumsum_from_length, !length_map. }
  rewrite length_combine, <- Ls, Nat.min_id, length_map in Hi.
  rewrite (map_snd_combine _ _ Ls).
  set (qs := observations (map Report.minutes data)).
  set (qs' := observations (map Report.minutes (Report.select df s))).
  assert (D : forall l : Report.frame,
             (forall r, In r l -> In r (Report.select df s)) ->
             map Report.minutes l
             = map Some (observations (map Report.minutes l))).
  { intros l Hl. apply observations_all_defined. intros x Hx.
    apply in_map_iff in Hx. destruct Hx as (r & <- & Hr).
    apply Hl in Hr. unfold Report.select in Hr. apply filter_In in Hr.
    destruct Hr as [Hr Es]. apply label_eq_true in Es.
    apply Hdef; tauto. }
  assert (Dd : map Report.minutes data = map Some qs).
  { apply D. intros r Hr. eapply Permutation_in; eassumption. }
  assert (Dq : map Report.minutes (Report.select df s) = map Some qs')
    by (apply D; auto).
  assert (Lq : List.length qs = List.length data).
  { rewrite <- (length_map Report.minutes data), Dd. now rewrite length_map. }
  assert (Lq' : List.length qs' = List.length (Report.select df s)).
  { rewrite <- (length_map Report.minutes (Report.select df s)), Dq.
    now rewrite length_map. }
  assert (Pq : Permutation qs qs').
  { apply observations_perm, Permutation_map, P. }
  assert (Ld : List.length data = List.length (Report.select df s))
    by apply Permutation_length, P.
  replace (map (fun r => fsub bm (Report.to_float (Report.minutes r))) data)
    with (map (fun q => fsub bm (Fin q)) qs).
  2:{ rewrite <- (map_map Report.minutes
                          (fun o => fsub bm (Report.to_float o)) data).
      rewrite Dd, map_map. reflexivity. }
  unfold Report.series_mean at 1. fold qs'.
  unfold bm, Report.series_mean.
  destruct (observations
              (map Report.minutes (Report.select df (Some Report.base))))
    as [| b0 obs] eqn:Eb.
  { cbn [mean]. unfold Report.cumsum. symmetry.
    apply (cumsum_from_nan (Fin 0) qs i). }
  rewrite (mean_nonempty (b0 :: obs)) by discriminate.
  set (b := Qred (Qsum (b0 :: obs)
                  / inject_Z (Z.of_nat (List.length (b0 :: obs))))).
  assert (Nq : qs' <> []).
  { intros K. rewrite K in Lq'. cbn [List.length] in Lq'. lia. }
  rewrite (mean_nonempty qs' Nq).
  replace (map (fun q => fsub (Fin b) (Fin q)) qs)
    with (map Fin (map (fun q => Qred (b + Qred (- q))) qs))
    by (rewrite map_map; reflexivity).
  destruct (cumsum_from_fin_nth (map (fun q => Qred (b + Qred (- q))) qs)
                                0 i) as (r & Er & Hr).
  { rewrite length_map. lia. }
  unfold Report.cumsum. rewrite Er.
  rewrite firstn_all2 in Hr by (rewrite length_map; lia).
  change (fsub (Fin b) (Fin ?m)) with (fin (b + Qred (- m))).
  unfold fin. cbn [fmul]. unfold fin. f_equal. apply Qred_complete.
  rewrite Hr, Qsum_saved, !Qred_correct, Lq, Ld, <- Lq'.
  rewrite (Qsum_perm _ _ Pq).
  assert (Z0 : ~ (inject_Z (Z.of_nat (List.length qs')) == 0)%Q).
  { intros K. destruct qs' as [| q0 t]; [now elim Nq |].
    cbn [List.length] in K. rewrite Nat2Z.inj_succ in K.
    unfold Qeq, inject_Z in K. cbn in K. lia. }
  field. exact Z0.
Qed.

Lemma time_saved_line_ends_at_total_witness :
  Report.total_time_saved
    (Report.mkstat 2 (Fin (75 # 2)) 75 (Some (Fin (175 # 3)))
                   (Some (Fin 105)))
  = Some (nth 1 (map snd [(Some 12, Fin 45); (Some 14, Fin 105)]) NaN).
Proof.
  apply (time_saved_line_ends_at_total Report.stable_by_date
           Report.complete (Some Report.alt)).
  - vm_compute. auto.
  - vm_compute. left. reflexivity.
  - vm_compute. right. left. reflexivity.
  - intros r [<- | [<- | [<- | [<- | []]]]] _; discriminate.
  - reflexivity.
Defined.

(** A row without minutes takes the line and the recorded figure apart:
    the line skips the row, the statistics count it. *)
Example time_saved_with_missing_minutes :
  In (Some Report.alt,
      [(Some 12, Fin 45); (Some 13, NaN); (Some 14, Fin 90)])
     (Report.chart_20_time_saved Report.stable_by_date Report.with_baseline)
  /\ option_map Report.total_time_saved
       (Report.lookup (Report.calculate_statistics Report.with_baseline)
                      (Some Report.alt))
     = Some (Some (Fin 135)).
Proof. split; vm_compute; auto. Qed.

(** ** The improvement figure *)

Lemma Qsign_Lt (q : Q) : Qsign q = Lt <-> (0 < q)%Q.
Proof.
  unfold Qsign, Qlt. cbn [Qnum Qden]. rewrite Z.compare_lt_iff. lia.
Qed.

Lemma Qsign_Gt (q : Q) : Qsign q = Gt <-> (q < 0)%Q.
Proof.
  unfold Qsign, Qlt. cbn [Qnum Qden]. rewrite Z.compare_gt_iff. lia.
Qed.

Lemma Qsign_Eq (q : Q) : Qsign q = Eq <-> (q == 0)%Q.
Proof.
  unfold Qsign, Qeq. cbn [Qnum Qden]. rewrite Z.compare_eq_iff. lia.
Qed.

(** X14.  The improvement of a scenario mean [m] over a baseline mean [b],
    as chart 19 and the statistics compute it.  For a baseline mean other
    than zero it is the number (b - m) / b * 100; for a positive baseline
    it is positive exactly when the scenario is faster than the baseline,
    zero exactly when the means are equal, and at most 100 exactly when
    the scenario mean is not negative.  A zero baseline mean raises
    nothing: the figure is then an infinity, or NaN when the scenario mean
    is zero as well. *)
Theorem improvement_sign_and_zero_baseline (b m : Q) :
  (~ (b == 0)%Q ->
   exists v, Report.improvement (Fin b) (Fin m) = Fin v
             /\ (v == (b - m) / b * 100)%Q
             /\ ((0 < b)%Q ->
                 ((0 < v)%Q <-> (m < b)%Q)
                 /\ ((v == 0)%Q <-> (m == b)%Q)
                 /\ ((v <= 100)%Q <-> (0 <= m)%Q)))
  /\ ((b == 0)%Q ->
      ((m < 0)%Q -> Report.improvement (Fin b) (Fin m) = PInf)
      /\ ((m == 0)%Q -> Report.improvement (Fin b) (Fin m) = NaN)
      /\ ((0 < m)%Q -> Report.improvement (Fin b) (Fin m) = NInf)).
Proof.
  unfold Report.improvement.
  change (fsub (Fin b) (Fin m)) with (Fin (Qred (b + Qred (- m)))).
  cbn [fdiv]. split.
  - intros N. destruct (Qeq_bool b 0) eqn:E;
      [apply Qeq_bool_iff in E; contradiction |].
    unfold fin. cbn [fmul]. unfold fin. eexists. split; [reflexivity |].
    set (v := Qred (Qred (Qred (b + Qred (- m)) / b) * 100)).
    assert (V : (v == (b - m) / b * 100)%Q).
    { unfold v. rewrite !Qred_correct. field. exact N. }
    split; [exact V |]. intros Hb.
    assert (W : (v * b == (b - m) * 100)%Q).
    { rewrite V. field. exact N. }
    repeat split; intros H; nra.
  - intros Z0. destruct (Qeq_bool b 0) eqn:E;
      [| apply Qeq_bool_neq in E; contradiction].
    assert (A : (Qred (b + Qred (- m)) == - m)%Q).
    { rewrite !Qred_correct, Z0. ring. }
    repeat split; intros H; unfold signed_inf at 1.
    + assert (S0 : Qsign (Qred (b + Qred (- m))) = Lt).
      { apply Qsign_Lt. rewrite A. lra. }
      rewrite S0. reflexivity.
    + assert (S0 : Qsign (Qred (b + Qred (- m))) = Eq).
      { apply Qsign_Eq. rewrite A. lra. }
      rewrite S0. reflexivity.
    + assert (S0 : Qsign (Qred (b + Qred (- m))) = Gt).
      { apply Qsign_Gt. rewrite A. lra. }
      rewrite S0. reflexivity.
Qed.

(** ** The daily bars *)

(** X15.  The daily bar chart draws every row of the frame exactly once:
    the bars of all the groups together are the (date, minutes) pairs of
    the rows, in another order; there is one group per distinct scenario,
    in the order of first appearance, holding the rows of that scenario
    only, and the dates of a group never decrease. *)
Theorem daily_bars_draw_every_row_once (sort : sorter Speed.by_date)
        (df : frame) :
  Permutation (flat_map snd (plot_daily_bars sort df))
              (map (fun r => (Speed.date r, Speed.minutes r)) df)
  /\ map fst (plot_daily_bars sort df)
     = unique String.eqb (map Speed.scenario df)
  /\ NoDup (map fst (plot_daily_bars sort df))
  /\ (forall s bars,
         In (s, bars) (plot_daily_bars sort df) ->
         StronglySorted Z.le (map fst bars)
         /\ Permutation bars
              (map (fun r => (Speed.date r, Speed.minutes r))
                   (filter (fun r => String.eqb (Speed.scenario r) s) df))).
Proof.
  unfold plot_daily_bars. cbv zeta.
  assert (K : forall (f : string -> list (Z * Q)) (l : list string),
             map fst (map (fun s => (s, f s)) l) = l).
  { intros f l. rewrite map_map. cbn [fst]. apply map_id. }
  rewrite K.
  split; [| split; [reflexivity | split; [apply NoDup_unique |]]].
  - rewrite flat_map_map. cbn [snd].
    eapply Permutation_trans;
      [| apply Permutation_map,
           (group_partition Speed.scenario String.eqb String.eqb_eq
                            (unique String.eqb (map Speed.scenario df)));
         [apply NoDup_unique
         | intros r Hr; apply unique_In, in_map, Hr]].
    rewrite map_flat_map.
    induction (unique String.eqb (map Speed.scenario df)) as [| s l IH];
      [constructor |].
    cbn [flat_map]. apply Permutation_app; [| exact IH].
    apply Permutation_map, (sort_values_perm sort).
  - intros s bars H. apply in_map_iff in H. destruct H as (s' & E & _).
    injection E as -> <-. split.
    + rewrite map_map. cbn [fst]. apply StronglySorted_map_iff.
      apply (sort_values_sorted sort).
    + apply Permutation_map, (sort_values_perm sort).
Qed.

(** ** The band of chart 18 *)

Lemma Qmin_cases (x y : Q) : Qmin x y = x \/ Qmin x y = y.
Proof.
  unfold Qmin, GenericMinMax.gmin. destruct (x ?= y)%Q; auto.
Qed.

Lemma Qmax_cases (x y : Q) : Qmax x y = x \/ Qmax x y = y.
Proof.
  unfold Qmax, GenericMinMax.gmax. destruct (x ?= y)%Q; auto.
Qed.

Lemma fold_Qmin_spec (x : Q) (t : list Q) :
  In (fold_right Qmin x t) (x :: t)
  /\ forall q, In q (x :: t) -> (fold_right Qmin x t <= q)%Q.
Proof.
  induction t as [| y t [IH1 IH2]]; cbn [fold_right].
  - split; [now left |]. intros q [<- | []]. apply Qle_refl.
  - split.
    + destruct (Qmin_cases y (fold_right Qmin x t)) as [-> | ->].
      * right. now left.
      * destruct IH1 as [<- | IH1]; [now left | right; now right].
    + intros q Hq.
      assert (C : q = y \/ In q (x :: t)).
      { destruct Hq as [<- | [<- | Hq]]; [right; now left | now left
                                          | right; now right]. }
      destruct C as [-> | C].
      * apply Q.le_min_l.
      * eapply Qle_trans; [apply Q.le_min_r | apply IH2, C].
Qed.

Lemma fold_Qmax_spec (x : Q) (t : list Q) :
  In (fold_right Qmax x t) (x :: t)
  /\ forall q, In q (x :: t) -> (q <= fold_right Qmax x t)%Q.
Proof.
  induction t as [| y t [IH1 IH2]]; cbn [fold_right].
  - split; [now left |]. intros q [<- | []]. apply Qle_refl.
  - split.
    + destruct (Qmax_cases y (fold_right Qmax x t)) as [-> | ->].
      * right. now left.
      * destruct IH1 as [<- | IH1]; [now left | right; now right].
    + intros q Hq.
      assert (C : q = y \/ In q (x :: t)).
      { destruct Hq as [<- | [<- | Hq]]; [right; now left | now left
                                          | right; now right]. }
      destruct C as [-> | C].
      * apply Q.le_max_l.
      * eapply Qle_trans; [apply IH2, C | apply Q.le_max_r].
Qed.

(** X16.  In chart 18 the line of the rolling mean never leaves the filled
    band.  For every scenario of the frame the chart draws exactly one
    band; its three series have one point per row of the scenario, on the
    dates of the rows in the order [sort_values] gives them.  On a row
    whose window of 7 rows holds fewer than 3 minutes, all three are
    undefined; on every other row they are defined, the lower and the
    upper edge are minutes of the window, and lower <= mean <= upper (in
    exact arithmetic). *)
Theorem min_max_band_contains_mean (sort : sorter Report.by_date)
        (df : Report.frame) (s : option string) :
  In s (map Report.scenario df) ->
  let data := sort (Report.select df s) in
  let xs := map Report.minutes data in
  exists b : Report.band,
    (forall b', In (s, b') (Report.chart_18_min_max_range sort df)
                <-> b' = b)
    /\ map fst (Report.rolling_min b) = map Report.date data
    /\ map fst (Report.rolling_max b) = map Report.date data
    /\ map fst (Report.rolling_mean b) = map Report.date data
    /\ forall i, (i < List.length data)%nat ->
         let obs := observations (window_at 7 xs i) in
         ((List.length obs < 3)%nat ->
          nth i (map snd (Report.rolling_min b)) NaN = NaN
          /\ nth i (map snd (Report.rolling_max b)) NaN = NaN
          /\ nth i (map snd (Report.rolling_mean b)) NaN = NaN)
         /\ ((3 <= List.length obs)%nat ->
             exists lo hi m,
               nth i (map snd (Report.rolling_min b)) NaN = Fin lo
               /\ nth i (map snd (Report.rolling_max b)) NaN = Fin hi
               /\ nth i (map snd (Report.rolling_mean b)) NaN = Fin m
               /\ In lo obs /\ In hi obs
               /\ (lo <= m <= hi)%Q).
Proof.
  intros Hs data xs.
  assert (Hk : In s (Report.scenarios df)) by now apply scenarios_iff.
  exists (Report.mkband
            (combine (map Report.date data) (rolling 7 3 Report.window_min xs))
            (combine (map Report.date data) (rolling 7 3 Report.window_max xs))
            (combine (map Report.date data) (rolling 7 3 mean xs))).
  split.
  { intros b'. unfold Report.chart_18_min_max_range. cbv zeta.
    rewrite (In_tabulate
               (fun s0 =>
                  Report.mkband
                    (combine (map Report.date (sort (Report.select df s0)))
                             (rolling 7 3 Report.window_min
                                (map Report.minutes
                                     (sort (Report.select df s0)))))
                    (combine (map Report.date (sort (Report.select df s0)))
                             (rolling 7 3 Report.window_max
                                (map Report.minutes
                                     (sort (Report.select df s0)))))
                    (combine (map Report.date (sort (Report.select df s0)))
                             (rolling 7 3 mean
                                (map Report.minutes
                                     (sort (Report.select df s0))))))).
    fold data. fold xs. tauto. }
  cbn [Report.rolling_min Report.rolling_max Report.rolling_mean].
  assert (L : forall agg, List.length (map Report.date data)
                          = List.length (rolling 7 3 agg xs)).
  { intros agg. unfold xs. now rewrite rolling_length, !length_map. }
  rewrite !(map_fst_combine _ _ (L _)), !(map_snd_combine _ _ (L _)).
  do 3 (split; [reflexivity |]).
  intros i Hi. set (obs := observations (window_at 7 xs i)).
  assert (Hx : (i < List.length xs)%nat)
    by (unfold xs; now rewrite length_map).
  rewrite !(rolling_nth 7 3 _ xs i NaN Hx). unfold roll_at. fold obs.
  clearbody obs.
  split; intros N.
  - destruct (Nat.leb_spec 3 (List.length obs)) as [K | K]; [lia |].
    repeat split.
  - destruct (Nat.leb_spec 3 (List.length obs)) as [K | K]; [| lia].
    destruct obs as [| x t] eqn:Eo; [cbn [List.length] in N; lia |].
    destruct (fold_Qmin_spec x t) as [I1 M1].
    destruct (fold_Qmax_spec x t) as [I2 M2].
    exists (fold_right Qmin x t), (fold_right Qmax x t),
      (Qred (Qsum (x :: t) / inject_Z (Z.of_nat (List.length (x :: t))))).
    repeat split; try assumption; try reflexivity;
      apply (mean_bounds (x :: t) (fold_right Qmin x t) (fold_right Qmax x t)
                         _ ltac:(intros q Hq; split; auto)
                         (mean_nonempty (x :: t) ltac:(discriminate))).
Qed.

Lemma min_max_band_contains_mean_witness :
  let df := [ Report.sample 12 Report.alt (Some 60%Q);
              Report.sample 13 Report.alt None;
              Report.sample 14 Report.alt (Some 30%Q);
              Report.sample 15 Report.alt (Some 45%Q) ] in
  let data := Report.stable_by_date (Report.select df (Some Report.alt)) in
  let xs := map Report.minutes data in
  exists b : Report.band,
    (forall b', In (Some Report.alt, b')
                   (Report.chart_18_min_max_range Report.stable_by_date df)
                <-> b' = b)
    /\ map fst (Report.rolling_min b) = map Report.date data
    /\ map fst (Report.rolling_max b) = map Report.date data
    /\ map fst (Report.rolling_mean b) = map Report.date data
    /\ forall i, (i < List.length data)%nat ->
         let obs := observations (window_at 7 xs i) in
         ((List.length obs < 3)%nat ->
          nth i (map snd (Report.rolling_min b)) NaN = NaN
          /\ nth i (map snd (Report.rolling_max b)) NaN = NaN
          /\ nth i (map snd (Report.rolling_mean b)) NaN = NaN)
         /\ ((3 <= List.length obs)%nat ->
             exists lo hi m,
               nth i (map snd (Report.rolling_min b)) NaN = Fin lo
               /\ nth i (map snd (Report.rolling_max b)) NaN = Fin hi
               /\ nth i (map snd (Report.rolling_mean b)) NaN = Fin m
               /\ In lo obs /\ In hi obs
               /\ (lo <= m <= hi)%Q).
Proof.
  intros df.
  apply (min_max_band_contains_mean Report.stable_by_date df
                                    (Some Report.alt)).
  vm_compute. auto.
Defined.

Example min_max_band_sample :
  Report.chart_18_min_max_range Report.stable_by_date
    [ Report.sample 12 Report.alt (Some 60%Q);
      Report.sample 13 Report.alt None;
      Report.sample 14 Report.alt (Some 30%Q);
      Report.sample 15 Report.alt (Some 45%Q) ]
  = [(Some Report.alt,
      Report.mkband
        [(Some 12, NaN); (Some 13, NaN); (Some 14, NaN); (Some 15, Fin 30)]
        [(Some 12, NaN); (Some 13, NaN); (Some 14, NaN); (Some 15, Fin 60)]
        [(Some 12, NaN); (Some 13, NaN); (Some 14, NaN); (Some 15, Fin 45)])].
Proof. vm_compute. reflexivity. Qed.
